(** * College Media: multi-channel notification delivery core

    A shallow embedding of the notification back end: the models
    NotificationPreferences and Notification (backend/models), the
    PushNotificationService (backend/services/pushNotificationService.js),
    the NotificationDispatcher (second part of backend/circuitBreaker.js),
    the EmailDigestService and the DigestScheduler
    (backend/services/emailDigestService.js) and the notification
    controller's updatePreferences, together with the properties of the
    preference predicates, dispatcher, push fan-out, digest scheduler and
    record state transitions.

    Conventions.
    - A [Date] is the number of milliseconds since the epoch, an integer [Z].
      Every [new Date()] of the source is an explicit clock argument.
    - Mongoose collections are lists of documents in insertion order; the
      preference collection is keyed by user and is a finite map.
    - Database calls are total: a [save], [updateOne] or [updateMany] that is
      reached is applied.  Outbound transports (web push, e-mail, socket) are
      oracles passed as arguments. *)

From Stdlib Require Import ZArith String Ascii List Bool Lia.
From Stdlib Require Import Sorting.Sorted Sorting.Permutation.
From stdpp Require Import base option list gmap strings.

Local Open Scope string_scope.
Local Open Scope Z_scope.

(** ** JavaScript numbers, as far as the time arithmetic needs them *)

Module Js.

(** The result of [Number(...)] and of the arithmetic on it: an integer or
    [NaN].  Every comparison with [NaN] is false. *)
Inductive num : Type :=
| Num (z : Z)
| NaN.

Definition mul (a b : num) : num :=
  match a, b with
  | Num x, Num y => Num (x * y)
  | _, _ => NaN
  end.

Definition add (a b : num) : num :=
  match a, b with
  | Num x, Num y => Num (x + y)
  | _, _ => NaN
  end.

Definition lt (a b : num) : bool :=
  match a, b with
  | Num x, Num y => x <? y
  | _, _ => false
  end.

Definition ge (a b : num) : bool :=
  match a, b with
  | Num x, Num y => y <=? x
  | _, _ => false
  end.

(** [s.split(':')]: the pieces between the separators, at least one piece. *)
Fixpoint split_colon (s : string) : list string :=
  match s with
  | EmptyString => [EmptyString]
  | String c rest =>
      if Ascii.eqb c ":"%char then EmptyString :: split_colon rest
      else match split_colon rest with
           | piece :: more => String c piece :: more
           | [] => [String c EmptyString]
           end
  end.

Definition digit_value (c : ascii) : option Z :=
  let n := Z.of_nat (nat_of_ascii c) in
  if (48 <=? n) && (n <=? 57) then Some (n - 48) else None.

Fixpoint digits_value (acc : Z) (s : string) : option Z :=
  match s with
  | EmptyString => Some acc
  | String c rest =>
      match digit_value c with
      | Some d => digits_value (10 * acc + d) rest
      | None => None
      end
  end.

(** [Number(s)] on the strings a time of day is made of: the empty string is
    0, a run of decimal digits is its value.  Signs, fractions, exponents,
    radix prefixes and surrounding white space do not occur in an "HH:mm"
    value and are not interpreted here: such a piece reads as [NaN], and the
    theorems below only speak about pieces that read as [Num]. *)
Definition Number (s : string) : num :=
  match digits_value 0 s with
  | Some z => Num z
  | None => NaN
  end.

(** [const [h, m] = s.split(':').map(Number)]: a missing second piece is
    [undefined], which the arithmetic below turns into [NaN]. *)
Definition hour_minute (s : string) : num * num :=
  match map Number (split_colon s) with
  | h :: m :: _ => (h, m)
  | h :: [] => (h, NaN)
  | [] => (NaN, NaN)
  end.

(** [h * 60 + m] for a stored time of day. *)
Definition minutes_of (s : string) : num :=
  let '(h, m) := hour_minute s in add (mul h (Num 60)) m.

(** [Date.prototype.getUTCHours] and [getUTCMinutes]. *)
Definition getUTCHours (now : Z) : Z := (now / 3600000) mod 24.
Definition getUTCMinutes (now : Z) : Z := (now / 60000) mod 60.

(** Truthiness of an optional string such as [process.env.X]. *)
Definition truthy_string (o : option string) : bool :=
  match o with
  | Some s => negb (String.eqb s "")
  | None => false
  end.

(** [s.length].  The strings of the model are the UTF-8 encodings of the
    program's strings, and JavaScript counts UTF-16 code units: one for a
    character up to U+FFFF, two beyond.  So a byte below 0x80 and the lead
    byte of a two- or three-byte sequence count one, the lead byte of a
    four-byte sequence counts two, and a continuation byte counts
    nothing. *)
Definition code_units (c : ascii) : nat :=
  let b := N_of_ascii c in
  if (b <? 128)%N then 1%nat
  else if (b <? 192)%N then 0%nat
  else if (b <? 240)%N then 1%nat
  else 2%nat.

Fixpoint length (s : string) : nat :=
  match s with
  | EmptyString => 0%nat
  | String c rest => (code_units c + length rest)%nat
  end.

End Js.

(** ** NotificationPreferences (backend/models/NotificationPreferences.js) *)

Module Preferences.

(** One entry of [channels]: every field may be absent after an update has
    replaced the entry. *)
Record channel_settings : Type := ChannelSettings {
  ch_enabled : option bool;
  ch_address : option string;
  ch_phoneNumber : option string
}.

Record digest_settings : Type := DigestSettings {
  frequency : string;
  time : string;
  dayOfWeek : Z
}.

Record quiet_hours : Type := QuietHours {
  qh_enabled : bool;
  startTime : string;
  endTime : string;
  timezone : string
}.

Record push_subscription : Type := PushSubscription {
  endpoint : string;
  p256dh : string;
  auth : string
}.

Record t : Type := Doc {
  _id : Z;
  user : Z;
  channels : gmap string channel_settings;
  categories : gmap string (gmap string bool);
  digest : digest_settings;
  pushSubscriptions : list push_subscription;
  quietHours : quiet_hours
}.

Definition on_off (b : bool) : channel_settings :=
  ChannelSettings (Some b) None None.

Definition category_defaults (email push inApp : bool) : gmap string bool :=
  <["email" := email]> (<["push" := push]> (<["inApp" := inApp]> ∅)).

(** The schema defaults, as [NotificationPreferences.create({ user })]
    stores them. *)
Definition defaults (id u : Z) : t :=
  {| _id := id;
     user := u;
     channels :=
       <["email" := on_off true]> (<["push" := on_off true]>
       (<["inApp" := on_off true]> (<["sms" := on_off false]> ∅)));
     categories :=
       <["social" := category_defaults true true true]>
       (<["content" := category_defaults false true true]>
       (<["messaging" := category_defaults true true true]>
       (<["events" := category_defaults true true true]>
       (<["system" := category_defaults true true true]>
       (<["marketing" := category_defaults false false true]> ∅)))));
     digest := DigestSettings "daily" "09:00" 1;
     pushSubscriptions := [];
     quietHours := QuietHours false "22:00" "08:00" "UTC" |}.

(** [this.channels[channel]?.enabled], read as a condition. *)
Definition master_switch (p : t) (channel : string) : bool :=
  match channels p !! channel with
  | Some c => match ch_enabled c with Some b => b | None => false end
  | None => false
  end.

(** [this.categories[category][channel]] when both exist. *)
Definition category_override (p : t) (channel category : string) : option bool :=
  match categories p !! category with
  | Some per_channel => per_channel !! channel
  | None => None
  end.

Definition shouldSend (p : t) (channel category : string) : bool :=
  if negb (master_switch p channel) then false
  else match category_override p channel category with
       | Some b => b
       | None => true
       end.

Definition isInQuietHours (p : t) (now : Z) : bool :=
  if negb (qh_enabled (quietHours p)) then false
  else
    let currentHour := Js.getUTCHours now in
    let currentMinute := Js.getUTCMinutes now in
    let currentTime := Js.Num (currentHour * 60 + currentMinute) in
    let startTime := Js.minutes_of (startTime (quietHours p)) in
    let endTime := Js.minutes_of (endTime (quietHours p)) in
    if Js.lt startTime endTime
    then Js.ge currentTime startTime && Js.lt currentTime endTime
    else Js.ge currentTime startTime || Js.lt currentTime endTime.

(** Minutes since midnight (UTC) of a clock reading. *)
Definition minutes_since_midnight (now : Z) : Z :=
  Js.getUTCHours now * 60 + Js.getUTCMinutes now.

End Preferences.

(** ** Notification (backend/models/Notification.js) *)

Module Notification.

Record inApp_state : Type := InApp {
  inApp_delivered : bool;
  inApp_deliveredAt : option Z
}.

Record push_state : Type := Push {
  push_delivered : bool;
  push_deliveredAt : option Z;
  push_error : option string
}.

Record email_state : Type := Email {
  email_delivered : bool;
  email_deliveredAt : option Z;
  email_error : option string;
  includeInDigest : bool
}.

Record channel_states : Type := Channels {
  inApp : inApp_state;
  push : push_state;
  email : email_state
}.

(** The document.  [data], [groupCount], [scheduledFor], [retryCount] and
    [lastRetryAt] are left out: no function of the model reads or writes
    them. *)
Record t : Type := Doc {
  _id : Z;
  recipient : Z;
  sender : option Z;
  type : string;
  category : string;
  title : string;
  body : string;
  channels : channel_states;
  status : string;
  read : bool;
  readAt : option Z;
  clicked : bool;
  clickedAt : option Z;
  priority : string;
  groupKey : option string;
  expiresAt : option Z;
  tenantId : option Z;
  createdAt : Z
}.

(** Assignment to the fields that change after creation; every other field
    keeps its value. *)
Definition assign (n : t) (ch : channel_states) (st : string)
    (r : bool) (rAt : option Z) (c : bool) (cAt : option Z) : t :=
  {| _id := _id n; recipient := recipient n; sender := sender n;
     type := type n; category := category n; title := title n;
     body := body n; channels := ch; status := st; read := r;
     readAt := rAt; clicked := c; clickedAt := cAt; priority := priority n;
     groupKey := groupKey n; expiresAt := expiresAt n;
     tenantId := tenantId n; createdAt := createdAt n |}.

Definition set_channels (n : t) (ch : channel_states) : t :=
  assign n ch (status n) (read n) (readAt n) (clicked n) (clickedAt n).

Definition set_status (n : t) (st : string) : t :=
  assign n (channels n) st (read n) (readAt n) (clicked n) (clickedAt n).

(** Schema defaults of the delivery sub-documents. *)
Definition fresh_channels : channel_states :=
  Channels (InApp false None) (Push false None None)
           (Email false None None true).

Definition markAsRead (now : Z) (n : t) : t :=
  assign n (channels n) "read" true (Some now) (clicked n) (clickedAt n).

(** The two [new Date()] of [markAsClicked] are two clock readings:
    [t_click] for [clickedAt], then [t_read] for [readAt]. *)
Definition markAsClicked (t_click t_read : Z) (n : t) : t :=
  let n1 := assign n (channels n) (status n) (read n) (readAt n)
                   true (Some t_click) in
  if negb (read n1)
  then assign n1 (channels n1) (status n1) true (Some t_read)
              (clicked n1) (clickedAt n1)
  else n1.

(** [Object.values(this.channels).some(c => c.delivered)] *)
Definition any_delivered (ch : channel_states) : bool :=
  inApp_delivered (inApp ch) || push_delivered (push ch)
  || email_delivered (email ch).

Definition set_delivered (channel : string) (now : Z) (ch : channel_states)
    : option channel_states :=
  if String.eqb channel "inApp" then
    Some (Channels (InApp true (Some now)) (push ch) (email ch))
  else if String.eqb channel "push" then
    Some (Channels (inApp ch)
                   (Push true (Some now) (push_error (push ch))) (email ch))
  else if String.eqb channel "email" then
    Some (Channels (inApp ch) (push ch)
                   (Email true (Some now) (email_error (email ch))
                          (includeInDigest (email ch))))
  else None.

Definition markChannelDelivered (channel : string) (now : Z) (n : t) : t :=
  match set_delivered channel now (channels n) with
  | Some ch =>
      let n1 := set_channels n ch in
      let allDelivered := any_delivered (channels n1) in
      if allDelivered && String.eqb (status n1) "pending"
      then set_status n1 "delivered"
      else n1
  | None => n
  end.

(** [notification.channels.email.includeInDigest = b] *)
Definition set_includeInDigest (b : bool) (n : t) : t :=
  let ch := channels n in
  let e := email ch in
  set_channels n
    (Channels (inApp ch) (push ch)
       (Email (email_delivered e) (email_deliveredAt e) (email_error e) b)).

(** [$set: { 'channels.email.delivered': true,
             'channels.email.deliveredAt': now }] *)
Definition set_email_delivered (now : Z) (n : t) : t :=
  let ch := channels n in
  let e := email ch in
  set_channels n
    (Channels (inApp ch) (push ch)
       (Email true (Some now) (email_error e) (includeInDigest e))).

(** *** Queries over the collection *)

(** [{ $or: [{ expiresAt: { $exists: false } },
              { expiresAt: { $gt: now } }] }] *)
Definition not_expired (now : Z) (n : t) : bool :=
  match expiresAt n with
  | None => true
  | Some e => now <? e
  end.

(** [if (category) query.category = category] *)
Definition category_matches (category : option string) (n : t) : bool :=
  match category with
  | Some c => if String.eqb c "" then true else String.eqb (Notification.category n) c
  | None => true
  end.

(** [if (types && types.length > 0) query.type = { $in: types }] *)
Definition type_matches (types : option (list string)) (n : t) : bool :=
  match types with
  | Some (ty :: tys) => existsb (String.eqb (type n)) (ty :: tys)
  | _ => true
  end.

(** [.sort({ createdAt: -1 })], by insertion. *)
Fixpoint insert_newest (n : t) (l : list t) : list t :=
  match l with
  | [] => [n]
  | x :: rest =>
      if createdAt x <? createdAt n then n :: l
      else x :: insert_newest n rest
  end.

Definition sort_newest_first (l : list t) : list t :=
  foldr insert_newest [] l.

(** [.limit(k)]: 0 is no limit, a negative [k] limits to its magnitude. *)
Definition limit (k : Z) (l : list t) : list t :=
  if k =? 0 then l else take (Z.abs_nat k) l.

Record unread_options : Type := UnreadOptions {
  uo_limit : option Z;
  uo_types : option (list string);
  uo_category : option string
}.

Definition getUnread (coll : list t) (now : Z) (userId : Z)
    (options : unread_options) : list t :=
  let lim := default 50 (uo_limit options) in
  let query n :=
    (recipient n =? userId) && negb (read n) && not_expired now n
    && type_matches (uo_types options) n
    && category_matches (uo_category options) n in
  limit lim (sort_newest_first (List.filter query coll)).

Record all_options : Type := AllOptions {
  ao_limit : option Z;
  ao_skip : option nat;
  ao_category : option string
}.

Definition getAll (coll : list t) (now : Z) (userId : Z)
    (options : all_options) : list t :=
  let lim := default 20 (ao_limit options) in
  let skip := default 0%nat (ao_skip options) in
  let query n :=
    (recipient n =? userId) && not_expired now n
    && category_matches (ao_category options) n in
  limit lim (drop skip (sort_newest_first (List.filter query coll))).

Definition markAllRead (coll : list t) (now : Z) (userId : Z)
    (category : option string) : list t :=
  let query n :=
    (recipient n =? userId) && negb (read n)
    && category_matches category n in
  map (fun n => if query n
                then assign n (channels n) "read" true (Some now)
                            (clicked n) (clickedAt n)
                else n) coll.

Definition getUnreadCount (coll : list t) (userId : Z)
    (category : option string) : nat :=
  let query n :=
    (recipient n =? userId) && negb (read n)
    && category_matches category n in
  length (List.filter query coll).

Definition getDigestNotifications (coll : list t) (userId : Z) (since : Z)
    : list t :=
  let query n :=
    (recipient n =? userId)
    && includeInDigest (email (channels n))
    && negb (email_delivered (email (channels n)))
    && (since <=? createdAt n) in
  sort_newest_first (List.filter query coll).

End Notification.

(** ** PushNotificationService (backend/services/pushNotificationService.js) *)

Module PushService.

Import Preferences.

(** The service object: [this.configured]. *)
Record service : Type := Service { configured : bool }.

(** [process.env] as a finite map; a variable is set or absent. *)
Definition initialize (env : gmap string string) : service :=
  let publicVapidKey := env !! "VAPID_PUBLIC_KEY" in
  let privateVapidKey := env !! "VAPID_PRIVATE_KEY" in
  if Js.truthy_string publicVapidKey && Js.truthy_string privateVapidKey
  then Service true
  else Service false.

(** What [webpush.sendNotification] does for one call: it resolves, or it
    throws an error with an optional [statusCode]. *)
Inductive push_outcome : Type :=
| Accepted
| Rejected (statusCode : option Z).

(** The outbound transport: the outcome of the [i]-th call of a fan-out,
    made for subscription [s]. *)
Definition transport : Type := nat -> push_subscription -> push_outcome.

(** One entry of [results]. *)
Record attempt : Type := Attempt {
  a_success : bool;
  a_endpoint : string
}.

(** The object [sendToUser] returns; a key that the object does not carry
    is [None]. *)
Record send_result : Type := SendResult {
  success : bool;
  deliveredTo : option nat;
  total : option nat;
  error : option string
}.

Definition is_gone (statusCode : option Z) : bool :=
  match statusCode with
  | Some c => (c =? 410) || (c =? 404)
  | None => false
  end.

(** The [for ... of] loop over the subscriptions: [results] and
    [invalidEndpoints], both in call order.  [i] is the index of the next
    call. *)
Fixpoint fan_out (tr : transport) (i : nat) (subscriptions : list push_subscription)
    : list attempt * list string :=
  match subscriptions with
  | [] => ([], [])
  | subscription :: rest =>
      let '(results, invalidEndpoints) := fan_out tr (S i) rest in
      match tr i subscription with
      | Accepted =>
          (Attempt true (endpoint subscription) :: results, invalidEndpoints)
      | Rejected statusCode =>
          (Attempt false (endpoint subscription) :: results,
           if is_gone statusCode
           then endpoint subscription :: invalidEndpoints
           else invalidEndpoints)
      end
  end.

(** [$pull: { pushSubscriptions: { endpoint: { $in: endpoints } } }] *)
Definition pull_endpoints (endpoints : list string) (p : Preferences.t)
    : Preferences.t :=
  {| _id := _id p; user := user p; channels := channels p;
     categories := categories p; digest := digest p;
     pushSubscriptions :=
       List.filter (fun s => negb (existsb (String.eqb (endpoint s)) endpoints))
                   (pushSubscriptions p);
     quietHours := quietHours p |}.

(** [updateOne(filter, change)]: the first matching document is changed. *)
Fixpoint updateOne (matches : Preferences.t -> bool)
    (change : Preferences.t -> Preferences.t) (coll : list Preferences.t)
    : list Preferences.t :=
  match coll with
  | [] => []
  | d :: rest =>
      if matches d then change d :: rest
      else d :: updateOne matches change rest
  end.

Definition removeInvalidSubscriptions (coll : list Preferences.t)
    (preferenceId : Z) (endpoints : list string) : list Preferences.t :=
  updateOne (fun d => _id d =? preferenceId) (pull_endpoints endpoints) coll.

(** What a call of [sendToUser] leaves behind: the preference collection,
    the endpoints handed to the transport (in order), and the returned
    object. *)
Record sent : Type := Sent {
  stored : list Preferences.t;
  attempted : list string;
  result : send_result
}.

Definition sendToUser (svc : service) (tr : transport)
    (coll : list Preferences.t) (userPreferences : Preferences.t) : sent :=
  if negb (configured svc)
  then Sent coll [] (SendResult false None None (Some "Not configured"))
  else
    let subscriptions := pushSubscriptions userPreferences in
    let '(results, invalidEndpoints) := fan_out tr 0%nat subscriptions in
    let coll' :=
      if (0 <? length invalidEndpoints)%nat
      then removeInvalidSubscriptions coll (_id userPreferences) invalidEndpoints
      else coll in
    let successCount := length (List.filter a_success results) in
    Sent coll' (map a_endpoint results)
         (SendResult (0 <? successCount)%nat (Some successCount)
                     (Some (length subscriptions)) None).

(** The calls of one fan-out, for stating what it does: every registered
    subscription with the index of its call. *)
Fixpoint calls_from (i : nat) (subscriptions : list push_subscription)
    : list (nat * push_subscription) :=
  match subscriptions with
  | [] => []
  | s :: rest => (i, s) :: calls_from (S i) rest
  end.

Definition calls (p : Preferences.t) : list (nat * push_subscription) :=
  calls_from 0%nat (pushSubscriptions p).

(** The call was accepted by the transport. *)
Definition accepted (tr : transport) (c : nat * push_subscription) : bool :=
  match tr (fst c) (snd c) with
  | Accepted => true
  | Rejected _ => false
  end.

(** The call failed with HTTP status 404 or 410. *)
Definition gone (tr : transport) (c : nat * push_subscription) : Prop :=
  tr (fst c) (snd c) = Rejected (Some 404)
  \/ tr (fst c) (snd c) = Rejected (Some 410).

End PushService.

(** ** NotificationDispatcher (second part of backend/circuitBreaker.js) *)

Module Dispatcher.

(** [payload.data], with the keys the schema types as strings or ids;
    [metadata] and [actions] are left out. *)
Record data : Type := Data {
  entityType : option string;
  entityId : option Z;
  url : option string;
  image : option string
}.

(** The event handed to [send]; an absent key is [None]. *)
Record payload : Type := Payload {
  p_sender : option Z;
  p_type : string;
  p_category : option string;
  p_title : string;
  p_body : string;
  p_data : option data;
  p_priority : option string;
  p_groupKey : option string;
  p_expiresAt : option Z;
  p_tenantId : option Z
}.

(** Both collections and the source of fresh [_id]s. *)
Record store : Type := Store {
  preferences : list Preferences.t;
  notifications : list Notification.t;
  next_id : Z
}.

(** What the dispatcher reads from outside: the clock (one instant per
    dispatch) and [isUserOnline]. *)
Record environment : Type := Environment {
  now : Z;
  isUserOnline : Z -> bool
}.

Definition category_of_type : gmap string string :=
  list_to_map
    [("like", "social"); ("comment", "social"); ("follow", "social");
     ("mention", "social"); ("reply", "social"); ("share", "content");
     ("post", "content"); ("message", "messaging"); ("event", "events");
     ("announcement", "system"); ("system", "system");
     ("reminder", "system"); ("achievement", "system")].

(** The names an object literal inherits from [Object.prototype]: for
    these, [map[type]] finds the inherited member, not [undefined]. *)
Definition Object_prototype : list string :=
  ["constructor"; "__defineGetter__"; "__defineSetter__"; "hasOwnProperty";
   "__lookupGetter__"; "__lookupSetter__"; "isPrototypeOf";
   "propertyIsEnumerable"; "toString"; "valueOf"; "__proto__";
   "toLocaleString"].

(** [map[type] || 'system'] for the own keys of [map] and for the types
    the lookup does not find.  A type named like a member of
    [Object_prototype] is outside this definition: there the source
    returns that member, which is no string. *)
Definition inferCategory (type : string) : string :=
  default "system" (category_of_type !! type).

(** [a || b] on optional strings. *)
Definition or_else (a : option string) (b : string) : string :=
  match a with
  | Some s => if String.eqb s "" then b else s
  | None => b
  end.

Definition type_enum : list string :=
  ["like"; "comment"; "follow"; "mention"; "reply"; "share"; "message";
   "event"; "post"; "announcement"; "system"; "reminder"; "digest";
   "achievement"].

Definition category_enum : list string :=
  ["social"; "content"; "messaging"; "events"; "system"; "marketing"].

Definition priority_enum : list string := ["low"; "normal"; "high"; "urgent"].

Definition entityType_enum : list string :=
  ["post"; "comment"; "user"; "event"; "message"; "conversation"].

Definition one_of (l : list string) (s : string) : bool :=
  existsb (String.eqb s) l.

(** Schema validation run by [save], on the fields of the record:
    [required] refuses the empty string, [maxlength] compares
    [value.length]. *)
Definition valid (n : Notification.t) : bool :=
  one_of type_enum (Notification.type n)
  && one_of category_enum (Notification.category n)
  && one_of priority_enum (Notification.priority n)
  && negb (String.eqb (Notification.title n) "")
  && (Js.length (Notification.title n) <=? 200)%nat
  && negb (String.eqb (Notification.body n) "")
  && (Js.length (Notification.body n) <=? 500)%nat.

(** The same validation on [data], which the record takes from the
    payload as it is and nothing writes: the enum of [data.entityType],
    checked when the key is present. *)
Definition valid_data (d : option data) : bool :=
  match d with
  | Some d =>
      match entityType d with
      | Some e => one_of entityType_enum e
      | None => true
      end
  | None => true
  end.

(** Step 1: [findOne({ user })], else [create({ user })]. *)
Definition load_preferences (st : store) (recipientId : Z)
    : Preferences.t * store :=
  match List.find (fun d => Preferences.user d =? recipientId) (preferences st) with
  | Some p => (p, st)
  | None =>
      let p := Preferences.defaults (next_id st) recipientId in
      (p, Store (preferences st ++ [p]) (notifications st) (next_id st + 1))
  end.

(** Step 2: [new Notification({ ... })]. *)
Definition new_notification (id : Z) (created : Z) (recipientId : Z)
    (pl : payload) : Notification.t :=
  {| Notification._id := id;
     Notification.recipient := recipientId;
     Notification.sender := p_sender pl;
     Notification.type := p_type pl;
     Notification.category := or_else (p_category pl) (inferCategory (p_type pl));
     Notification.title := p_title pl;
     Notification.body := p_body pl;
     Notification.channels := Notification.fresh_channels;
     Notification.status := "pending";
     Notification.read := false;
     Notification.readAt := None;
     Notification.clicked := false;
     Notification.clickedAt := None;
     Notification.priority := or_else (p_priority pl) "normal";
     Notification.groupKey := p_groupKey pl;
     Notification.expiresAt := p_expiresAt pl;
     Notification.tenantId := p_tenantId pl;
     Notification.createdAt := created |}.

(** A payload whose record passes the schema validation. *)
Definition acceptable (pl : payload) : bool :=
  valid (new_notification 0 0 0 pl) && valid_data (p_data pl).

(** The local object [channels] of [send]. *)
Record decision : Type := Decision {
  d_inApp : bool;
  d_push : bool;
  d_email : bool
}.

(** Step 3. *)
Definition decide (p : Preferences.t) (category : string) : decision :=
  Decision (Preferences.shouldSend p "inApp" category)
           (Preferences.shouldSend p "push" category)
           (Preferences.shouldSend p "email" category).

(** Step 4. *)
Definition quiet_hours_gate (p : Preferences.t) (at_ : Z) (priority : string)
    (channels : decision) : decision :=
  if d_push channels && Preferences.isInQuietHours p at_
     && negb (String.eqb priority "urgent")
  then Decision (d_inApp channels) false (d_email channels)
  else channels.

(** Step 5. *)
Definition deliver_inApp (env : environment) (recipientId : Z)
    (channels : decision) (n : Notification.t) : Notification.t * bool :=
  if d_inApp channels then
    if isUserOnline env recipientId
    then (Notification.markChannelDelivered "inApp" (now env) n, true)
    else (n, false)
  else (n, false).

(** Step 7. *)
Definition deliver_email (env : environment) (p : Preferences.t)
    (channels : decision) (n : Notification.t) : Notification.t :=
  if d_email channels then
    if String.eqb (Preferences.frequency (Preferences.digest p)) "never"
       || String.eqb (Notification.priority n) "urgent"
    then Notification.set_includeInDigest false
           (Notification.markChannelDelivered "email" (now env) n)
    else Notification.set_includeInDigest true n
  else Notification.set_includeInDigest false n.

(** What [send] leaves behind besides the store: the routing decision it
    acted on, whether the socket event was emitted, and whether the push
    fan-out was started (step 6; its completion updates the record later
    and is not part of [send]'s return). *)
Record effects : Type := Effects {
  routed : decision;
  socket_emitted : bool;
  push_started : bool
}.

(** Step 7 calls [markChannelDelivered('email')]. *)
Definition email_at_once (p : Preferences.t) (channels : decision)
    (n : Notification.t) : bool :=
  d_email channels
  && (String.eqb (Preferences.frequency (Preferences.digest p)) "never"
      || String.eqb (Notification.priority n) "urgent").

(** What a [save()] of the record is refused with: the schema validation,
    or another [save()] of the same document still running. *)
Inductive failure : Type :=
| ValidationError
| ParallelSaveError.

(** [send] resolves with the record or rejects. *)
Inductive outcome : Type :=
| Resolved (n : Notification.t)
| Rejected (why : failure).

(** A dispatch: the store afterwards, what was done besides, what the
    caller gets, and the record a save inserted, if one did. *)
Record dispatched : Type := Dispatched {
  after : store;
  done_ : effects;
  returned : outcome;
  saved : option Notification.t
}.

(** [send].  Steps 2 to 7 run without a pause.  [markChannelDelivered]
    ends in [return this.save()], which steps 5 and 7 do not await: the
    first such call starts a save of the record, and every [save()] of
    the same document called while it runs, the awaited one of step 8
    included, is refused with a ParallelSaveError.  So step 8 saves the
    record itself only when neither step called [markChannelDelivered];
    otherwise [send] rejects, and it is the save already running that
    validates the record and inserts it.  Either way the save reads the
    document after the synchronous steps, in the state they leave it in.
    [after] is the store once that save has finished, the callback of
    step 6 apart (see [PushSettle]); the rejection of a [save()] nobody
    awaits is handled by nobody, and the process is taken to go on. *)
Definition send (st : store) (env : environment) (recipientId : Z)
    (pl : payload) : dispatched :=
  let '(prefs, st1) := load_preferences st recipientId in
  let notification0 :=
    new_notification (next_id st1) (now env) recipientId pl in
  let channels0 := decide prefs (Notification.category notification0) in
  let channels :=
    quiet_hours_gate prefs (now env) (Notification.priority notification0)
                     channels0 in
  let '(notification1, emitted) :=
    deliver_inApp env recipientId channels notification0 in
  let notification2 := deliver_email env prefs channels notification1 in
  let eff := Effects channels emitted (d_push channels) in
  let saving := emitted || email_at_once prefs channels notification1 in
  let inserted :=
    Store (preferences st1) (notifications st1 ++ [notification2])
          (next_id st1 + 1) in
  let passes := valid notification2 && valid_data (p_data pl) in
  if saving then
    if passes
    then Dispatched inserted eff (Rejected ParallelSaveError)
                    (Some notification2)
    else Dispatched st1 eff (Rejected ParallelSaveError) None
  else
    if passes
    then Dispatched inserted eff (Resolved notification2)
                    (Some notification2)
    else Dispatched st1 eff (Rejected ValidationError) None.

End Dispatcher.

(** ** EmailDigestService and DigestScheduler
       (backend/services/emailDigestService.js) *)

Module DigestScheduler.

(** The part of an account the scheduler reads. *)
Record account : Type := Account {
  acc_id : Z;
  acc_email : option string
}.

(** What is handed to [emailTransport.sendMail]; the rendered body is
    represented by the records it is rendered from. *)
Record mail : Type := Mail {
  to : string;
  subject : string;
  items : list Notification.t
}.

(** The e-mail transport: [true] when [sendMail] resolves, [false] when it
    throws. *)
Definition mailer : Type := mail -> bool.

(** [EmailDigestService.sendDigest]: [None] is the early [return;]. *)
Definition sendDigest (tr : mailer) (address : string)
    (notifications : list Notification.t) (frequency : string)
    : option bool * option mail :=
  match notifications with
  | [] => (None, None)
  | _ =>
      let m := Mail address ("Your " ++ frequency ++ " update on College Media")
                    notifications in
      (Some (tr m), Some m)
  end.

Definition day_ms : Z := 86400000.

(** [since.setDate(since.getDate() - k)], for a process clock without
    daylight-saving shifts. *)
Definition days_before (k : Z) (at_ : Z) : Z := at_ - k * day_ms.

(** [updateMany({ _id: { $in: ids } }, { $set: ... })] *)
Definition mark_delivered (ids : list Z) (at_ : Z) (coll : list Notification.t)
    : list Notification.t :=
  map (fun n => if existsb (Z.eqb (Notification._id n)) ids
                then Notification.set_email_delivered at_ n
                else n) coll.

(** One run for one user.  [at_] is the clock reading the window is computed
    from, [marked_at] the later one written to [deliveredAt].  The second
    component is the digest handed to the transport, with its success. *)
Definition sendDigestForUser (tr : mailer) (coll : list Notification.t)
    (at_ marked_at : Z) (user : option account) (frequency : string)
    : list Notification.t * option (mail * bool) :=
  match user with
  | None => (coll, None)
  | Some u =>
      match acc_email u with
      | None => (coll, None)
      | Some address =>
          if String.eqb address "" then (coll, None)
          else
            let since :=
              if String.eqb frequency "daily"
              then days_before 1 at_ else days_before 7 at_ in
            let notifications :=
              Notification.getDigestNotifications coll (acc_id u) since in
            if (0 <? length notifications)%nat then
              match sendDigest tr address notifications frequency with
              | (Some true, Some m) =>
                  let ids := map Notification._id notifications in
                  (mark_delivered ids marked_at coll, Some (m, true))
              | (_, Some m) => (coll, Some (m, false))
              | (_, None) => (coll, None)
              end
            else (coll, None)
      end
  end.

(** The start of the lookback window of a run, [since] above. *)
Definition window (frequency : string) (at_ : Z) : Z :=
  if String.eqb frequency "daily" then days_before 1 at_ else days_before 7 at_.

(** [h.toString().padStart(2, '0')] for an hour of the day. *)
Definition digit_char (d : Z) : ascii := ascii_of_nat (48 + Z.to_nat d).

Definition pad2 (h : Z) : string :=
  String (digit_char (h / 10)) (String (digit_char (h mod 10)) EmptyString).

(** [{ $regex: `^${hh}:` }] *)
Definition time_in_hour (h : Z) (time : string) : bool :=
  String.prefix (pad2 h ++ ":") time.

(** [Date.prototype.getUTCDay]; the epoch fell on a Thursday. *)
Definition getUTCDay (at_ : Z) : Z := (at_ / day_ms + 4) mod 7.

Definition batchSize : nat := 100.

(** [.populate('user')] *)
Definition populate (accounts : list account) (p : Preferences.t)
    : option account :=
  List.find (fun a => acc_id a =? Preferences.user p) accounts.

(** The [for ... of] loop of a scan: the users in order, each run on the
    collection the previous run left; the digests handed to the transport
    are collected in order. *)
Fixpoint run_batch (tr : mailer) (at_ : Z) (frequency : string)
    (users : list (option account)) (coll : list Notification.t)
    : list Notification.t * list (mail * bool) :=
  match users with
  | [] => (coll, [])
  | u :: rest =>
      let '(coll1, sent) := sendDigestForUser tr coll at_ at_ u frequency in
      let '(coll2, more) := run_batch tr at_ frequency rest coll1 in
      (coll2, match sent with Some d => d :: more | None => more end)
  end.

(** One hourly tick of the daily job; the clock readings of the tick are
    taken as the one instant [at_]. *)
Definition processDailyDigests (tr : mailer) (prefs : list Preferences.t)
    (accounts : list account) (coll : list Notification.t) (at_ : Z)
    : list Notification.t * list (mail * bool) :=
  let currentHour := Js.getUTCHours at_ in
  let matched :=
    List.filter
      (fun p =>
         String.eqb (Preferences.frequency (Preferences.digest p)) "daily"
         && time_in_hour currentHour (Preferences.time (Preferences.digest p)))
      prefs in
  run_batch tr at_ "daily" (map (populate accounts) (take batchSize matched)) coll.

Definition processWeeklyDigests (tr : mailer) (prefs : list Preferences.t)
    (accounts : list account) (coll : list Notification.t) (at_ : Z)
    : list Notification.t * list (mail * bool) :=
  let currentHour := Js.getUTCHours at_ in
  let currentDay := getUTCDay at_ in
  let matched :=
    List.filter
      (fun p =>
         String.eqb (Preferences.frequency (Preferences.digest p)) "weekly"
         && (Preferences.dayOfWeek (Preferences.digest p) =? currentDay)
         && time_in_hour currentHour (Preferences.time (Preferences.digest p)))
      prefs in
  run_batch tr at_ "weekly" (map (populate accounts) (take batchSize matched)) coll.

End DigestScheduler.

(** ** Notification controller: updatePreferences *)

Module Controller.

Import Preferences.

(** The sub-objects of a request body; an absent key is [None]. *)
Record digest_update : Type := DigestUpdate {
  du_frequency : option string;
  du_time : option string;
  du_dayOfWeek : option Z
}.

Record quiet_update : Type := QuietUpdate {
  qu_enabled : option bool;
  qu_startTime : option string;
  qu_endTime : option string;
  qu_timezone : option string
}.

(** [req.body] of PUT /api/notifications/preferences. *)
Record updates : Type := Updates {
  up_channels : option (gmap string channel_settings);
  up_categories : option (gmap string (gmap string bool));
  up_digest : option digest_update;
  up_quietHours : option quiet_update
}.

(** [Object.assign(target, source)] on objects used as maps: every key of
    [source] is written over [target], with the whole value it has in
    [source]. *)
Definition Object_assign {V : Type} (target source : gmap string V)
    : gmap string V :=
  source ∪ target.

Definition assign_digest (target : digest_settings) (source : digest_update)
    : digest_settings :=
  DigestSettings (default (frequency target) (du_frequency source))
                 (default (time target) (du_time source))
                 (default (dayOfWeek target) (du_dayOfWeek source)).

Definition assign_quietHours (target : quiet_hours) (source : quiet_update)
    : quiet_hours :=
  QuietHours (default (qh_enabled target) (qu_enabled source))
             (default (startTime target) (qu_startTime source))
             (default (endTime target) (qu_endTime source))
             (default (timezone target) (qu_timezone source)).

(** The four guarded [Object.assign] lines. *)
Definition merge (p : Preferences.t) (u : updates) : Preferences.t :=
  {| _id := _id p;
     user := user p;
     channels :=
       match up_channels u with
       | Some c => Object_assign (channels p) c
       | None => channels p
       end;
     categories :=
       match up_categories u with
       | Some c => Object_assign (categories p) c
       | None => categories p
       end;
     digest :=
       match up_digest u with
       | Some d => assign_digest (digest p) d
       | None => digest p
       end;
     pushSubscriptions := pushSubscriptions p;
     quietHours :=
       match up_quietHours u with
       | Some q => assign_quietHours (quietHours p) q
       | None => quietHours p
       end |}.

Definition frequency_enum : list string := ["daily"; "weekly"; "never"].

(** Schema validation run by [preferences.save()]. *)
Definition valid (p : Preferences.t) : bool :=
  existsb (String.eqb (frequency (digest p))) frequency_enum.

(** [save()] of a loaded document writes it back in place. *)
Fixpoint replace_doc (p : Preferences.t) (coll : list Preferences.t)
    : list Preferences.t :=
  match coll with
  | [] => []
  | d :: rest =>
      if _id d =? _id p then p :: rest else d :: replace_doc p rest
  end.

(** The handler: the collection afterwards and the document sent back
    ([None] is the 500 response).  [fresh] is the [_id] given to a document
    created here. *)
Definition updatePreferences (coll : list Preferences.t) (fresh : Z)
    (userId : Z) (u : updates) : list Preferences.t * option Preferences.t :=
  match List.find (fun d => user d =? userId) coll with
  | Some found =>
      let p := merge found u in
      if valid p then (replace_doc p coll, Some p) else (coll, None)
  | None =>
      let p := merge (defaults fresh userId) u in
      if valid p then ((coll ++ [p])%list, Some p) else (coll, None)
  end.

End Controller.

(** ** The life of one record *)

Module Lifecycle.

(** The writes the core makes to a stored record: the recipient's read and
    click, a channel settling, the dispatcher's digest flag, the digest
    scheduler's batch update. *)
Inductive action : Type :=
| MarkAsRead (at_ : Z)
| MarkAsClicked (t_click t_read : Z)
| MarkChannelDelivered (channel : string) (at_ : Z)
| SetIncludeInDigest (b : bool)
| DigestDelivered (at_ : Z).

Definition apply (n : Notification.t) (a : action) : Notification.t :=
  match a with
  | MarkAsRead at_ => Notification.markAsRead at_ n
  | MarkAsClicked t_click t_read => Notification.markAsClicked t_click t_read n
  | MarkChannelDelivered channel at_ =>
      Notification.markChannelDelivered channel at_ n
  | SetIncludeInDigest b => Notification.set_includeInDigest b n
  | DigestDelivered at_ => Notification.set_email_delivered at_ n
  end.

Definition run (n : Notification.t) (actions : list action) : Notification.t :=
  fold_left apply actions n.

End Lifecycle.

(** ** Histories of the notification collection *)

Module History.

Import DigestScheduler.

(** The writes that reach the notification collection: a dispatch, a write
    to the record with a given [_id] (read, click, a channel settling), the
    recipient's hard delete, mark-all-read, and one digest run. *)
Inductive event : Type :=
| Dispatch (env : Dispatcher.environment) (recipientId : Z)
           (pl : Dispatcher.payload)
| Write (id : Z) (a : Lifecycle.action)
| Delete (id : Z)
| MarkAllRead (at_ : Z) (userId : Z) (category : option string)
| Digest (tr : mailer) (at_ marked_at : Z) (user : option account)
         (frequency : string).

Definition with_notifications (st : Dispatcher.store)
    (coll : list Notification.t) : Dispatcher.store :=
  Dispatcher.Store (Dispatcher.preferences st) coll (Dispatcher.next_id st).

(** One event: the store afterwards and, for a digest run, what was handed
    to the e-mail transport and whether it was sent. *)
Definition step (st : Dispatcher.store) (e : event)
    : Dispatcher.store * option (mail * bool) :=
  match e with
  | Dispatch env recipientId pl =>
      (Dispatcher.after (Dispatcher.send st env recipientId pl), None)
  | Write id a =>
      (with_notifications st
         (map (fun n => if Notification._id n =? id
                        then Lifecycle.apply n a else n)
              (Dispatcher.notifications st)), None)
  | Delete id =>
      (with_notifications st
         (List.filter (fun n => negb (Notification._id n =? id))
                      (Dispatcher.notifications st)), None)
  | MarkAllRead at_ userId category =>
      (with_notifications st
         (Notification.markAllRead (Dispatcher.notifications st) at_ userId
                                   category), None)
  | Digest tr at_ marked_at user frequency =>
      let '(coll, sent) :=
        sendDigestForUser tr (Dispatcher.notifications st) at_ marked_at user
                          frequency in
      (with_notifications st coll, sent)
  end.

Fixpoint run (st : Dispatcher.store) (events : list event)
    : Dispatcher.store * list (mail * bool) :=
  match events with
  | [] => (st, [])
  | e :: rest =>
      let '(st1, sent) := step st e in
      let '(st2, more) := run st1 rest in
      (st2, match sent with Some d => d :: more | None => more end)
  end.

(** The [_id]s of the records of each digest that was sent, in order. *)
Fixpoint sent_ids (digests : list (mail * bool)) : list (list Z) :=
  match digests with
  | [] => []
  | (m, true) :: rest => map Notification._id (items m) :: sent_ids rest
  | (_, false) :: rest => sent_ids rest
  end.

Definition disjoint (a b : list Z) : Prop :=
  forall x : Z, In x a -> ~ In x b.

(** Every stored [_id] was drawn from the counter. *)
Definition well_formed (st : Dispatcher.store) : Prop :=
  forall n, In n (Dispatcher.notifications st) ->
            Notification._id n < Dispatcher.next_id st.

(** What the ids in [D] have in common: they were drawn from the counter
    and every stored record carrying one is marked delivered. *)
Definition settled (st : Dispatcher.store) (D : list Z) : Prop :=
  well_formed st
  /\ (forall x, In x D -> x < Dispatcher.next_id st)
  /\ (forall n, In n (Dispatcher.notifications st) ->
                In (Notification._id n) D ->
                Notification.email_delivered
                  (Notification.email (Notification.channels n)) = true).

End History.

(** ** Sample documents *)

Module Examples.

Definition alice : Z := 7.

(** A like received at 08:00 UTC on the first day of the epoch, not yet
    read. *)
Definition like_at_eight : Notification.t :=
  Dispatcher.new_notification 1 (8 * 3600000) alice
    (Dispatcher.Payload (Some 9) "like" None "New like" "Bob liked your post"
                        None None None None None).

(** The same record with an expiry that has passed at time 200. *)
Definition expired_like : Notification.t :=
  Dispatcher.new_notification 2 50 alice
    (Dispatcher.Payload (Some 9) "like" None "New like" "Bob liked your post"
                        None None None (Some 100) None).

(** Alice's preferences: the defaults, with an e-mail address override. *)
Definition alice_preferences : Preferences.t :=
  {| Preferences._id := 11;
     Preferences.user := alice;
     Preferences.channels :=
       <["email" := Preferences.ChannelSettings (Some true) (Some "alice@campus.example") None]>
         (Preferences.channels (Preferences.defaults 11 alice));
     Preferences.categories := Preferences.categories (Preferences.defaults 11 alice);
     Preferences.digest := Preferences.digest (Preferences.defaults 11 alice);
     Preferences.pushSubscriptions :=
       [Preferences.PushSubscription "https://push.example/a" "k1" "a1"];
     Preferences.quietHours := Preferences.QuietHours true "22:00" "08:00" "UTC" |}.

(** The body the settings page sends when the e-mail switch is turned
    off: [{ channels: { email: { enabled: false } } }]. *)
Definition email_off : Controller.updates :=
  Controller.Updates
    (Some {["email" := Preferences.ChannelSettings (Some false) None None]})
    None None None.

(** Three registered devices; the push service has dropped the second. *)
Definition laptop : Preferences.push_subscription :=
  Preferences.PushSubscription "https://push.example/a" "k1" "a1".
Definition old_phone : Preferences.push_subscription :=
  Preferences.PushSubscription "https://push.example/b" "k2" "a2".
Definition tablet : Preferences.push_subscription :=
  Preferences.PushSubscription "https://push.example/c" "k3" "a3".

Definition three_devices : Preferences.t :=
  {| Preferences._id := 11;
     Preferences.user := alice;
     Preferences.channels := Preferences.channels alice_preferences;
     Preferences.categories := Preferences.categories alice_preferences;
     Preferences.digest := Preferences.digest alice_preferences;
     Preferences.pushSubscriptions := [laptop; old_phone; tablet];
     Preferences.quietHours := Preferences.quietHours alice_preferences |}.

Definition second_is_gone : PushService.transport :=
  fun i _ => if Nat.eqb i 1 then PushService.Rejected (Some 410)
             else PushService.Accepted.

Definition all_accepted : PushService.transport :=
  fun _ _ => PushService.Accepted.

(** Both VAPID keys set; only the public one set. *)
Definition vapid_env : gmap string string :=
  <["VAPID_PUBLIC_KEY" := "BPublic"]> (<["VAPID_PRIVATE_KEY" := "secret"]> ∅).

Definition half_env : gmap string string :=
  <["VAPID_PUBLIC_KEY" := "BPublic"]> ∅.

(** An urgent security alert, and the store holding Alice's preferences. *)
Definition urgent_alert : Dispatcher.payload :=
  Dispatcher.Payload None "system" None "Security alert" "New sign-in"
                     None (Some "urgent") None None None.

Definition alice_store : Dispatcher.store :=
  Dispatcher.Store [alice_preferences] [] 20.

(** 23:00 UTC on the first day of the epoch, Alice online. *)
Definition late_evening : Dispatcher.environment :=
  Dispatcher.Environment (23 * 3600000) (fun _ => true).

(** The same instant with nobody online. *)
Definition nobody_online : Dispatcher.environment :=
  Dispatcher.Environment (23 * 3600000) (fun _ => false).

(** Noon UTC of that day, outside Alice's quiet hours, nobody online. *)
Definition noon : Dispatcher.environment :=
  Dispatcher.Environment (12 * 3600000) (fun _ => false).

(** A like from Bob, of normal priority. *)
Definition new_like : Dispatcher.payload :=
  Dispatcher.Payload (Some 9) "like" None "New like" "Bob liked your post"
                     None None None None None.

Definition alice_account : DigestScheduler.account :=
  DigestScheduler.Account alice (Some "alice@campus.example").

Definition nine_o_clock : Z := 9 * 3600000.

Definition mail_down : DigestScheduler.mailer := fun _ => false.
Definition mail_up : DigestScheduler.mailer := fun _ => true.

End Examples.

(** ** Notification controller: the handlers on single records *)

Module Handlers.

(** [Notification.findOne({ _id: id, recipient: userId })] *)
Definition findOne (coll : list Notification.t) (id userId : Z)
    : option Notification.t :=
  List.find (fun n => (Notification._id n =? id)
                      && (Notification.recipient n =? userId)) coll.

(** [save()] of a loaded record: the stored document with its [_id] is
    written. *)
Fixpoint save (n : Notification.t) (coll : list Notification.t)
    : list Notification.t :=
  match coll with
  | [] => []
  | d :: rest =>
      if Notification._id d =? Notification._id n then n :: rest
      else d :: save n rest
  end.

(** PUT /api/notifications/:id/read.  [None] is the 404 reply. *)
Definition markRead (coll : list Notification.t) (now : Z) (id userId : Z)
    : list Notification.t * option Notification.t :=
  match findOne coll id userId with
  | None => (coll, None)
  | Some notification =>
      let n := Notification.markAsRead now notification in
      (save n coll, Some n)
  end.

(** PUT /api/notifications/:id/click.  The reply is [{ success: true }]
    whether or not the record was found. *)
Definition trackClick (coll : list Notification.t) (t_click t_read : Z)
    (id userId : Z) : list Notification.t :=
  match findOne coll id userId with
  | Some notification =>
      save (Notification.markAsClicked t_click t_read notification) coll
  | None => coll
  end.

(** [Notification.deleteOne({ _id: id, recipient: userId })]: the first
    matching document is removed. *)
Fixpoint deleteOne (id userId : Z) (coll : list Notification.t)
    : list Notification.t :=
  match coll with
  | [] => []
  | d :: rest =>
      if (Notification._id d =? id) && (Notification.recipient d =? userId)
      then rest
      else d :: deleteOne id userId rest
  end.

(** DELETE /api/notifications/:id *)
Definition deleteNotification (coll : list Notification.t) (id userId : Z)
    : list Notification.t :=
  deleteOne id userId coll.

(** PUT /api/notifications/read-all *)
Definition markAllRead (coll : list Notification.t) (now : Z) (userId : Z)
    (category : option string) : list Notification.t :=
  Notification.markAllRead coll now userId category.

End Handlers.

(** ** Notification controller: preferences and push subscriptions *)

Module Subscriptions.

Import Preferences.

(** [req.body] of POST /api/notifications/push/subscribe; [keys], when
    present, carries both strings. *)
Record body : Type := Body {
  b_endpoint : option string;
  b_keys : option (string * string)
}.

(** GET /api/notifications/preferences: [findOne({ user })], else
    [create({ user })].  [fresh] is the [_id] of a created document. *)
Definition getPreferences (coll : list Preferences.t) (fresh : Z) (userId : Z)
    : list Preferences.t * Preferences.t :=
  match List.find (fun d => user d =? userId) coll with
  | Some preferences => (coll, preferences)
  | None =>
      let preferences := defaults fresh userId in
      ((coll ++ [preferences])%list, preferences)
  end.

Definition with_subscriptions (p : Preferences.t)
    (subs : list push_subscription) : Preferences.t :=
  {| _id := _id p; user := user p; channels := channels p;
     categories := categories p; digest := digest p;
     pushSubscriptions := subs; quietHours := quietHours p |}.

(** POST /api/notifications/push/subscribe: the collection afterwards and
    the HTTP status. *)
Definition subscribePush (coll : list Preferences.t) (fresh : Z) (userId : Z)
    (subscription : body) : list Preferences.t * Z :=
  match b_endpoint subscription, b_keys subscription with
  | Some e, Some (p256dh, auth) =>
      if String.eqb e "" then (coll, 400)
      else
        let s := PushSubscription e p256dh auth in
        match List.find (fun d => user d =? userId) coll with
        | None =>
            ((coll ++ [with_subscriptions (defaults fresh userId) [s]])%list,
             200)
        | Some preferences =>
            let exists_ :=
              existsb (fun s' => String.eqb (endpoint s') e)
                      (pushSubscriptions preferences) in
            if negb exists_ then
              let p := with_subscriptions preferences
                         (pushSubscriptions preferences ++ [s]) in
              if Controller.valid p
              then (Controller.replace_doc p coll, 200)
              else (coll, 500)
            else (coll, 200)
        end
  | _, _ => (coll, 400)
  end.

(** POST /api/notifications/push/unsubscribe:
    [updateOne({ user }, { $pull: { pushSubscriptions: { endpoint } } })] *)
Definition unsubscribePush (coll : list Preferences.t) (userId : Z)
    (e : string) : list Preferences.t :=
  PushService.updateOne (fun d => user d =? userId)
                        (PushService.pull_endpoints [e]) coll.

(** The endpoints registered for a user, for stating properties. *)
Definition endpoints_of (coll : list Preferences.t) (userId : Z) : list string :=
  match List.find (fun d => user d =? userId) coll with
  | Some p => map endpoint (pushSubscriptions p)
  | None => []
  end.

End Subscriptions.

(** ** NotificationDispatcher: the push fan-out started by [send] *)

Module PushSettle.

(** [sendPush]: the result of [pushService.sendToUser]. *)
Definition sendPush (svc : PushService.service) (tr : PushService.transport)
    (coll : list Preferences.t) (prefs : Preferences.t) : PushService.sent :=
  PushService.sendToUser svc tr coll prefs.

(** The [.then] callback of step 6, run at [at_] on the record [send]
    built. *)
Definition settled (at_ : Z) (status : PushService.send_result)
    (n : Notification.t) : Notification.t :=
  if PushService.success status
  then Notification.markChannelDelivered "push" at_ n
  else n.

(** When the fan-out completes, seen from the save of the record that
    [send] left running: before that save has read the document, while
    it writes, or after it has finished. *)
Inductive moment : Type :=
| BeforeSave
| DuringSave
| AfterSave.

(** Whether the mark the callback sets reaches the stored record.  A save
    that has not read the document yet carries the mark along; once the
    save has finished, the [save()] of the callback writes it; in between
    that [save()] is refused with a ParallelSaveError, nobody handles the
    rejection, and the mark stays in memory. *)
Definition reaches_store (when : moment) : bool :=
  match when with
  | DuringSave => false
  | _ => true
  end.

(** A dispatch followed by the completion of its push fan-out: the record
    as it is stored in the end ([None] when no save passed the
    validation), and the preference collection after pruning. *)
Definition dispatch (svc : PushService.service) (tr : PushService.transport)
    (st : Dispatcher.store) (env : Dispatcher.environment) (when : moment)
    (settled_at : Z) (recipientId : Z) (pl : Dispatcher.payload)
    : option Notification.t * list Preferences.t :=
  let sent := Dispatcher.send st env recipientId pl in
  let prefs := fst (Dispatcher.load_preferences st recipientId) in
  let stored := Dispatcher.preferences (Dispatcher.after sent) in
  if Dispatcher.push_started (Dispatcher.done_ sent) then
    let out := sendPush svc tr stored prefs in
    (match Dispatcher.saved sent with
     | Some n =>
         Some (if reaches_store when
               then settled settled_at (PushService.result out) n
               else n)
     | None => None
     end,
     PushService.stored out)
  else (Dispatcher.saved sent, stored).

End PushSettle.

(** ** EmailDigestService: grouping *)

Module DigestGroups.

Record groups : Type := Groups {
  social : list Notification.t;
  content : list Notification.t;
  system : list Notification.t
}.

Definition includes (l : list string) (s : string) : bool :=
  existsb (String.eqb s) l.

Definition social_types : list string :=
  ["like"; "comment"; "follow"; "mention"; "reply"].

Definition content_types : list string := ["post"; "content"; "video"].

(** The body of the [forEach]: one [push]. *)
Definition place (g : groups) (n : Notification.t) : groups :=
  if includes social_types (Notification.type n)
  then Groups (social g ++ [n]) (content g) (system g)
  else if includes content_types (Notification.type n)
  then Groups (social g) (content g ++ [n]) (system g)
  else Groups (social g) (content g) (system g ++ [n]).

Definition groupNotifications (notifications : list Notification.t) : groups :=
  fold_left place notifications (Groups [] [] []).

End DigestGroups.

(** ** CircuitBreaker (first part of backend/circuitBreaker.js)

    Requests are taken one at a time: a call of [execute] runs from its
    permission check to the handling of its outcome before the next call
    starts. *)

Module CircuitBreaker.

Inductive CIRCUIT_STATE : Type := CLOSED | OPEN | HALF_OPEN.

Record config : Type := Config {
  failureThreshold : Z;
  successThreshold : Z;
  timeout : Z;
  cooldownPeriod : Z;
  monitoringPeriod : Z
}.

Definition DEFAULT_CONFIG : config := Config 5 2 5000 10000 60000.

(** The [config] argument: the keys it carries. *)
Record overrides : Type := Overrides {
  o_failureThreshold : option Z;
  o_successThreshold : option Z;
  o_timeout : option Z;
  o_cooldownPeriod : option Z;
  o_monitoringPeriod : option Z
}.

Definition no_overrides : overrides := Overrides None None None None None.

(** [{ ...DEFAULT_CONFIG, ...config }] *)
Definition spread (o : overrides) : config :=
  Config (default (failureThreshold DEFAULT_CONFIG) (o_failureThreshold o))
         (default (successThreshold DEFAULT_CONFIG) (o_successThreshold o))
         (default (timeout DEFAULT_CONFIG) (o_timeout o))
         (default (cooldownPeriod DEFAULT_CONFIG) (o_cooldownPeriod o))
         (default (monitoringPeriod DEFAULT_CONFIG) (o_monitoringPeriod o)).

(** The errors a request ends with. *)
Inductive error : Type :=
| CircuitOpen (service : string)
| Timeout (ms : Z) (service : string)
| ActionError (message : string).

(** What the listeners of the breaker are told. *)
Inductive event : Type :=
| Opened (service : string)
| HalfOpened (service : string)
| Closed (service : string)
| Failure (service : string) (e : error) (state : CIRCUIT_STATE)
| Success (service : string).

Record metrics : Type := Metrics {
  totalRequests : Z;
  failedRequests : Z;
  successfulRequests : Z;
  shortCircuitedRequests : Z
}.

Record t : Type := Breaker {
  serviceName : string;
  cfg : config;
  state : CIRCUIT_STATE;
  failureCount : Z;
  successCount : Z;
  lastFailureTime : option Z;
  nextAttemptTime : option Z;
  stats : metrics;
  emitted : list event
}.

Definition create (serviceName : string) (o : overrides) : t :=
  Breaker serviceName (spread o) CLOSED 0 0 None None (Metrics 0 0 0 0) [].

(** The callback of [_startMetricsResetTimer]. *)
Definition reset_metrics (b : t) : t :=
  Breaker (serviceName b) (cfg b) (state b) (failureCount b) (successCount b)
          (lastFailureTime b) (nextAttemptTime b) (Metrics 0 0 0 0) (emitted b).

Definition with_stats (b : t) (m : metrics) : t :=
  Breaker (serviceName b) (cfg b) (state b) (failureCount b) (successCount b)
          (lastFailureTime b) (nextAttemptTime b) m (emitted b).

Definition emit (b : t) (e : event) : t :=
  Breaker (serviceName b) (cfg b) (state b) (failureCount b) (successCount b)
          (lastFailureTime b) (nextAttemptTime b) (stats b)
          (emitted b ++ [e]).

Definition _transitionToOpen (now : Z) (b : t) : t :=
  emit (Breaker (serviceName b) (cfg b) OPEN (failureCount b) (successCount b)
                (lastFailureTime b) (Some (now + cooldownPeriod (cfg b)))
                (stats b) (emitted b))
       (Opened (serviceName b)).

Definition _transitionToHalfOpen (b : t) : t :=
  emit (Breaker (serviceName b) (cfg b) HALF_OPEN (failureCount b) 0
                (lastFailureTime b) (nextAttemptTime b) (stats b) (emitted b))
       (HalfOpened (serviceName b)).

Definition _transitionToClosed (b : t) : t :=
  emit (Breaker (serviceName b) (cfg b) CLOSED 0 0
                (lastFailureTime b) (nextAttemptTime b) (stats b) (emitted b))
       (Closed (serviceName b)).

(** [Date.now() > this.nextAttemptTime]; [null] compares as 0. *)
Definition after_cooldown (now : Z) (b : t) : bool :=
  default 0 (nextAttemptTime b) <? now.

Definition _canRequestProceed (now : Z) (b : t) : t * bool :=
  match state b with
  | CLOSED => (b, true)
  | OPEN =>
      if after_cooldown now b then (_transitionToHalfOpen b, true)
      else (b, false)
  | HALF_OPEN => (b, true)
  end.

Definition is_HALF_OPEN (s : CIRCUIT_STATE) : bool :=
  match s with HALF_OPEN => true | _ => false end.

(** [t_fail] and [t_open] are the two clock readings of a failure:
    [lastFailureTime], then the start of the cool-down. *)
Definition _handleFailure (t_fail t_open : Z) (err : error) (b : t) : t :=
  let m := stats b in
  let b1 :=
    Breaker (serviceName b) (cfg b) (state b) (failureCount b + 1)
            (successCount b) (Some t_fail) (nextAttemptTime b)
            (Metrics (totalRequests m) (failedRequests m + 1)
                     (successfulRequests m) (shortCircuitedRequests m))
            (emitted b) in
  let b2 :=
    if is_HALF_OPEN (state b1)
       || (failureThreshold (cfg b1) <=? failureCount b1)
    then _transitionToOpen t_open b1
    else b1 in
  emit b2 (Failure (serviceName b2) err (state b2)).

Definition _handleSuccess (b : t) : t :=
  let m := stats b in
  let b1 :=
    with_stats b (Metrics (totalRequests m) (failedRequests m)
                          (successfulRequests m + 1)
                          (shortCircuitedRequests m)) in
  let b2 :=
    if is_HALF_OPEN (state b1) then
      let b' :=
        Breaker (serviceName b1) (cfg b1) (state b1) (failureCount b1)
                (successCount b1 + 1) (lastFailureTime b1)
                (nextAttemptTime b1) (stats b1) (emitted b1) in
      if successThreshold (cfg b') <=? successCount b'
      then _transitionToClosed b'
      else b'
    else
      Breaker (serviceName b1) (cfg b1) (state b1) 0 (successCount b1)
              (lastFailureTime b1) (nextAttemptTime b1) (stats b1)
              (emitted b1) in
  emit b2 (Success (serviceName b2)).

(** How the protected action ends when it is run: it resolves, it rejects,
    or the timer of [_executeWithTimeout] fires first. *)
Inductive settled : Type :=
| Resolves (value : string)
| Rejects (message : string)
| Outlasts.

Definition _executeWithTimeout (b : t) (action : settled) : string + error :=
  match action with
  | Resolves v => inl v
  | Rejects message => inr (ActionError message)
  | Outlasts => inr (Timeout (timeout (cfg b)) (serviceName b))
  end.

(** What [execute] resolves or rejects with. *)
Inductive response : Type :=
| Return (value : string)
| Throw (e : error).

Definition fallback : Type := option (error -> response).

Definition or_throw (fb : fallback) (e : error) : response :=
  match fb with
  | Some f => f e
  | None => Throw e
  end.

(** One request: the three clock readings it may take and how its action
    would end. *)
Record request : Type := Request {
  t_check : Z;
  t_fail : Z;
  t_open : Z;
  action : settled;
  fb : fallback
}.

Record executed : Type := Executed {
  breaker : t;
  answer : response;
  ran : bool
}.

Definition execute (r : request) (b : t) : executed :=
  let m := stats b in
  let b0 :=
    with_stats b (Metrics (totalRequests m + 1) (failedRequests m)
                          (successfulRequests m) (shortCircuitedRequests m)) in
  let '(b1, proceed) := _canRequestProceed (t_check r) b0 in
  if negb proceed then
    let m1 := stats b1 in
    let b2 :=
      with_stats b1 (Metrics (totalRequests m1) (failedRequests m1)
                             (successfulRequests m1)
                             (shortCircuitedRequests m1 + 1)) in
    Executed b2 (or_throw (fb r) (CircuitOpen (serviceName b2))) false
  else
    match _executeWithTimeout b1 (action r) with
    | inl v => Executed (_handleSuccess b1) (Return v) true
    | inr err =>
        Executed (_handleFailure (t_fail r) (t_open r) err b1)
                 (or_throw (fb r) err) true
    end.

(** [getState()] *)
Record snapshot : Type := Snapshot {
  s_service : string;
  s_state : CIRCUIT_STATE;
  s_failures : Z;
  s_successes : Z;
  s_metrics : metrics
}.

Definition getState (b : t) : snapshot :=
  Snapshot (serviceName b) (state b) (failureCount b) (successCount b) (stats b).

(** *** The registry *)

(** [getCircuit]: the registry afterwards and the breaker returned. *)
Definition getCircuit (registry : gmap string t) (serviceName : string)
    (o : overrides) : gmap string t * t :=
  match registry !! serviceName with
  | Some b => (registry, b)
  | None =>
      let b := create serviceName o in
      (<[serviceName := b]> registry, b)
  end.

(** [callService]: the breaker of the registry is the one that runs the
    request; without [options.fallback] the error is rethrown. *)
Definition callService (registry : gmap string t) (serviceName : string)
    (o : overrides) (r : request) : gmap string t * response :=
  let '(registry1, circuit) := getCircuit registry serviceName o in
  let r' :=
    Request (t_check r) (t_fail r) (t_open r) (action r)
            (Some (default Throw (fb r))) in
  let out := execute r' circuit in
  (<[serviceName := breaker out]> registry1, answer out).

(** *** Sequences of requests, for stating properties *)

Inductive step : Type :=
| Call (r : request)
| MetricsTimer.

Definition apply (b : t) (s : step) : t :=
  match s with
  | Call r => breaker (execute r b)
  | MetricsTimer => reset_metrics b
  end.

Definition run (b : t) (steps : list step) : t := fold_left apply steps b.

Definition fails (r : request) : bool :=
  match action r with
  | Resolves _ => false
  | _ => true
  end.

(** No [k] failures in a row, counting [streak] failures just before. *)
Fixpoint no_streak (k streak : Z) (requests : list request) : bool :=
  match requests with
  | [] => true
  | r :: rest =>
      if fails r then (streak + 1 <? k) && no_streak k (streak + 1) rest
      else no_streak k 0 rest
  end.

Definition balanced (m : metrics) : Prop :=
  totalRequests m
  = failedRequests m + successfulRequests m + shortCircuitedRequests m.

End CircuitBreaker.

(** ** MFAService (second part of
       backend/services/pushNotificationService.js) *)

Module MFA.

(** The fields of an account the service reads and writes. *)
Record user : Type := User {
  _id : Z;
  twoFactorEnabled : bool;
  twoFactorSecret : option string;
  backupCodes : option (list string)
}.

(** [verifyToken(token, secret)]: what [otplib.authenticator.verify]
    answers at the time of the call, [false] when it throws. *)
Definition verifier : Type := string -> string -> bool.

(** [crypto.randomBytes(4)] of the [i]-th call. *)
Definition random : Type := nat -> Byte.byte * Byte.byte * Byte.byte * Byte.byte.

Definition hex_char (d : N) : ascii :=
  if (d <? 10)%N then ascii_of_N (48 + d) else ascii_of_N (55 + d).

(** [.toString('hex').toUpperCase()] of one byte. *)
Definition hex_byte (b : Byte.byte) : string :=
  let n := Byte.to_N b in
  String (hex_char (n / 16)) (String (hex_char (n mod 16)) EmptyString).

Definition code_of (bytes : Byte.byte * Byte.byte * Byte.byte * Byte.byte)
    : string :=
  let '(b0, b1, b2, b3) := bytes in
  (hex_byte b0 ++ hex_byte b1 ++ hex_byte b2 ++ hex_byte b3)%string.

(** The loop [for (i = 0; i < count; i++)], from call [i] on. *)
Fixpoint codes_from (rnd : random) (i : nat) (count : nat) : list string :=
  match count with
  | O => []
  | S k => code_of (rnd i) :: codes_from rnd (S i) k
  end.

Definition generateBackupCodes (rnd : random) (count : Z) : list string :=
  codes_from rnd 0%nat (Z.to_nat count).

(** [User.findByIdAndUpdate(id, change)] *)
Fixpoint findByIdAndUpdate (id : Z) (change : user -> user) (db : list user)
    : list user :=
  match db with
  | [] => []
  | u :: rest =>
      if _id u =? id then change u :: rest
      else u :: findByIdAndUpdate id change rest
  end.

(** [enableMFA]: [None] is the thrown 'Invalid OTP token'. *)
Definition enableMFA (verify : verifier) (rnd : random) (db : list user)
    (userId : Z) (secret token : string) : list user * option (list string) :=
  let isValid := verify token secret in
  if negb isValid then (db, None)
  else
    let codes := generateBackupCodes rnd 10 in
    (findByIdAndUpdate userId
       (fun u => User (_id u) true (Some secret) (Some codes)) db,
     Some codes).

(** [{ $pull: { backupCodes: token } }] *)
Definition pull_code (token : string) (u : user) : user :=
  User (_id u) (twoFactorEnabled u) (twoFactorSecret u)
       (option_map (List.filter (fun c => negb (String.eqb c token)))
                   (backupCodes u)).

(** [authenticate(user, token)] on a loaded account. *)
Definition authenticate (verify : verifier) (db : list user) (u : user)
    (token : string) : list user * bool :=
  match twoFactorEnabled u, twoFactorSecret u with
  | true, Some secret =>
      if String.eqb secret "" then (db, true)
      else if verify token secret then (db, true)
      else
        match backupCodes u with
        | Some codes =>
            if existsb (String.eqb token) codes
            then (findByIdAndUpdate (_id u) (pull_code token) db, true)
            else (db, false)
        | None => (db, false)
        end
  | _, _ => (db, true)
  end.

(** [User.findById] *)
Definition findById (db : list user) (id : Z) : option user :=
  List.find (fun u => _id u =? id) db.

(** A character of [0-9A-F], and a backup code as the comment on
    [generateBackupCodes] has it: eight of them. *)
Definition upper_hex (c : ascii) : bool :=
  let n := N_of_ascii c in
  ((48 <=? n) && (n <=? 57) || (65 <=? n) && (n <=? 70))%N.

Definition eight_hex (code : string) : bool :=
  (String.length code =? 8)%nat
  && forallb upper_hex (list_ascii_of_string code).

End MFA.

(** ** NotificationContext: the client's list and unread counter *)

Module Client.

(** The two pieces of state the handlers below write. *)
Record state : Type := State {
  notifications : list Notification.t;
  unreadCount : Z
}.

(** [{ ...n, read: true }] *)
Definition as_read (n : Notification.t) : Notification.t :=
  Notification.assign n (Notification.channels n) (Notification.status n)
                      true (Notification.readAt n) (Notification.clicked n)
                      (Notification.clickedAt n).

(** The socket listener for 'notification:new'. *)
Definition handleNewNotification (n : Notification.t) (s : state) : state :=
  State (n :: notifications s) (unreadCount s + 1).

(** [fetchNotifications] once the reply is in: [page] is [options.page],
    the rest is the reply. *)
Definition fetched (page : option Z) (received : list Notification.t)
    (count : Z) (s : state) : state :=
  State (if (1 <? default 0 page) then (notifications s ++ received)%list
         else received)
        count.

(** The optimistic update of [markAsRead]. *)
Definition markAsRead (id : Z) (s : state) : state :=
  State (map (fun n => if Notification._id n =? id then as_read n else n)
             (notifications s))
        (Z.max 0 (unreadCount s - 1)).

(** The optimistic update of [markAllAsRead]. *)
Definition markAllAsRead (s : state) : state :=
  State (map as_read (notifications s)) 0.

(** The local update of [deleteNotification]. *)
Definition deleteNotification (id : Z) (s : state) : state :=
  State (List.filter (fun n => negb (Notification._id n =? id))
                     (notifications s))
        (unreadCount s).

(** What happens to the provider over time: a socket message, the reply
    to a fetch, or one of the user's actions. *)
Inductive event : Type :=
| NewNotification (n : Notification.t)
| Fetched (page : option Z) (received : list Notification.t) (count : Z)
| MarkAsRead (id : Z)
| MarkAllAsRead
| DeleteNotification (id : Z).

Definition apply (s : state) (e : event) : state :=
  match e with
  | NewNotification n => handleNewNotification n s
  | Fetched page received count => fetched page received count s
  | MarkAsRead id => markAsRead id s
  | MarkAllAsRead => markAllAsRead s
  | DeleteNotification id => deleteNotification id s
  end.

Definition run (s : state) (events : list event) : state :=
  fold_left apply events s.

(** [useState([])] and [useState(0)] *)
Definition initial : state := State [] 0.

(** The server reports a count that is not negative. *)
Definition count_ok (e : event) : bool :=
  match e with
  | Fetched _ _ count => 0 <=? count
  | _ => true
  end.

End Client.

(** ** Reading the queries *)

Module Listing.

(** The query of [getUnreadCount] and [markAllRead]. *)
Definition unread_of (userId : Z) (category : option string)
    (n : Notification.t) : bool :=
  (Notification.recipient n =? userId) && negb (Notification.read n)
  && Notification.category_matches category n.

(** The order of [.sort({ createdAt: -1 })]. *)
Definition newest_first (a b : Notification.t) : Prop :=
  Notification.createdAt b <= Notification.createdAt a.

(** What [find(query).sort({ createdAt: -1 })] may answer with: the
    matching documents, newest first.  Among documents of equal
    [createdAt] the order is the database's, and it need not be the same
    from one query to the next. *)
Definition sorted_result (matching result : list Notification.t) : Prop :=
  Permutation result matching /\ StronglySorted newest_first result.

(** The documents [getAll] asks for. *)
Definition matching (coll : list Notification.t) (now userId : Z)
    (category : option string) : list Notification.t :=
  List.filter (fun n => (Notification.recipient n =? userId)
                        && Notification.not_expired now n
                        && Notification.category_matches category n) coll.

(** A page [getAll] may answer with. *)
Definition page (coll : list Notification.t) (now userId : Z)
    (options : Notification.all_options) (p : list Notification.t) : Prop :=
  exists sorted,
    sorted_result (matching coll now userId (Notification.ao_category options))
                  sorted
    /\ p = Notification.limit (default 20 (Notification.ao_limit options))
             (drop (default 0%nat (Notification.ao_skip options)) sorted).

End Listing.

(** ** Reading a record against an earlier one *)

Module Reading.

Import Notification.

(** The fields fixed at creation. *)
Definition same_identity (n m : Notification.t) : Prop :=
  _id m = _id n /\ recipient m = recipient n /\ sender m = sender n
  /\ type m = type n /\ category m = category n /\ title m = title n
  /\ body m = body n /\ priority m = priority n /\ groupKey m = groupKey n
  /\ expiresAt m = expiresAt n /\ tenantId m = tenantId n
  /\ createdAt m = createdAt n.

(** No flag that was set in [n] is cleared in [m]. *)
Definition keeps_flags (n m : Notification.t) : Prop :=
  (read n = true -> read m = true)
  /\ (clicked n = true -> clicked m = true)
  /\ (inApp_delivered (inApp (channels n)) = true ->
      inApp_delivered (inApp (channels m)) = true)
  /\ (push_delivered (push (channels n)) = true ->
      push_delivered (push (channels m)) = true)
  /\ (email_delivered (email (channels n)) = true ->
      email_delivered (email (channels m)) = true).

(** What the status says about the rest of the record. *)
Definition status_sound (n : Notification.t) : Prop :=
  (status n = "pending" \/ status n = "delivered" \/ status n = "read")
  /\ (status n = "read" -> read n = true)
  /\ (status n = "delivered" -> any_delivered (channels n) = true).

End Reading.

(** ** Payloads *)

Module Payloads.

Import Dispatcher.

(** The payloads whose record passes the schema: a type of the enum, a
    category and a priority of their enums when given, a title of 1 to 200
    and a body of 1 to 500 UTF-16 code units, and an entity type of its
    enum when [data] names one. *)
Definition well_formed (pl : payload) : Prop :=
  In (p_type pl) type_enum
  /\ (forall c, p_category pl = Some c -> c <> "" -> In c category_enum)
  /\ (forall p, p_priority pl = Some p -> p <> "" -> In p priority_enum)
  /\ p_title pl <> "" /\ (Js.length (p_title pl) <= 200)%nat
  /\ p_body pl <> "" /\ (Js.length (p_body pl) <= 500)%nat
  /\ (forall d e, p_data pl = Some d -> entityType d = Some e ->
                  In e entityType_enum).

(** Step 7 sends at once. *)
Definition immediate (prefs : Preferences.t) (pl : payload) : bool :=
  String.eqb (Preferences.frequency (Preferences.digest prefs)) "never"
  || String.eqb (or_else (p_priority pl) "normal") "urgent".

(** The category a record gets. *)
Definition category_for (pl : payload) : string :=
  or_else (p_category pl) (inferCategory (p_type pl)).

(** Step 5 reaches the recipient: [markChannelDelivered('inApp')]. *)
Definition live (prefs : Preferences.t) (env : environment)
    (recipientId : Z) (pl : payload) : bool :=
  Preferences.shouldSend prefs "inApp" (category_for pl)
  && isUserOnline env recipientId.

(** Step 7 marks the e-mail as sent: [markChannelDelivered('email')]. *)
Definition mailed (prefs : Preferences.t) (pl : payload) : bool :=
  Preferences.shouldSend prefs "email" (category_for pl)
  && immediate prefs pl.

(** The record as steps 2 to 7 of [send] leave it. *)
Definition built (st : store) (env : environment) (recipientId : Z)
    (pl : payload) : Notification.t :=
  let prefs := fst (load_preferences st recipientId) in
  let st1 := snd (load_preferences st recipientId) in
  let n0 := new_notification (next_id st1) (now env) recipientId pl in
  let channels :=
    quiet_hours_gate prefs (now env) (Notification.priority n0)
      (decide prefs (Notification.category n0)) in
  deliver_email env prefs channels
    (fst (deliver_inApp env recipientId channels n0)).

End Payloads.

(** * Properties *)

(** ** Preference predicates *)

Section PreferencePredicates.

Import Preferences.

Lemma minutes_since_midnight_range (now : Z) :
  0 <= minutes_since_midnight now < 1440.
Proof.
  unfold minutes_since_midnight, Js.getUTCHours, Js.getUTCMinutes.
  pose proof (Z.mod_pos_bound (now / 3600000) 24 ltac:(lia)).
  pose proof (Z.mod_pos_bound (now / 60000) 60 ltac:(lia)).
  lia.
Qed.

Lemma digit_not_colon (c : ascii) (d : Z) :
  Js.digit_value c = Some d -> Ascii.eqb c ":"%char = false.
Proof.
  intros H. destruct (Ascii.eqb_spec c ":"%char) as [-> |]; [|reflexivity].
  discriminate H.
Qed.

(** A stored "HH:mm" reads as 60 * HH + mm. *)
Lemma minutes_of_HHmm (h1 h2 m1 m2 : ascii) (a b c d : Z) :
  Js.digit_value h1 = Some a -> Js.digit_value h2 = Some b ->
  Js.digit_value m1 = Some c -> Js.digit_value m2 = Some d ->
  Js.minutes_of (String h1 (String h2 (String ":"%char
                   (String m1 (String m2 EmptyString)))))
  = Js.Num ((10 * a + b) * 60 + (10 * c + d)).
Proof.
  intros Ha Hb Hc Hd.
  unfold Js.minutes_of, Js.hour_minute. cbn [Js.split_colon].
  rewrite (digit_not_colon h1 a Ha), (digit_not_colon h2 b Hb),
    (digit_not_colon m1 c Hc), (digit_not_colon m2 d Hd).
  cbn [Ascii.eqb Bool.eqb Js.split_colon map].
  unfold Js.Number. cbn [Js.digits_value].
  rewrite Ha, Hb, Hc, Hd. cbn [Js.mul Js.add]. f_equal.
Qed.

(** With both bounds read as numbers, the predicate is the window test on
    minutes since midnight. *)
Lemma isInQuietHours_numeric (p : Preferences.t) (now s e : Z) :
  qh_enabled (quietHours p) = true ->
  Js.minutes_of (startTime (quietHours p)) = Js.Num s ->
  Js.minutes_of (endTime (quietHours p)) = Js.Num e ->
  isInQuietHours p now =
    let c := minutes_since_midnight now in
    if s <? e then (s <=? c) && (c <? e) else (s <=? c) || (c <? e).
Proof.
  intros Hon Hs He. unfold isInQuietHours.
  rewrite Hon, Hs, He. reflexivity.
Qed.

(** C1. [isInQuietHours] is false when quiet hours are disabled; otherwise,
    with start, end and the clock in minutes since midnight (UTC), it holds
    exactly on the half-open window [start, end) when start < end, and on
    (now >= start or now < end) when start >= end.  From 22:00 to 08:00 it
    holds at 23:00 and 03:00 and not at 12:00; from 09:00 to 17:00 it holds
    at 10:00 and not at 08:59 nor at 17:00. *)
Theorem isInQuietHours_window :
  (forall (p : Preferences.t) (now : Z),
     qh_enabled (quietHours p) = false -> isInQuietHours p now = false)
  /\ (forall (p : Preferences.t) (now s e : Z),
        qh_enabled (quietHours p) = true ->
        Js.minutes_of (startTime (quietHours p)) = Js.Num s ->
        Js.minutes_of (endTime (quietHours p)) = Js.Num e ->
        let c := minutes_since_midnight now in
        isInQuietHours p now = true <->
          (s < e /\ s <= c < e) \/ (s >= e /\ (c >= s \/ c < e)))
  /\ (forall (p : Preferences.t) (now : Z),
        qh_enabled (quietHours p) = true ->
        startTime (quietHours p) = "22:00" ->
        endTime (quietHours p) = "08:00" ->
        (minutes_since_midnight now = 23 * 60 -> isInQuietHours p now = true)
        /\ (minutes_since_midnight now = 3 * 60 -> isInQuietHours p now = true)
        /\ (minutes_since_midnight now = 12 * 60 -> isInQuietHours p now = false))
  /\ (forall (p : Preferences.t) (now : Z),
        qh_enabled (quietHours p) = true ->
        startTime (quietHours p) = "09:00" ->
        endTime (quietHours p) = "17:00" ->
        (minutes_since_midnight now = 10 * 60 -> isInQuietHours p now = true)
        /\ (minutes_since_midnight now = 8 * 60 + 59 -> isInQuietHours p now = false)
        /\ (minutes_since_midnight now = 17 * 60 -> isInQuietHours p now = false)).
Proof.
  split; [|split; [|split]].
  - intros p now Hoff. unfold isInQuietHours. now rewrite Hoff.
  - intros p now s e Hon Hs He c.
    rewrite (isInQuietHours_numeric p now s e Hon Hs He). cbv zeta. fold c.
    destruct (Z.ltb_spec s e).
    + rewrite andb_true_iff, Z.leb_le, Z.ltb_lt. lia.
    + rewrite orb_true_iff, Z.leb_le, Z.ltb_lt. lia.
  - intros p now Hon Hs He.
    assert (Hnum := isInQuietHours_numeric p now (22 * 60) (8 * 60) Hon).
    rewrite Hs, He in Hnum. specialize (Hnum eq_refl eq_refl).
    cbv zeta in Hnum. rewrite Hnum.
    repeat split; intros ->; reflexivity.
  - intros p now Hon Hs He.
    assert (Hnum := isInQuietHours_numeric p now (9 * 60) (17 * 60) Hon).
    rewrite Hs, He in Hnum. specialize (Hnum eq_refl eq_refl).
    cbv zeta in Hnum. rewrite Hnum.
    repeat split; intros ->; reflexivity.
Qed.

(** C2. [shouldSend] is false whenever the master switch of the channel is
    off, whatever the category says; with the master switch on it is the
    category's override for the channel when there is one, and true when
    there is none. *)
Theorem shouldSend_two_levels (p : Preferences.t) (channel category : string) :
  (master_switch p channel = false -> shouldSend p channel category = false)
  /\ (forall c : channel_settings,
        channels p !! channel = Some c -> ch_enabled c = Some false ->
        shouldSend p channel category = false)
  /\ (master_switch p channel = true ->
      forall b : bool,
        category_override p channel category = Some b ->
        shouldSend p channel category = b)
  /\ (master_switch p channel = true ->
      category_override p channel category = None ->
      shouldSend p channel category = true)
  /\ (shouldSend p channel category = true -> master_switch p channel = true).
Proof.
  assert (Hoff : forall c : channel_settings,
            channels p !! channel = Some c -> ch_enabled c = Some false ->
            master_switch p channel = false).
  { intros c Hc He. unfold master_switch. now rewrite Hc, He. }
  unfold shouldSend.
  destruct (master_switch p channel); cbn.
  - repeat split; try discriminate.
    + intros c Hc He. now specialize (Hoff c Hc He).
    + intros _ b ->. reflexivity.
    + intros _ ->. reflexivity.
  - repeat split; try discriminate; auto.
Qed.

End PreferencePredicates.

(** ** Dispatcher *)

Section DispatcherRouting.

Import Dispatcher.

(** The fields the schema validates are fixed at construction. *)
Lemma valid_markChannelDelivered (channel : string) (at_ : Z) (n : Notification.t) :
  valid (Notification.markChannelDelivered channel at_ n) = valid n.
Proof.
  unfold Notification.markChannelDelivered.
  destruct (Notification.set_delivered channel at_ (Notification.channels n));
    [|reflexivity].
  match goal with |- context [if ?c then _ else _] => destruct c end;
    reflexivity.
Qed.

Lemma priority_markChannelDelivered (channel : string) (at_ : Z) (n : Notification.t) :
  Notification.priority (Notification.markChannelDelivered channel at_ n)
  = Notification.priority n.
Proof.
  unfold Notification.markChannelDelivered.
  destruct (Notification.set_delivered channel at_ (Notification.channels n));
    [|reflexivity].
  match goal with |- context [if ?c then _ else _] => destruct c end;
    reflexivity.
Qed.

Lemma email_markChannelDelivered_inApp (at_ : Z) (n : Notification.t) :
  Notification.email (Notification.channels
    (Notification.markChannelDelivered "inApp" at_ n))
  = Notification.email (Notification.channels n).
Proof.
  unfold Notification.markChannelDelivered. cbn.
  match goal with |- context [if ?c then _ else _] => destruct c end;
    reflexivity.
Qed.

Lemma email_markChannelDelivered_email (at_ : Z) (n : Notification.t) :
  Notification.email (Notification.channels
    (Notification.markChannelDelivered "email" at_ n))
  = Notification.Email true (Some at_)
      (Notification.email_error (Notification.email (Notification.channels n)))
      (Notification.includeInDigest (Notification.email (Notification.channels n))).
Proof.
  unfold Notification.markChannelDelivered. cbn.
  match goal with |- context [if ?c then _ else _] => destruct c end;
    reflexivity.
Qed.

Lemma deliver_inApp_keeps (env : environment) (recipientId : Z)
    (channels : decision) (n : Notification.t) :
  let n' := fst (deliver_inApp env recipientId channels n) in
  valid n' = valid n
  /\ Notification.priority n' = Notification.priority n
  /\ Notification.email (Notification.channels n')
     = Notification.email (Notification.channels n).
Proof.
  unfold deliver_inApp.
  destruct (d_inApp channels), (isUserOnline env recipientId); cbn [fst];
    auto using valid_markChannelDelivered, priority_markChannelDelivered,
               email_markChannelDelivered_inApp.
Qed.

Lemma valid_deliver_email (env : environment) (p : Preferences.t)
    (channels : decision) (n : Notification.t) :
  valid (deliver_email env p channels n) = valid n.
Proof.
  unfold deliver_email.
  destruct (d_email channels); [|reflexivity].
  match goal with |- context [if ?c then _ else _] => destruct c end;
    [|reflexivity].
  change (valid (Notification.markChannelDelivered "email" (now env) n) = valid n).
  apply valid_markChannelDelivered.
Qed.

Lemma valid_new_notification (id created recipientId : Z) (pl : payload) :
  valid (new_notification id created recipientId pl)
  && valid_data (p_data pl) = acceptable pl.
Proof. reflexivity. Qed.

(** The record [send] leaves to the save, what it routes on, and who
    saves. *)
Lemma send_unfold (st : store) (env : environment) (recipientId : Z) (pl : payload) :
  let prefs := fst (load_preferences st recipientId) in
  let st1 := snd (load_preferences st recipientId) in
  let n0 := new_notification (next_id st1) (now env) recipientId pl in
  let channels :=
    quiet_hours_gate prefs (now env) (Notification.priority n0)
      (decide prefs (Notification.category n0)) in
  let n1 := deliver_inApp env recipientId channels n0 in
  let n2 := deliver_email env prefs channels (fst n1) in
  let eff := Effects channels (snd n1) (d_push channels) in
  let inserted :=
    Store (preferences st1) (notifications st1 ++ [n2]) (next_id st1 + 1) in
  send st env recipientId pl =
    if snd n1 || email_at_once prefs channels (fst n1) then
      if acceptable pl
      then Dispatched inserted eff (Rejected ParallelSaveError) (Some n2)
      else Dispatched st1 eff (Rejected ParallelSaveError) None
    else
      if acceptable pl
      then Dispatched inserted eff (Resolved n2) (Some n2)
      else Dispatched st1 eff (Rejected ValidationError) None.
Proof.
  cbv zeta. unfold send.
  destruct (load_preferences st recipientId) as [prefs st1]. cbn [fst snd].
  pose proof (deliver_inApp_keeps env recipientId
                (quiet_hours_gate prefs (now env)
                   (Notification.priority
                      (new_notification (next_id st1) (now env) recipientId pl))
                   (decide prefs
                      (Notification.category
                         (new_notification (next_id st1) (now env)
                            recipientId pl))))
                (new_notification (next_id st1) (now env) recipientId pl))
    as (Hvalid & _).
  cbv zeta in Hvalid.
  destruct (deliver_inApp env recipientId _ _) as [n1 emitted].
  cbn [fst snd] in *.
  rewrite valid_deliver_email, Hvalid, valid_new_notification.
  reflexivity.
Qed.

Lemma quiet_hours_gate_cases (p : Preferences.t) (at_ : Z) (priority : string)
    (channels : decision) :
  d_inApp (quiet_hours_gate p at_ priority channels) = d_inApp channels
  /\ d_email (quiet_hours_gate p at_ priority channels) = d_email channels
  /\ d_push (quiet_hours_gate p at_ priority channels)
     = d_push channels
       && negb (Preferences.isInQuietHours p at_
                && negb (String.eqb priority "urgent")).
Proof.
  unfold quiet_hours_gate.
  destruct (d_push channels) eqn:Hp, (Preferences.isInQuietHours p at_),
    (String.eqb priority "urgent"); cbn; rewrite ?Hp; auto.
Qed.

(** C3. In [send] the push decision goes from true to false exactly when the
    decision computed from the preferences is true, quiet hours hold at the
    time of the dispatch and the priority is not 'urgent'.  An urgent
    dispatch still starts the push fan-out, and the in-app and e-mail
    decisions are the ones computed from the preferences. *)
Theorem send_quiet_hours_gate (st : store) (env : environment)
    (recipientId : Z) (pl : payload) :
  let prefs := fst (load_preferences st recipientId) in
  let category := or_else (p_category pl) (inferCategory (p_type pl)) in
  let priority := or_else (p_priority pl) "normal" in
  let computed := decide prefs category in
  let acted := routed (done_ (send st env recipientId pl)) in
  (d_push computed = true /\ d_push acted = false
   <-> d_push computed = true
       /\ Preferences.isInQuietHours prefs (now env) = true
       /\ priority <> "urgent")
  /\ (d_push computed = false -> d_push acted = false)
  /\ (priority = "urgent" -> d_push computed = true ->
      push_started (done_ (send st env recipientId pl)) = true)
  /\ d_inApp acted = d_inApp computed
  /\ d_email acted = d_email computed
  /\ push_started (done_ (send st env recipientId pl)) = d_push acted.
Proof.
  intros prefs category priority computed acted.
  assert (Hacted : acted = quiet_hours_gate prefs (now env) priority computed
          /\ push_started (done_ (send st env recipientId pl)) = d_push acted).
  { subst acted. rewrite send_unfold. cbv zeta.
    repeat match goal with |- context [if ?c then _ else _] => destruct c end;
      cbn; auto. }
  destruct Hacted as [-> Hstarted]. rewrite Hstarted.
  destruct (quiet_hours_gate_cases prefs (now env) priority computed)
    as (HinApp & Hemail & Hpush).
  rewrite HinApp, Hemail, Hpush.
  destruct (String.eqb_spec priority "urgent") as [Hu | Hu];
    destruct (d_push computed), (Preferences.isInQuietHours prefs (now env));
    cbn; repeat split; try tauto; try congruence;
    intros; try tauto; intuition congruence.
Qed.

(** What step 7 writes. *)
Lemma deliver_email_flags (env : environment) (p : Preferences.t)
    (channels : decision) (n : Notification.t) :
  let n' := deliver_email env p channels n in
  let e := Notification.email (Notification.channels n) in
  let e' := Notification.email (Notification.channels n') in
  Notification.priority n' = Notification.priority n
  /\ Notification._id n' = Notification._id n
  /\ Notification.inApp (Notification.channels n')
     = Notification.inApp (Notification.channels n)
  /\ Notification.push (Notification.channels n')
     = Notification.push (Notification.channels n)
  /\ (email_at_once p channels n = true ->
      Notification.email_delivered e' = true
      /\ Notification.includeInDigest e' = false)
  /\ (email_at_once p channels n = false ->
      Notification.email_delivered e' = Notification.email_delivered e
      /\ Notification.includeInDigest e' = d_email channels
      /\ Notification.status n' = Notification.status n).
Proof.
  cbv zeta. unfold deliver_email, email_at_once.
  destruct (d_email channels); cbn [andb].
  - destruct (String.eqb (Preferences.frequency (Preferences.digest p)) "never"
              || String.eqb (Notification.priority n) "urgent").
    + change (Notification.priority
                (Notification.set_includeInDigest false
                   (Notification.markChannelDelivered "email" (now env) n)))
        with (Notification.priority
                (Notification.markChannelDelivered "email" (now env) n)).
      rewrite priority_markChannelDelivered.
      unfold Notification.markChannelDelivered. cbn.
      match goal with |- context [if ?c then _ else _] => destruct c end;
        cbn; repeat split; intros; try reflexivity; discriminate.
    + cbn. repeat split; intros; try reflexivity; discriminate.
  - cbn. repeat split; intros; try reflexivity; discriminate.
Qed.

(** Who calls [markChannelDelivered] in [send], read off the payload. *)
Lemma send_saving (st : store) (env : environment) (recipientId : Z)
    (pl : payload) :
  let prefs := fst (load_preferences st recipientId) in
  let st1 := snd (load_preferences st recipientId) in
  let n0 := new_notification (next_id st1) (now env) recipientId pl in
  let channels :=
    quiet_hours_gate prefs (now env) (Notification.priority n0)
      (decide prefs (Notification.category n0)) in
  let n1 := deliver_inApp env recipientId channels n0 in
  snd n1 = Payloads.live prefs env recipientId pl
  /\ email_at_once prefs channels (fst n1) = Payloads.mailed prefs pl
  /\ d_email channels
     = Preferences.shouldSend prefs "email" (Payloads.category_for pl)
  /\ socket_emitted (done_ (send st env recipientId pl)) = snd n1.
Proof.
  cbv zeta.
  set (prefs := fst (load_preferences st recipientId)).
  set (st1 := snd (load_preferences st recipientId)).
  set (n0 := new_notification (next_id st1) (now env) recipientId pl).
  destruct (quiet_hours_gate_cases prefs (now env) (Notification.priority n0)
              (decide prefs (Notification.category n0)))
    as (HinApp & Hemail & _).
  set (channels := quiet_hours_gate prefs (now env) (Notification.priority n0)
                     (decide prefs (Notification.category n0))) in *.
  destruct (deliver_inApp_keeps env recipientId channels n0)
    as (_ & Hprio & _). cbv zeta in Hprio.
  split; [|split; [|split]].
  - unfold deliver_inApp, Payloads.live. rewrite HinApp.
    change (d_inApp (decide prefs (Notification.category n0)))
      with (Preferences.shouldSend prefs "inApp" (Payloads.category_for pl)).
    destruct (Preferences.shouldSend prefs "inApp" (Payloads.category_for pl)),
      (isUserOnline env recipientId); reflexivity.
  - unfold email_at_once, Payloads.mailed, Payloads.immediate.
    rewrite Hemail, Hprio. reflexivity.
  - exact Hemail.
  - rewrite send_unfold. cbv zeta. fold prefs st1 n0 channels.
    repeat match goal with |- context [if ?c then _ else _] => destruct c end;
      reflexivity.
Qed.

(** C4. The record a dispatch persists carries the e-mail bookkeeping: with
    the e-mail channel enabled and (digest frequency 'never' or priority
    'urgent') it has delivered = true and includeInDigest = false; with the
    channel enabled and neither condition it has delivered = false and
    includeInDigest = true; with the channel disabled it has
    includeInDigest = false.  The record is the one new document of the
    collection.  It is persisted by the awaited [save()] of step 8, with
    which [send] resolves, when no [markChannelDelivered] ran; in the
    first of the three cases that call ran, so the record is persisted by
    the save it started and [send] itself rejects. *)
Theorem send_email_bookkeeping (st : store) (env : environment)
    (recipientId : Z) (pl : payload) :
  acceptable pl = true ->
  let prefs := fst (load_preferences st recipientId) in
  let frequency := Preferences.frequency (Preferences.digest prefs) in
  let priority := or_else (p_priority pl) "normal" in
  let sent := send st env recipientId pl in
  let enabled :=
    Preferences.shouldSend prefs "email"
      (or_else (p_category pl) (inferCategory (p_type pl))) in
  exists n : Notification.t,
    saved sent = Some n
    /\ notifications (after sent) = (notifications st ++ [n])%list
    /\ (returned sent = Resolved n
        \/ returned sent = Rejected ParallelSaveError)
    /\ Notification.priority n = priority
    /\ (enabled = true -> frequency = "never" \/ priority = "urgent" ->
        Notification.email_delivered (Notification.email (Notification.channels n)) = true
        /\ Notification.includeInDigest (Notification.email (Notification.channels n)) = false
        /\ returned sent = Rejected ParallelSaveError)
    /\ (enabled = true -> frequency <> "never" -> priority <> "urgent" ->
        Notification.email_delivered (Notification.email (Notification.channels n)) = false
        /\ Notification.includeInDigest (Notification.email (Notification.channels n)) = true)
    /\ (enabled = false ->
        Notification.includeInDigest (Notification.email (Notification.channels n)) = false).
Proof.
  intros Hok prefs frequency priority sent enabled.
  destruct (send_saving st env recipientId pl) as (Hlive & Hmailed & Hde & _).
  cbv zeta in Hlive, Hmailed, Hde. fold prefs in Hlive, Hmailed, Hde.
  subst sent. rewrite send_unfold. cbv zeta. fold prefs.
  set (st1 := snd (load_preferences st recipientId)) in *.
  assert (Hst1 : notifications st1 = notifications st).
  { unfold st1, load_preferences. destruct (List.find _ _); reflexivity. }
  set (n0 := new_notification (next_id st1) (now env) recipientId pl) in *.
  set (channels := quiet_hours_gate prefs (now env) (Notification.priority n0)
                     (decide prefs (Notification.category n0))) in *.
  destruct (deliver_inApp_keeps env recipientId channels n0)
    as (_ & Hprio1 & Hemail1).
  cbv zeta in Hprio1, Hemail1.
  set (n1 := deliver_inApp env recipientId channels n0) in *.
  destruct (deliver_email_flags env prefs channels (fst n1))
    as (Hprio2 & _ & _ & _ & Hnow & Hlater).
  cbv zeta in Hprio2, Hnow, Hlater.
  set (n2 := deliver_email env prefs channels (fst n1)) in *.
  rewrite Hemail1 in Hlater. cbn [n0 new_notification Notification.channels
    Notification.fresh_channels Notification.email
    Notification.email_delivered] in Hlater.
  change (Preferences.shouldSend prefs "email" (Payloads.category_for pl))
    with enabled in Hde.
  assert (Hat_once : Payloads.mailed prefs pl
                     = enabled && (String.eqb frequency "never"
                                   || String.eqb priority "urgent"))
    by reflexivity.
  rewrite Hmailed, Hat_once in Hnow, Hlater. rewrite Hde in Hlater.
  rewrite Hok. exists n2.
  assert (Hp : Notification.priority n2 = priority).
  { rewrite Hprio2, Hprio1. reflexivity. }
  assert (Hcases :
    (enabled = true -> frequency = "never" \/ priority = "urgent" ->
     enabled && (String.eqb frequency "never" || String.eqb priority "urgent")
     = true)
    /\ (enabled = true -> frequency <> "never" -> priority <> "urgent" ->
        enabled && (String.eqb frequency "never" || String.eqb priority "urgent")
        = false)
    /\ (enabled = false ->
        enabled && (String.eqb frequency "never" || String.eqb priority "urgent")
        = false)).
  { split; [|split].
    - intros -> [-> | ->]; cbn; [reflexivity|]. apply orb_true_r.
    - intros -> Hf Hu. cbn.
      destruct (String.eqb_spec frequency "never"); [contradiction|].
      destruct (String.eqb_spec priority "urgent"); [contradiction|].
      reflexivity.
    - intros ->. reflexivity. }
  destruct Hcases as (Hc1 & Hc2 & Hc3).
  rewrite Hmailed, Hat_once.
  split.
  { repeat match goal with |- context [if ?c then _ else _] => destruct c end;
      reflexivity. }
  split.
  { repeat match goal with |- context [if ?c then _ else _] => destruct c end;
      cbn [after notifications]; now rewrite Hst1. }
  split.
  { repeat match goal with |- context [if ?c then _ else _] => destruct c end;
      cbn [returned]; auto. }
  split; [exact Hp|].
  split; [|split].
  - intros He Hwhen. specialize (Hc1 He Hwhen).
    destruct (Hnow Hc1) as [H1 H2]. split; [exact H1|]. split; [exact H2|].
    rewrite Hc1, orb_true_r. reflexivity.
  - intros He Hf Hu. specialize (Hc2 He Hf Hu).
    destruct (Hlater Hc2) as (H1 & H2 & _). rewrite He in H2. auto.
  - intros He. specialize (Hc3 He).
    destruct (Hlater Hc3) as (_ & H2 & _). now rewrite He in H2.
Qed.

End DispatcherRouting.

(** ** Push delivery *)

Section PushFanOut.

Import Preferences PushService.

Lemma is_gone_spec (tr : transport) (c : nat * push_subscription) :
  gone tr c <->
  exists code, tr (fst c) (snd c) = Rejected code /\ is_gone code = true.
Proof.
  unfold gone, is_gone. split.
  - intros [H | H]; eexists; split; try exact H; reflexivity.
  - intros ([code|] & H & Hg); [|discriminate].
    apply orb_true_iff in Hg as [Hg | Hg]; apply Z.eqb_eq in Hg; subst; auto.
Qed.

Lemma fan_out_results (tr : transport) (subs : list push_subscription) (i : nat) :
  map a_endpoint (fst (fan_out tr i subs)) = map endpoint subs
  /\ length (List.filter a_success (fst (fan_out tr i subs)))
     = length (List.filter (accepted tr) (calls_from i subs)).
Proof.
  revert i. induction subs as [|s rest IH]; intros i; [split; reflexivity|].
  cbn [fan_out calls_from]. destruct (IH (S i)) as [IHe IHc].
  destruct (fan_out tr (S i) rest) as [results invalid]. cbn [fst] in IHe, IHc.
  unfold accepted at 1. cbn [fst snd List.filter].
  destruct (tr i s); cbn [fst map List.filter a_success a_endpoint length];
    rewrite IHe, IHc; split; reflexivity.
Qed.

Lemma fan_out_invalid (tr : transport) (subs : list push_subscription)
    (i : nat) (e : string) :
  In e (snd (fan_out tr i subs)) <->
  exists c, In c (calls_from i subs) /\ endpoint (snd c) = e /\ gone tr c.
Proof.
  revert i. induction subs as [|s rest IH]; intros i.
  - cbn. split; [tauto | intros (c & [] & _)].
  - cbn [fan_out calls_from]. specialize (IH (S i)).
    destruct (fan_out tr (S i) rest) as [results invalid]. cbn [snd] in IH.
    assert (Hrest : In e invalid <->
              exists c, In c ((i, s) :: calls_from (S i) rest)
                        /\ In c (calls_from (S i) rest)
                        /\ endpoint (snd c) = e /\ gone tr c).
    { rewrite IH. split.
      - intros (c & Hc & He & Hg). exists c. cbn. tauto.
      - intros (c & _ & Hc & He & Hg). exists c. tauto. }
    destruct (tr i s) as [|code] eqn:Htr.
    + cbn [snd]. rewrite Hrest. split.
      * intros (c & Hc & _ & He & Hg). eauto.
      * intros (c & [<- | Hc] & He & Hg).
        -- apply is_gone_spec in Hg as (code & Hcode & _). cbn in Hcode. congruence.
        -- exists c. cbn. tauto.
    + destruct (is_gone code) eqn:Hcode; cbn [snd].
      * split.
        -- intros [<- | Hin].
           ++ exists (i, s). cbn [fst snd In]. split; [auto|]. split; [reflexivity|].
              apply is_gone_spec. exists code. cbn. auto.
           ++ apply Hrest in Hin as (c & Hc & _ & He & Hg). eauto.
        -- intros (c & [<- | Hc] & He & Hg); [left; exact He|].
           right. apply Hrest. exists c. cbn. tauto.
      * rewrite Hrest. split.
        -- intros (c & Hc & _ & He & Hg). eauto.
        -- intros (c & [<- | Hc] & He & Hg).
           ++ apply is_gone_spec in Hg as (code' & Hcode' & Hg'). cbn in Hcode'.
              congruence.
           ++ exists c. cbn. tauto.
Qed.

Lemma updateOne_first (matches : Preferences.t -> bool)
    (change : Preferences.t -> Preferences.t)
    (before : list Preferences.t) (d : Preferences.t) (after : list Preferences.t) :
  (forall x, In x before -> matches x = false) ->
  matches d = true ->
  updateOne matches change (before ++ d :: after)
  = (before ++ change d :: after)%list.
Proof.
  intros Hbefore Hd. induction before as [|x before IH]; cbn.
  - now rewrite Hd.
  - rewrite (Hbefore x (or_introl eq_refl)). f_equal. apply IH.
    intros y Hy. apply Hbefore. now right.
Qed.

Lemma pull_endpoints_subscriptions (endpoints : list string) (p : Preferences.t)
    (s : push_subscription) :
  In s (pushSubscriptions (pull_endpoints endpoints p)) <->
  In s (pushSubscriptions p) /\ ~ In (endpoint s) endpoints.
Proof.
  cbn. rewrite filter_In, negb_true_iff, <- not_true_iff_false, existsb_exists.
  split; intros [Hin Hnot]; split; auto; intros H; apply Hnot.
  - exists (endpoint s). split; [exact H | apply String.eqb_refl].
  - destruct H as (e & He & Heq). apply String.eqb_eq in Heq. now subst.
Qed.

Lemma pull_endpoints_nil (p : Preferences.t) : pull_endpoints [] p = p.
Proof.
  destruct p as [i u ch ca di subs q]. unfold pull_endpoints. cbn. f_equal.
  induction subs as [|s subs IH]; cbn; [reflexivity | now rewrite IH].
Qed.

Lemma sendToUser_unfold (svc : service) (tr : transport)
    (coll : list Preferences.t) (p : Preferences.t) :
  configured svc = true ->
  sendToUser svc tr coll p =
    let results := fst (fan_out tr 0%nat (pushSubscriptions p)) in
    let invalidEndpoints := snd (fan_out tr 0%nat (pushSubscriptions p)) in
    let successCount := length (List.filter a_success results) in
    Sent (if (0 <? length invalidEndpoints)%nat
          then removeInvalidSubscriptions coll (_id p) invalidEndpoints
          else coll)
         (map a_endpoint results)
         (SendResult (0 <? successCount)%nat (Some successCount)
                     (Some (length (pushSubscriptions p))) None).
Proof.
  intros Hc. unfold sendToUser. rewrite Hc. cbn [negb].
  destruct (fan_out tr 0%nat (pushSubscriptions p)). reflexivity.
Qed.

(** C6, for a configured service.  [sendToUser] hands every registered
    endpoint to the transport, whatever the earlier calls did; it reports
    success exactly when a call was accepted, [deliveredTo] is the number
    of accepted calls and [total] the number of registered subscriptions;
    from the stored document it removes exactly the subscriptions whose
    endpoint failed with status 404 or 410 in this pass and keeps the
    others.  With three endpoints of which the second fails with 410 the
    result is deliveredTo = 2, total = 3 and only that endpoint is removed. *)
Theorem sendToUser_fan_out (svc : service) (tr : transport)
    (coll : list Preferences.t) (p : Preferences.t) :
  configured svc = true ->
  let out := sendToUser svc tr coll p in
  attempted out = map endpoint (pushSubscriptions p)
  /\ deliveredTo (result out)
     = Some (length (List.filter (accepted tr) (calls p)))
  /\ total (result out) = Some (length (pushSubscriptions p))
  /\ (success (result out) = true <->
      exists c, In c (calls p) /\ accepted tr c = true)
  /\ (forall (before : list Preferences.t) (d : Preferences.t)
             (after : list Preferences.t),
        coll = (before ++ d :: after)%list ->
        (forall x, In x before -> _id x <> _id p) ->
        _id d = _id p ->
        exists d' : Preferences.t,
          stored out = (before ++ d' :: after)%list
          /\ _id d' = _id d /\ user d' = user d
          /\ channels d' = channels d /\ categories d' = categories d
          /\ digest d' = digest d /\ quietHours d' = quietHours d
          /\ forall s : push_subscription,
               In s (pushSubscriptions d') <->
               In s (pushSubscriptions d)
               /\ ~ (exists c, In c (calls p)
                               /\ endpoint (snd c) = endpoint s /\ gone tr c))
  /\ (forall (s1 s2 s3 : push_subscription)
             (before after : list Preferences.t),
        pushSubscriptions p = [s1; s2; s3] ->
        tr 0%nat s1 = Accepted ->
        tr 1%nat s2 = Rejected (Some 410) ->
        tr 2%nat s3 = Accepted ->
        endpoint s1 <> endpoint s2 ->
        endpoint s3 <> endpoint s2 ->
        coll = (before ++ p :: after)%list ->
        (forall x, In x before -> _id x <> _id p) ->
        result out = SendResult true (Some 2%nat) (Some 3%nat) None
        /\ exists d' : Preferences.t,
             stored out = (before ++ d' :: after)%list
             /\ pushSubscriptions d' = [s1; s3]).
Proof.
  intros Hc out. subst out. rewrite (sendToUser_unfold svc tr coll p Hc).
  cbv zeta. cbn [attempted result stored deliveredTo total success].
  destruct (fan_out_results tr (pushSubscriptions p) 0) as [Hends Hcount].
  split; [exact Hends|]. split; [now rewrite Hcount|]. split; [reflexivity|].
  split; [|split].
  - rewrite Hcount. fold (calls p). rewrite Nat.ltb_lt. split.
    + intros Hpos.
      destruct (List.filter (accepted tr) (calls p)) as [|c l] eqn:Hf;
        [cbn in Hpos; lia|].
      assert (Hin : In c (List.filter (accepted tr) (calls p)))
        by (rewrite Hf; now left).
      apply filter_In in Hin. eauto.
    + intros (c & Hin & Hacc).
      assert (Hin' : In c (List.filter (accepted tr) (calls p)))
        by (apply filter_In; auto).
      destruct (List.filter (accepted tr) (calls p)); [destruct Hin'|cbn; lia].
  - intros before d after -> Hbefore Hd.
    set (invalid := snd (fan_out tr 0%nat (pushSubscriptions p))).
    assert (Hpulled :
      (if (0 <? length invalid)%nat
       then removeInvalidSubscriptions (before ++ d :: after) (_id p) invalid
       else (before ++ d :: after)%list)
      = (before ++ pull_endpoints invalid d :: after)%list).
    { destruct invalid as [|e invalid'] eqn:Hinv; cbn [length Nat.ltb Nat.leb].
      - now rewrite pull_endpoints_nil.
      - unfold removeInvalidSubscriptions. apply updateOne_first.
        + intros x Hx. apply Z.eqb_neq. now apply Hbefore.
        + now apply Z.eqb_eq. }
    rewrite Hpulled. eexists. split; [reflexivity|].
    repeat (split; [reflexivity|]).
    intros s. rewrite pull_endpoints_subscriptions.
    unfold invalid. rewrite fan_out_invalid. reflexivity.
  - intros s1 s2 s3 before after Hsubs H1 H2 H3 Hn1 Hn3 -> Hbefore.
    rewrite Hsubs. cbn [fan_out]. rewrite H1, H2, H3.
    cbn [is_gone fst snd List.filter a_success length Nat.ltb Nat.leb].
    change ((410 =? 410) || (410 =? 404)) with true. cbv iota.
    cbn [fst snd List.filter a_success length Nat.ltb Nat.leb].
    split; [reflexivity|].
    unfold removeInvalidSubscriptions.
    rewrite updateOne_first;
      [| intros x Hx; apply Z.eqb_neq; now apply Hbefore | apply Z.eqb_refl].
    eexists. split; [reflexivity|].
    cbn [pull_endpoints pushSubscriptions]. rewrite Hsubs.
    cbn [List.filter existsb].
    apply String.eqb_neq in Hn1, Hn3.
    rewrite Hn1, Hn3, String.eqb_refl. reflexivity.
Qed.

(** C10. When the VAPID keys are not both set at initialisation,
    [sendToUser] returns { success: false, error: 'Not configured' } at
    once: it hands no endpoint to the transport, leaves the stored
    subscriptions alone, and the object has neither [deliveredTo] nor
    [total]. *)
Theorem sendToUser_not_configured (env : gmap string string) (tr : transport)
    (coll : list Preferences.t) (p : Preferences.t) :
  Js.truthy_string (env !! "VAPID_PUBLIC_KEY") = false
  \/ Js.truthy_string (env !! "VAPID_PRIVATE_KEY") = false ->
  let out := sendToUser (initialize env) tr coll p in
  configured (initialize env) = false
  /\ result out = SendResult false None None (Some "Not configured")
  /\ deliveredTo (result out) = None
  /\ total (result out) = None
  /\ attempted out = []
  /\ stored out = coll.
Proof.
  intros Hkeys out.
  assert (Hoff : configured (initialize env) = false).
  { unfold initialize. destruct Hkeys as [-> | ->]; [reflexivity|].
    now rewrite andb_false_r. }
  subst out. unfold sendToUser. rewrite Hoff. cbn. repeat split.
Qed.

End PushFanOut.

(** ** Record state transitions *)

Section RecordTransitions.

Import Notification.







(** *** Expiry in the queries *)

Lemma In_insert_newest (x n : Notification.t) (l : list Notification.t) :
  In x (insert_newest n l) <-> x = n \/ In x l.
Proof.
  induction l as [|y l IH]; cbn.
  - intuition.
  - destruct (createdAt y <? createdAt n); cbn; rewrite ?IH; intuition.
Qed.

Lemma In_sort_newest_first (x : Notification.t) (l : list Notification.t) :
  In x (sort_newest_first l) <-> In x l.
Proof.
  unfold sort_newest_first. induction l as [|y l IH]; cbn; [tauto|].
  rewrite In_insert_newest, IH. intuition.
Qed.

Lemma In_limit (k : Z) (x : Notification.t) (l : list Notification.t) :
  In x (limit k l) -> In x l.
Proof.
  unfold limit. destruct (k =? 0); [auto|].
  rewrite <- !list_elem_of_In. intros H.
  exact (elem_of_sublist _ _ _ H (sublist_take l _)).
Qed.

Lemma In_drop (k : nat) (x : Notification.t) (l : list Notification.t) :
  In x (drop k l) -> In x l.
Proof.
  rewrite <- !list_elem_of_In. intros H.
  exact (elem_of_sublist _ _ _ H (sublist_drop l k)).
Qed.

(** The two listings leave out every record whose [expiresAt] is not after
    the query time. *)
Lemma getAll_excludes_expired (coll : list Notification.t) (now userId : Z)
    (options : all_options) (n : Notification.t) (e : Z) :
  In n (getAll coll now userId options) -> expiresAt n = Some e -> now < e.
Proof.
  unfold getAll. intros Hin He.
  apply In_limit, In_drop, In_sort_newest_first, filter_In in Hin as [_ Hq].
  rewrite !andb_true_iff in Hq. destruct Hq as [[_ Hexp] _].
  unfold not_expired in Hexp. rewrite He in Hexp. now apply Z.ltb_lt.
Qed.

Lemma getUnread_excludes_expired (coll : list Notification.t) (now userId : Z)
    (options : unread_options) (n : Notification.t) (e : Z) :
  In n (getUnread coll now userId options) -> expiresAt n = Some e -> now < e.
Proof.
  unfold getUnread. intros Hin He.
  apply In_limit, In_sort_newest_first, filter_In in Hin as [_ Hq].
  rewrite !andb_true_iff in Hq. destruct Hq as [[[_ Hexp] _] _].
  unfold not_expired in Hexp. rewrite He in Hexp. now apply Z.ltb_lt.
Qed.

(** C8, the code at the failing input: at time 200 a record that expired at
    time 100 is left out by [getAll] and [getUnread] and counted by
    [getUnreadCount]. *)
Theorem getUnreadCount_counts_expired :
  expiresAt Examples.expired_like = Some 100
  /\ getAll [Examples.expired_like] 200 Examples.alice
            (AllOptions None None None) = []
  /\ getUnread [Examples.expired_like] 200 Examples.alice
               (UnreadOptions None None None) = []
  /\ getUnreadCount [Examples.expired_like] Examples.alice None = 1%nat.
Proof. repeat split. Qed.

End RecordTransitions.

(** ** Preference updates *)

Section PreferenceUpdates.

Import Preferences Controller.

(** What [merge] does keep: the subscriptions, the entries of [channels]
    and [categories] whose key the update does not name, and the fields of
    [digest] and [quietHours] the update does not name. *)
Lemma merge_keeps (p : Preferences.t) (u : updates) :
  pushSubscriptions (merge p u) = pushSubscriptions p
  /\ _id (merge p u) = _id p /\ user (merge p u) = user p
  /\ (forall (k : string),
        (forall c, up_channels u = Some c -> c !! k = None) ->
        channels (merge p u) !! k = channels p !! k)
  /\ (forall (k : string),
        (forall c, up_categories u = Some c -> c !! k = None) ->
        categories (merge p u) !! k = categories p !! k)
  /\ ((forall d, up_digest u = Some d -> du_frequency d = None) ->
      frequency (digest (merge p u)) = frequency (digest p))
  /\ ((forall d, up_digest u = Some d -> du_time d = None) ->
      time (digest (merge p u)) = time (digest p))
  /\ ((forall d, up_digest u = Some d -> du_dayOfWeek d = None) ->
      dayOfWeek (digest (merge p u)) = dayOfWeek (digest p))
  /\ ((forall q, up_quietHours u = Some q -> qu_startTime q = None) ->
      startTime (quietHours (merge p u)) = startTime (quietHours p))
  /\ ((forall q, up_quietHours u = Some q -> qu_endTime q = None) ->
      endTime (quietHours (merge p u)) = endTime (quietHours p))
  /\ ((forall q, up_quietHours u = Some q -> qu_enabled q = None) ->
      qh_enabled (quietHours (merge p u)) = qh_enabled (quietHours p)).
Proof.
  unfold merge. cbn.
  repeat split.
  - intros k Hk. destruct (up_channels u) as [c|]; [|reflexivity].
    unfold Object_assign. rewrite lookup_union_r; auto.
  - intros k Hk. destruct (up_categories u) as [c|]; [|reflexivity].
    unfold Object_assign. rewrite lookup_union_r; auto.
  - intros H. destruct (up_digest u) as [d|]; [|reflexivity].
    cbn. now rewrite (H d eq_refl).
  - intros H. destruct (up_digest u) as [d|]; [|reflexivity].
    cbn. now rewrite (H d eq_refl).
  - intros H. destruct (up_digest u) as [d|]; [|reflexivity].
    cbn. now rewrite (H d eq_refl).
  - intros H. destruct (up_quietHours u) as [q|]; [|reflexivity].
    cbn. now rewrite (H q eq_refl).
  - intros H. destruct (up_quietHours u) as [q|]; [|reflexivity].
    cbn. now rewrite (H q eq_refl).
  - intros H. destruct (up_quietHours u) as [q|]; [|reflexivity].
    cbn. now rewrite (H q eq_refl).
Qed.

(** C9, the code at the failing input: the stored e-mail entry has an
    address; the update names only [channels.email.enabled]; the entry that
    is stored and sent back has no address. *)
Theorem updatePreferences_drops_address :
  let before := Examples.alice_preferences in
  let '(coll, reply) :=
    updatePreferences [before] 12 Examples.alice Examples.email_off in
  (ch_address <$> channels before !! "email")
    = Some (Some "alice@campus.example")
  /\ (exists after : Preferences.t,
        reply = Some after /\ coll = [after]
        /\ channels after !! "email"
           = Some (ChannelSettings (Some false) None None)
        /\ pushSubscriptions after = pushSubscriptions before
        /\ channels after !! "push" = channels before !! "push").
Proof.
  vm_compute. split; [reflexivity|].
  eexists. repeat split.
Qed.

End PreferenceUpdates.

(** ** Digest scheduler *)

Section DigestRuns.

Import Notification DigestScheduler.

Lemma getDigestNotifications_In (coll : list Notification.t) (userId since : Z)
    (n : Notification.t) :
  In n (getDigestNotifications coll userId since) <->
  In n coll /\ recipient n = userId
  /\ includeInDigest (email (channels n)) = true
  /\ email_delivered (email (channels n)) = false
  /\ since <= createdAt n.
Proof.
  unfold getDigestNotifications.
  rewrite In_sort_newest_first, filter_In, !andb_true_iff, negb_true_iff,
    Z.eqb_eq, Z.leb_le.
  tauto.
Qed.

(** The three ways a run ends: nothing to send, a digest handed over and
    refused, a digest handed over and sent. *)
Lemma sendDigestForUser_cases (tr : mailer) (coll : list Notification.t)
    (at_ marked_at : Z) (user : option account) (frequency : string) :
  (sendDigestForUser tr coll at_ marked_at user frequency = (coll, None)
   /\ forall u, user = Some u -> Js.truthy_string (acc_email u) = true ->
      getDigestNotifications coll (acc_id u) (window frequency at_) = [])
  \/ exists (u : account) (m : mail),
       user = Some u
       /\ items m = getDigestNotifications coll (acc_id u) (window frequency at_)
       /\ items m <> []
       /\ acc_email u = Some (to m)
       /\ ((tr m = false
            /\ sendDigestForUser tr coll at_ marked_at user frequency
               = (coll, Some (m, false)))
           \/ (tr m = true
               /\ sendDigestForUser tr coll at_ marked_at user frequency
                  = (mark_delivered (map _id (items m)) marked_at coll,
                     Some (m, true)))).
Proof.
  unfold sendDigestForUser.
  destruct user as [u|]; [|left; split; [reflexivity | discriminate]].
  destruct (acc_email u) as [address|] eqn:Hmail;
    [|left; split; [reflexivity | intros ? [= <-]; rewrite Hmail; discriminate]].
  destruct (String.eqb address "") eqn:Hempty.
  { left. split; [reflexivity|]. intros ? [= <-]. rewrite Hmail. cbn.
    rewrite Hempty. discriminate. }
  fold (window frequency at_).
  destruct (getDigestNotifications coll (acc_id u) (window frequency at_))
    as [|n rest] eqn:Hsel.
  { left. split; [reflexivity|]. intros ? [= <-] _. exact Hsel. }
  right. cbn [length Nat.ltb Nat.leb sendDigest].
  set (m := Mail address _ (n :: rest)).
  exists u, m. split; [reflexivity|]. split; [symmetry; exact Hsel|].
  split; [discriminate|]. split; [exact Hmail|].
  destruct (tr m); [right | left]; split; reflexivity.
Qed.

Lemma In_mark_delivered (ids : list Z) (at_ : Z) (coll : list Notification.t)
    (n' : Notification.t) :
  In n' (mark_delivered ids at_ coll) <->
  exists n, In n coll
            /\ ((In (_id n) ids /\ n' = set_email_delivered at_ n)
                \/ (~ In (_id n) ids /\ n' = n)).
Proof.
  unfold mark_delivered. rewrite in_map_iff.
  split; intros (n & H1 & H2); exists n.
  - destruct (existsb (Z.eqb (_id n)) ids) eqn:Hex.
    + apply existsb_exists in Hex as (x & Hx & Heq). apply Z.eqb_eq in Heq.
      subst x. split; [tauto|]. left. auto.
    + split; [tauto|]. right. split; [|auto].
      intros Hin. apply not_true_iff_false in Hex. apply Hex.
      apply existsb_exists. exists (_id n). split; [auto | apply Z.eqb_refl].
  - split; [|tauto].
    destruct H2 as [[Hin ->] | [Hnot ->]].
    + replace (existsb (Z.eqb (_id n)) ids) with true; [reflexivity|].
      symmetry. apply existsb_exists. exists (_id n).
      split; [auto | apply Z.eqb_refl].
    + replace (existsb (Z.eqb (_id n)) ids) with false; [reflexivity|].
      symmetry. apply not_true_iff_false. intros Hex. apply Hnot.
      apply existsb_exists in Hex as (x & Hx & Heq). apply Z.eqb_eq in Heq.
      now subst x.
Qed.

(** *** No record in two digests *)

Lemma id_markChannelDelivered (channel : string) (at_ : Z) (n : Notification.t) :
  _id (markChannelDelivered channel at_ n) = _id n.
Proof.
  unfold markChannelDelivered.
  destruct (set_delivered channel at_ (channels n)); [|reflexivity].
  match goal with |- context [if ?c then _ else _] => destruct c end;
    reflexivity.
Qed.

Lemma delivered_markChannelDelivered (channel : string) (at_ : Z)
    (n : Notification.t) :
  email_delivered (email (channels n)) = true ->
  email_delivered (email (channels (markChannelDelivered channel at_ n))) = true.
Proof.
  intros H. unfold markChannelDelivered, set_delivered.
  destruct (String.eqb channel "inApp");
    [|destruct (String.eqb channel "push");
      [|destruct (String.eqb channel "email")]];
    try exact H;
    match goal with |- context [if ?c then _ else _] => destruct c end;
    cbn; auto.
Qed.

Lemma apply_keeps (n : Notification.t) (a : Lifecycle.action) :
  _id (Lifecycle.apply n a) = _id n
  /\ (email_delivered (email (channels n)) = true ->
      email_delivered (email (channels (Lifecycle.apply n a))) = true).
Proof.
  destruct a as [at_ | t_click t_read | channel at_ | b | at_];
    cbn [Lifecycle.apply].
  - split; [reflexivity | auto].
  - unfold markAsClicked. cbn. destruct (read n); split; auto.
  - split; [apply id_markChannelDelivered | apply delivered_markChannelDelivered].
  - split; [reflexivity | auto].
  - split; [reflexivity | auto].
Qed.

Lemma send_after (st : Dispatcher.store) (env : Dispatcher.environment)
    (recipientId : Z) (pl : Dispatcher.payload) :
  let st' := Dispatcher.after (Dispatcher.send st env recipientId pl) in
  Dispatcher.next_id st <= Dispatcher.next_id st'
  /\ (Dispatcher.notifications st' = Dispatcher.notifications st
      \/ exists n, Dispatcher.notifications st'
                   = (Dispatcher.notifications st ++ [n])%list
                   /\ Dispatcher.next_id st <= _id n < Dispatcher.next_id st').
Proof.
  rewrite send_unfold. cbv zeta.
  assert (Hload : Dispatcher.notifications (snd (Dispatcher.load_preferences st recipientId))
                  = Dispatcher.notifications st
                  /\ Dispatcher.next_id st
                     <= Dispatcher.next_id (snd (Dispatcher.load_preferences st recipientId))).
  { unfold Dispatcher.load_preferences.
    destruct (List.find _ _); cbn; split; auto; lia. }
  destruct Hload as [Hn Hid].
  set (st1 := snd (Dispatcher.load_preferences st recipientId)) in *.
  match goal with
  | |- context [Dispatcher.deliver_email ?e ?p ?c (fst (Dispatcher.deliver_inApp ?e ?r ?c ?n0))] =>
      assert (Hsame : _id (Dispatcher.deliver_email e p c
                        (fst (Dispatcher.deliver_inApp e r c n0))) = _id n0)
  end.
  { unfold Dispatcher.deliver_email, Dispatcher.deliver_inApp.
    repeat match goal with
           | |- context [if ?c then _ else _] => destruct c
           end; cbn [fst set_includeInDigest set_channels assign _id];
      rewrite ?id_markChannelDelivered; reflexivity. }
  repeat match goal with |- context [if ?c then _ else _] => destruct c end;
    cbn [Dispatcher.after Dispatcher.next_id Dispatcher.notifications].
  all: split; [lia|].
  all: try (left; exact Hn).
  all: right; eexists; rewrite Hn; split; [reflexivity|];
    rewrite Hsame; cbn; lia.
Qed.

Lemma settled_map (st : Dispatcher.store) (D : list Z)
    (f : Notification.t -> Notification.t) :
  (forall n, _id (f n) = _id n
             /\ (email_delivered (email (channels n)) = true ->
                 email_delivered (email (channels (f n))) = true)) ->
  History.settled st D ->
  History.settled (History.with_notifications st (map f (Dispatcher.notifications st))) D.
Proof.
  intros Hf (Hwf & HD & Hdel). repeat split; cbn.
  - intros n' Hin. apply in_map_iff in Hin as (n & <- & Hn).
    destruct (Hf n) as [-> _]. now apply Hwf.
  - exact HD.
  - intros n' Hin Hid. apply in_map_iff in Hin as (n & <- & Hn).
    destruct (Hf n) as [Hsame Hmono]. rewrite Hsame in Hid. auto.
Qed.

Lemma step_settled (st : Dispatcher.store) (D : list Z) (e : History.event) :
  History.settled st D ->
  match snd (History.step st e) with
  | Some (m, true) =>
      History.disjoint (map _id (items m)) D
      /\ History.settled (fst (History.step st e)) (map _id (items m) ++ D)
  | _ => History.settled (fst (History.step st e)) D
  end.
Proof.
  intros Hs. destruct e as [env r pl | id a | id | at_ u c | tr at_ mk user f];
    cbn [History.step fst snd].
  - destruct Hs as (Hwf & HD & Hdel).
    destruct (send_after st env r pl) as [Hnext [Hsame | (n & Happ & Hid)]].
    + repeat split.
      * intros n Hin. rewrite Hsame in Hin. specialize (Hwf n Hin). lia.
      * intros x Hx. specialize (HD x Hx). lia.
      * intros n Hin. rewrite Hsame in Hin. auto.
    + repeat split.
      * intros n' Hin. rewrite Happ in Hin. apply in_app_iff in Hin as [Hin | [<- | []]].
        -- specialize (Hwf n' Hin). lia.
        -- lia.
      * intros x Hx. specialize (HD x Hx). lia.
      * intros n' Hin HinD. rewrite Happ in Hin.
        apply in_app_iff in Hin as [Hin | [<- | []]]; [auto|].
        specialize (HD _ HinD). lia.
  - apply settled_map; [|exact Hs].
    intros n. destruct (_id n =? id); [apply apply_keeps | auto].
  - destruct Hs as (Hwf & HD & Hdel). repeat split; cbn.
    + intros n Hin. apply filter_In in Hin as [Hin _]. auto.
    + exact HD.
    + intros n Hin. apply filter_In in Hin as [Hin _]. auto.
  - unfold markAllRead. apply settled_map; [|exact Hs].
    intros n. match goal with |- context [if ?c then _ else _] => destruct c end;
      auto.
  - destruct Hs as (Hwf & HD & Hdel).
    destruct (sendDigestForUser_cases tr (Dispatcher.notifications st) at_ mk user f)
      as [[-> _] | (u & m & -> & Hitems & _ & _ & [[_ ->] | [_ ->]])];
      cbn [fst snd].
    + repeat split; auto.
    + repeat split; auto.
    + assert (Hsel : forall x, In x (map _id (items m)) ->
                exists n, In n (Dispatcher.notifications st) /\ _id n = x
                          /\ email_delivered (email (channels n)) = false).
      { intros x Hx. apply in_map_iff in Hx as (n & <- & Hn).
        rewrite Hitems in Hn. apply getDigestNotifications_In in Hn.
        exists n. tauto. }
      split.
      * intros x Hx HxD. destruct (Hsel x Hx) as (n & Hn & <- & Hfalse).
        rewrite (Hdel n Hn HxD) in Hfalse. discriminate.
      * repeat split; cbn.
        -- intros n' Hin. apply In_mark_delivered in Hin
             as (n & Hn & [[_ ->] | [_ ->]]); cbn; auto.
        -- intros x Hx. apply in_app_iff in Hx as [Hx | Hx]; [|auto].
           destruct (Hsel x Hx) as (n & Hn & <- & _). auto.
        -- intros n' Hin Hid. apply In_mark_delivered in Hin
             as (n & Hn & [[_ ->] | [Hnot ->]]); [reflexivity|].
           apply in_app_iff in Hid as [Hid | Hid]; [contradiction | auto].
Qed.

Lemma run_disjoint (events : list History.event) (st : Dispatcher.store)
    (D : list Z) :
  History.settled st D ->
  ForallOrdPairs History.disjoint (History.sent_ids (snd (History.run st events)))
  /\ Forall (fun ids => History.disjoint ids D)
            (History.sent_ids (snd (History.run st events))).
Proof.
  revert st D. induction events as [|e events IH]; intros st D Hs.
  - cbn. split; constructor.
  - cbn [History.run]. pose proof (step_settled st D e Hs) as Hstep.
    destruct (History.step st e) as [st1 sent]. cbn [fst snd] in Hstep.
    destruct sent as [[m [|]]|].
    + destruct Hstep as [Hdis Hs1].
      destruct (IH st1 _ Hs1) as [IHp IHd].
      destruct (History.run st1 events) as [st2 more]. cbn [snd] in *.
      cbn [History.sent_ids]. split.
      * constructor; [|exact IHp].
        (* later digests avoid this one: they avoid ids ++ D *)
        rewrite Forall_forall in IHd |- *. intros ids Hids x Hx Hx'.
        apply (IHd ids Hids x Hx'). apply in_app_iff. now left.
      * constructor; [exact Hdis|].
        rewrite Forall_forall in IHd |- *. intros ids Hids x Hx HxD.
        apply (IHd ids Hids x Hx). apply in_app_iff. now right.
    + destruct (IH st1 D Hstep) as [IHp IHd].
      destruct (History.run st1 events) as [st2 more]. cbn [snd] in *.
      cbn [History.sent_ids]. auto.
    + destruct (IH st1 D Hstep) as [IHp IHd].
      destruct (History.run st1 events) as [st2 more]. cbn [snd] in *. auto.
Qed.

(** Against C5 as written: the daily digest of 09:00 fails; at the
    next matching tick, 09:00 a day later, the record of the failed digest
    is outside the lookback window and nothing is sent, although its flags
    still say digest-eligible and undelivered. *)
Lemma failed_digest_not_retried_next_day :
  let prefs := [Examples.alice_preferences] in
  let accounts := [Examples.alice_account] in
  let coll := [Examples.like_at_eight] in
  let day1 := processDailyDigests Examples.mail_down prefs accounts coll
                Examples.nine_o_clock in
  let day2 := processDailyDigests Examples.mail_up prefs accounts (fst day1)
                (Examples.nine_o_clock + day_ms) in
  snd day1 = [(Mail "alice@campus.example"
                    "Your daily update on College Media"
                    [Examples.like_at_eight], false)]
  /\ fst day1 = coll
  /\ snd day2 = []
  /\ fst day2 = coll
  /\ includeInDigest (email (channels Examples.like_at_eight)) = true
  /\ email_delivered (email (channels Examples.like_at_eight)) = false.
Proof. vm_compute. repeat split. Qed.

(** C5, as the code has it.  After a digest was sent, and only then, one
    batch update sets [delivered] and [deliveredAt] on every record of the
    digest and on nothing else; a digest holds exactly the user's records
    flagged includeInDigest, not delivered, and created inside the lookback
    window; no record is in two digests that were sent; a failed send
    leaves the collection as it was, and a later run for the user takes a
    record of the failed digest again exactly when the record is still
    inside that run's window. *)
Theorem digest_marks_once :
  (forall (tr : mailer) (coll : list Notification.t) (at_ marked_at : Z)
          (user : option account) (frequency : string) (m : mail),
     snd (sendDigestForUser tr coll at_ marked_at user frequency)
       = Some (m, true) ->
     let coll' := fst (sendDigestForUser tr coll at_ marked_at user frequency) in
     tr m = true
     /\ coll' = mark_delivered (map _id (items m)) marked_at coll
     /\ (forall n, In n (items m) -> In (set_email_delivered marked_at n) coll')
     /\ (forall n', In n' coll' -> In (_id n') (map _id (items m)) ->
           email_delivered (email (channels n')) = true
           /\ email_deliveredAt (email (channels n')) = Some marked_at)
     /\ (forall n, In n coll -> ~ In (_id n) (map _id (items m)) -> In n coll'))
  /\ (forall (tr : mailer) (coll : list Notification.t) (at_ marked_at : Z)
             (user : option account) (frequency : string),
        (forall m, snd (sendDigestForUser tr coll at_ marked_at user frequency)
                   <> Some (m, true)) ->
        fst (sendDigestForUser tr coll at_ marked_at user frequency) = coll)
  /\ (forall (tr : mailer) (coll : list Notification.t) (at_ marked_at : Z)
             (user : option account) (frequency : string) (m : mail)
             (ok : bool),
        snd (sendDigestForUser tr coll at_ marked_at user frequency)
          = Some (m, ok) ->
        exists u, user = Some u
          /\ forall n, In n (items m) <->
               In n coll /\ recipient n = acc_id u
               /\ includeInDigest (email (channels n)) = true
               /\ email_delivered (email (channels n)) = false
               /\ window frequency at_ <= createdAt n)
  /\ (forall (st : Dispatcher.store) (events : list History.event),
        History.well_formed st ->
        ForallOrdPairs History.disjoint
          (History.sent_ids (snd (History.run st events))))
  /\ (forall (tr : mailer) (coll : list Notification.t) (at_ marked_at : Z)
             (user : option account) (frequency : string) (m : mail),
        snd (sendDigestForUser tr coll at_ marked_at user frequency)
          = Some (m, false) ->
        fst (sendDigestForUser tr coll at_ marked_at user frequency) = coll
        /\ forall (tr' : mailer) (at_' marked_at' : Z) (n : Notification.t),
             In n (items m) ->
             ((exists m' ok,
                 snd (sendDigestForUser tr' coll at_' marked_at' user frequency)
                   = Some (m', ok)
                 /\ In n (items m'))
              <-> window frequency at_' <= createdAt n)).
Proof.
  split; [|split; [|split; [|split]]].
  - intros tr coll at_ mk user f m Hsent coll'. subst coll'.
    destruct (sendDigestForUser_cases tr coll at_ mk user f)
      as [[Heq _] | (u & m0 & -> & Hitems & _ & _ & [[_ Heq] | [Hok Heq]])];
      rewrite Heq in Hsent |- *; cbn [fst snd] in *; try discriminate.
    injection Hsent as <-. split; [exact Hok|]. split; [reflexivity|].
    assert (Hin_coll : forall n, In n (items m0) -> In n coll).
    { intros n Hn. rewrite Hitems in Hn.
      now apply getDigestNotifications_In in Hn. }
    split; [|split].
    + intros n Hn. apply In_mark_delivered. exists n. split; [auto|].
      left. split; [now apply in_map | reflexivity].
    + intros n' Hin Hid. apply In_mark_delivered in Hin
        as (n & Hn & [[_ ->] | [Hnot ->]]); [split; reflexivity | contradiction].
    + intros n Hn Hnot. apply In_mark_delivered. exists n. tauto.
  - intros tr coll at_ mk user f Hnone.
    destruct (sendDigestForUser_cases tr coll at_ mk user f)
      as [[Heq _] | (u & m0 & -> & Hitems & _ & _ & [[_ Heq] | [Hok Heq]])];
      rewrite Heq in Hnone |- *; cbn [fst snd] in *; try reflexivity.
    now destruct (Hnone m0).
  - intros tr coll at_ mk user f m ok Hsent.
    destruct (sendDigestForUser_cases tr coll at_ mk user f)
      as [[Heq _] | (u & m0 & -> & Hitems & _ & _ & [[_ Heq] | [_ Heq]])];
      rewrite Heq in Hsent; cbn [snd] in Hsent; try discriminate;
      injection Hsent as <- <-; exists u; (split; [reflexivity|]);
      intros n; rewrite Hitems; apply getDigestNotifications_In.
  - intros st events Hwf.
    apply (run_disjoint events st []).
    split; [exact Hwf | split; [intros ? [] | intros ? ? []]].
  - intros tr coll at_ mk user f m Hsent.
    destruct (sendDigestForUser_cases tr coll at_ mk user f)
      as [[Heq _] | (u & m0 & -> & Hitems & _ & Hmail & [[_ Heq] | [_ Heq]])];
      rewrite Heq in Hsent |- *; cbn [fst snd] in *; try discriminate.
    injection Hsent as <-. split; [reflexivity|].
    intros tr' at_' mk' n Hn.
    rewrite Hitems in Hn. apply getDigestNotifications_In in Hn.
    destruct (sendDigestForUser_cases tr' coll at_' mk' (Some u) f)
      as [[Heq' Hempty] | (u' & m' & [= <-] & Hitems' & _ & _ & Hcase)].
    + rewrite Heq'. cbn [snd]. split.
      * intros (? & ? & [=] & _).
      * intros Hw. exfalso.
        assert (Hin : In n (getDigestNotifications coll (acc_id u) (window f at_')))
          by (apply getDigestNotifications_In; tauto).
        rewrite (Hempty u eq_refl) in Hin; [destruct Hin|].
        rewrite Hmail. cbn.
        destruct (sendDigestForUser_cases tr coll at_ mk (Some u) f)
          as [[Heq0 _] | (u0 & m1 & [= <-] & _ & _ & Hmail1 & _)];
          [rewrite Heq0 in Heq; discriminate|].
        revert Heq. unfold sendDigestForUser. rewrite Hmail.
        destruct (String.eqb (to m0) ""); [discriminate | reflexivity].
    + split.
      * intros (m'' & ok & Hsent' & Hin'').
        assert (m'' = m') as ->.
        { destruct Hcase as [[_ Heq'] | [_ Heq']]; rewrite Heq' in Hsent';
            cbn [snd] in Hsent'; now injection Hsent' as <- <-. }
        rewrite Hitems' in Hin''.
        apply getDigestNotifications_In in Hin''. tauto.
      * intros Hw. exists m'.
        destruct Hcase as [[_ Heq'] | [_ Heq']]; rewrite Heq'; cbn [snd];
          eexists; (split; [reflexivity|]); rewrite Hitems';
          apply getDigestNotifications_In; tauto.
Qed.

End DigestRuns.

(** ** The theorems at sample inputs *)

Section Samples.

Lemma isInQuietHours_window_witness :
  Preferences.isInQuietHours (Preferences.defaults 1 1) 0 = false
  /\ Preferences.isInQuietHours Examples.alice_preferences (23 * 3600000) = true
  /\ Preferences.isInQuietHours Examples.alice_preferences (12 * 3600000) = false.
Proof.
  destruct isInQuietHours_window as (Hoff & Hwindow & Hnight & _).
  split; [|split].
  - apply (Hoff (Preferences.defaults 1 1) 0). reflexivity.
  - apply (Hwindow Examples.alice_preferences (23 * 3600000) (22 * 60) (8 * 60));
      [reflexivity | reflexivity | reflexivity |].
    right. vm_compute. split; [discriminate | left; discriminate].
  - apply (Hnight Examples.alice_preferences (12 * 3600000));
      reflexivity.
Defined.

Lemma shouldSend_two_levels_witness :
  Preferences.shouldSend Examples.alice_preferences "sms" "social" = false
  /\ Preferences.shouldSend Examples.alice_preferences "email" "content" = false
  /\ Preferences.shouldSend Examples.alice_preferences "push" "alumni" = true.
Proof.
  split; [|split].
  - apply (proj1 (shouldSend_two_levels Examples.alice_preferences "sms" "social")).
    reflexivity.
  - apply (proj1 (proj2 (proj2 (shouldSend_two_levels Examples.alice_preferences
                                  "email" "content")))); reflexivity.
  - apply (proj1 (proj2 (proj2 (proj2
             (shouldSend_two_levels Examples.alice_preferences
                                    "push" "alumni"))))); reflexivity.
Defined.

Lemma send_quiet_hours_gate_witness :
  Dispatcher.push_started
    (Dispatcher.done_
       (Dispatcher.send Examples.alice_store Examples.late_evening
                        Examples.alice Examples.urgent_alert)) = true.
Proof.
  apply (proj1 (proj2 (proj2
           (send_quiet_hours_gate Examples.alice_store Examples.late_evening
                                  Examples.alice Examples.urgent_alert))));
    reflexivity.
Defined.

Lemma send_email_bookkeeping_witness :
  exists n : Notification.t,
    Dispatcher.saved
      (Dispatcher.send Examples.alice_store Examples.nobody_online
                       Examples.alice Examples.urgent_alert)
    = Some n
    /\ Notification.email_delivered (Notification.email (Notification.channels n)) = true
    /\ Notification.includeInDigest (Notification.email (Notification.channels n)) = false
    /\ Dispatcher.returned
         (Dispatcher.send Examples.alice_store Examples.nobody_online
                          Examples.alice Examples.urgent_alert)
       = Dispatcher.Rejected Dispatcher.ParallelSaveError.
Proof.
  destruct (send_email_bookkeeping Examples.alice_store Examples.nobody_online
              Examples.alice Examples.urgent_alert eq_refl)
    as (n & Hsaved & _ & _ & _ & Himmediate & _).
  exists n. split; [exact Hsaved|].
  apply Himmediate; [reflexivity | right; reflexivity].
Defined.

Lemma sendToUser_fan_out_witness :
  let out := PushService.sendToUser (PushService.initialize Examples.vapid_env)
               Examples.second_is_gone [Examples.three_devices]
               Examples.three_devices in
  PushService.result out
    = PushService.SendResult true (Some 2%nat) (Some 3%nat) None
  /\ exists d' : Preferences.t,
       PushService.stored out = [d']
       /\ Preferences.pushSubscriptions d' = [Examples.laptop; Examples.tablet].
Proof.
  apply (proj2 (proj2 (proj2 (proj2 (proj2
           (sendToUser_fan_out (PushService.initialize Examples.vapid_env)
              Examples.second_is_gone [Examples.three_devices]
              Examples.three_devices eq_refl)))))
           Examples.laptop Examples.old_phone Examples.tablet [] []);
    try reflexivity; try discriminate.
  intros x [].
Defined.


Lemma sendToUser_not_configured_witness :
  let out := PushService.sendToUser (PushService.initialize Examples.half_env)
               Examples.all_accepted [Examples.three_devices]
               Examples.three_devices in
  PushService.result out
    = PushService.SendResult false None None (Some "Not configured")
  /\ PushService.attempted out = []
  /\ PushService.stored out = [Examples.three_devices].
Proof.
  destruct (sendToUser_not_configured Examples.half_env Examples.all_accepted
              [Examples.three_devices] Examples.three_devices
              (or_intror eq_refl))
    as (_ & Hres & _ & _ & Hatt & Hstored).
  split; [exact Hres | split; [exact Hatt | exact Hstored]].
Defined.

(** Against C6 as written: with no VAPID key set, a registered
    endpoint that would accept the notification is never handed to the
    transport and the result carries no counts. *)
Lemma sendToUser_unconfigured_attempts_nothing :
  let p := Examples.alice_preferences in
  let out := PushService.sendToUser (PushService.initialize ∅)
               Examples.all_accepted [p] p in
  map Preferences.endpoint (Preferences.pushSubscriptions p)
    = ["https://push.example/a"]
  /\ PushService.attempted out = []
  /\ PushService.attempted out
     <> map Preferences.endpoint (Preferences.pushSubscriptions p)
  /\ PushService.deliveredTo (PushService.result out) = None
  /\ PushService.total (PushService.result out)
     <> Some (length (Preferences.pushSubscriptions p)).
Proof. vm_compute. repeat split; discriminate. Qed.

Lemma digest_marks_once_witness :
  let run := DigestScheduler.sendDigestForUser Examples.mail_up
               [Examples.like_at_eight] Examples.nine_o_clock
               (Examples.nine_o_clock + 5) (Some Examples.alice_account)
               "daily" in
  fst run = [Notification.set_email_delivered (Examples.nine_o_clock + 5)
               Examples.like_at_eight]
  /\ DigestScheduler.sendDigestForUser Examples.mail_up (fst run)
       (Examples.nine_o_clock + DigestScheduler.day_ms)
       (Examples.nine_o_clock + DigestScheduler.day_ms)
       (Some Examples.alice_account) "daily"
     = (fst run, None).
Proof.
  destruct digest_marks_once as (Hmark & Hkeep & _).
  split.
  - destruct (Hmark Examples.mail_up [Examples.like_at_eight]
                Examples.nine_o_clock (Examples.nine_o_clock + 5)
                (Some Examples.alice_account) "daily"
                (DigestScheduler.Mail "alice@campus.example"
                   "Your daily update on College Media"
                   [Examples.like_at_eight]) eq_refl)
      as (_ & Heq & _).
    exact Heq.
  - apply injective_projections; [|reflexivity].
    apply (Hkeep Examples.mail_up). intros m. discriminate.
Defined.

End Samples.

(** * Further properties of the code *)

(** ** Listing, counting and marking records *)

Section RecordQueries.

Import Notification.

Lemma category_matches_assign (c : option string) (n : Notification.t)
    ch st r rAt cl cAt :
  category_matches c (assign n ch st r rAt cl cAt) = category_matches c n.
Proof. reflexivity. Qed.

Import Listing.

Lemma unread_of_marked (userId : Z) (category : option string)
    (n : Notification.t) ch st rAt cl cAt :
  unread_of userId category (assign n ch st true rAt cl cAt) = false.
Proof.
  unfold unread_of. cbn [read assign negb].
  now rewrite andb_false_r.
Qed.

Lemma getUnreadCount_filter (coll : list Notification.t) (userId : Z)
    (category : option string) :
  getUnreadCount coll userId category
  = length (List.filter (unread_of userId category) coll).
Proof. reflexivity. Qed.

Lemma unread_of_other (userId other : Z) (c : option string)
    (n : Notification.t) :
  recipient n = userId -> other <> userId -> unread_of other c n = false.
Proof.
  intros Hr Hne. unfold unread_of.
  replace (recipient n =? other) with false; [reflexivity|].
  symmetry. apply Z.eqb_neq. congruence.
Qed.

Lemma unread_of_off_category (userId : Z) (c : option string)
    (n : Notification.t) :
  category_matches c n = false -> unread_of userId c n = false.
Proof. intros H. unfold unread_of. rewrite H. apply andb_false_r. Qed.

Lemma markAllRead_map (coll : list Notification.t) (now userId : Z)
    (category : option string) :
  markAllRead coll now userId category
  = map (fun n => if unread_of userId category n then markAsRead now n else n)
        coll.
Proof. reflexivity. Qed.

Lemma category_matches_other (c c' : string) (n : Notification.t) :
  c <> "" -> c' <> "" -> c <> c' ->
  category_matches (Some c) n = true -> category_matches (Some c') n = false.
Proof.
  unfold category_matches. intros Hc Hc' Hne.
  apply String.eqb_neq in Hc, Hc'. rewrite Hc, Hc'.
  intros H. apply String.eqb_eq in H. rewrite H. now apply String.eqb_neq.
Qed.

(** X1. [markAllRead] marks every unread record of the user in the
    category (all categories when none is given): afterwards the unread
    count of that user and category is 0; every stored record is either
    untouched or the [markAsRead] of an unread record of that user and
    category; no other user's count and no other category's count
    changes. *)
Theorem markAllRead_scope (coll : list Notification.t) (now userId : Z)
    (category : option string) :
  let coll' := markAllRead coll now userId category in
  length coll' = length coll
  /\ getUnreadCount coll' userId category = 0%nat
  /\ (forall n', In n' coll' ->
        exists n, In n coll
          /\ (n' = n
              \/ (n' = markAsRead now n /\ recipient n = userId
                  /\ read n = false /\ category_matches category n = true)))
  /\ (forall n, In n coll -> unread_of userId category n = false ->
                In n coll')
  /\ (forall (other : Z) (c : option string),
        other <> userId ->
        getUnreadCount coll' other c = getUnreadCount coll other c)
  /\ (forall c c' : string,
        category = Some c -> c <> "" -> c' <> "" -> c <> c' ->
        getUnreadCount coll' userId (Some c')
        = getUnreadCount coll userId (Some c')).
Proof.
  intros coll'. subst coll'. rewrite markAllRead_map.
  split; [apply length_map|]. split; [|split; [|split; [|split]]].
  - rewrite getUnreadCount_filter.
    induction coll as [|n coll IH]; [reflexivity|]. cbn [map List.filter].
    destruct (unread_of userId category n) eqn:Hq.
    + unfold markAsRead. rewrite unread_of_marked. exact IH.
    + rewrite Hq. exact IH.
  - intros n' Hin. apply in_map_iff in Hin as (n & <- & Hn). exists n.
    split; [exact Hn|].
    destruct (unread_of userId category n) eqn:Hq; [right | now left].
    unfold unread_of in Hq. rewrite !andb_true_iff, negb_true_iff, Z.eqb_eq in Hq.
    unfold markAsRead. tauto.
  - intros n Hn Hq. apply in_map_iff. exists n. now rewrite Hq.
  - intros other c Hother. rewrite !getUnreadCount_filter.
    induction coll as [|n coll IH]; [reflexivity|]. cbn [map List.filter].
    destruct (unread_of userId category n) eqn:Hq.
    + unfold unread_of in Hq.
      rewrite !andb_true_iff, Z.eqb_eq in Hq. destruct Hq as [[Hr _] _].
      rewrite (unread_of_other userId other c (markAsRead now n) Hr Hother).
      rewrite (unread_of_other userId other c n Hr Hother). exact IH.
    + destruct (unread_of other c n); cbn [length]; now rewrite IH.
  - intros c c' -> Hc Hc' Hne. rewrite !getUnreadCount_filter.
    induction coll as [|n coll IH]; [reflexivity|]. cbn [map List.filter].
    destruct (unread_of userId (Some c) n) eqn:Hq.
    + unfold unread_of in Hq. rewrite !andb_true_iff in Hq.
      destruct Hq as [_ Hcat].
      pose proof (category_matches_other c c' n Hc Hc' Hne Hcat) as Hoff.
      rewrite (unread_of_off_category userId (Some c') (markAsRead now n) Hoff).
      rewrite (unread_of_off_category userId (Some c') n Hoff). exact IH.
    + destruct (unread_of userId (Some c') n); cbn [length]; now rewrite IH.
Qed.

(** *** Listings *)

Lemma Forall_insert_newest (P : Notification.t -> Prop) (n : Notification.t)
    (l : list Notification.t) :
  P n -> Forall P l -> Forall P (insert_newest n l).
Proof.
  intros Hn Hl. induction Hl as [|x l Hx Hl IH]; cbn.
  - constructor; [exact Hn | constructor].
  - destruct (createdAt x <? createdAt n).
    + constructor; [exact Hn|]. constructor; assumption.
    + constructor; assumption.
Qed.

Lemma insert_newest_sorted (n : Notification.t) (l : list Notification.t) :
  StronglySorted newest_first l ->
  StronglySorted newest_first (insert_newest n l).
Proof.
  intros Hs. induction Hs as [|x l Hs IH Hx]; cbn.
  - constructor; constructor.
  - destruct (Z.ltb_spec (createdAt x) (createdAt n)) as [Hlt | Hge].
    + constructor; [constructor; assumption|].
      constructor; [unfold newest_first; lia|].
      rewrite Forall_forall in Hx |- *. intros y Hy.
      specialize (Hx y Hy). unfold newest_first in *. lia.
    + constructor; [exact IH|].
      apply Forall_insert_newest; [exact Hge | exact Hx].
Qed.

Lemma sort_newest_first_sorted (l : list Notification.t) :
  StronglySorted newest_first (sort_newest_first l).
Proof.
  unfold sort_newest_first. induction l as [|n l IH]; cbn.
  - constructor.
  - now apply insert_newest_sorted.
Qed.

Lemma sorted_take (k : nat) (l : list Notification.t) :
  StronglySorted newest_first l -> StronglySorted newest_first (take k l).
Proof.
  intros Hs. revert k. induction Hs as [|x l Hs IH Hx]; intros [|k]; cbn;
    try constructor; auto.
  now apply Forall_take.
Qed.

Lemma sorted_drop (k : nat) (l : list Notification.t) :
  StronglySorted newest_first l -> StronglySorted newest_first (drop k l).
Proof.
  intros Hs. revert k. induction Hs as [|x l Hs IH Hx]; intros [|k]; cbn;
    try constructor; auto.
Qed.

Lemma sorted_limit (k : Z) (l : list Notification.t) :
  StronglySorted newest_first l -> StronglySorted newest_first (limit k l).
Proof. unfold limit. destruct (k =? 0); [auto | apply sorted_take]. Qed.

Lemma length_limit (k : Z) (l : list Notification.t) :
  k <> 0 -> (length (limit k l) <= Z.abs_nat k)%nat.
Proof.
  intros Hk. unfold limit. apply Z.eqb_neq in Hk. rewrite Hk.
  rewrite length_take. lia.
Qed.

(** X2. [getAll] returns stored records of the user only, none of them
    expired at the query time, all in the requested category when one is
    given; newest first; and at most [limit] of them (20 when no limit is
    given). *)
Theorem getAll_listing (coll : list Notification.t) (now userId : Z)
    (options : all_options) :
  let page := getAll coll now userId options in
  (forall n, In n page ->
     In n coll /\ recipient n = userId /\ not_expired now n = true
     /\ category_matches (ao_category options) n = true)
  /\ StronglySorted newest_first page
  /\ (default 20 (ao_limit options) <> 0 ->
      (length page <= Z.abs_nat (default 20%Z (ao_limit options)))%nat).
Proof.
  intros page. subst page. unfold getAll. split; [|split].
  - intros n Hin.
    apply In_limit, In_drop, In_sort_newest_first, filter_In in Hin as [Hin Hq].
    rewrite !andb_true_iff, Z.eqb_eq in Hq. tauto.
  - apply sorted_limit, sorted_drop, sort_newest_first_sorted.
  - apply length_limit.
Qed.

Lemma insert_newest_perm (n : Notification.t) (l : list Notification.t) :
  Permutation (insert_newest n l) (n :: l).
Proof.
  induction l as [|x l IH]; cbn; [apply Permutation_refl|].
  destruct (createdAt x <? createdAt n); [apply Permutation_refl|].
  apply Permutation_trans with (x :: n :: l).
  - now apply perm_skip.
  - apply perm_swap.
Qed.

Lemma sort_newest_first_perm (l : list Notification.t) :
  Permutation (sort_newest_first l) l.
Proof.
  unfold sort_newest_first. induction l as [|n l IH]; cbn; [constructor|].
  apply Permutation_trans with (n :: foldr insert_newest [] l).
  - apply insert_newest_perm.
  - now apply perm_skip.
Qed.

(** With pairwise distinct [createdAt] there is one newest-first order. *)
Lemma sorted_result_unique (l1 l2 : list Notification.t) :
  Permutation l1 l2 ->
  StronglySorted newest_first l1 -> StronglySorted newest_first l2 ->
  NoDup (map createdAt l1) -> l1 = l2.
Proof.
  revert l2. induction l1 as [|a l1 IH]; intros l2 Hp Hs1 Hs2 Hnd.
  - apply Permutation_nil in Hp. now subst.
  - destruct l2 as [|b l2].
    { apply Permutation_sym, Permutation_nil in Hp. discriminate. }
    apply StronglySorted_inv in Hs1 as [Hs1 Ha].
    apply StronglySorted_inv in Hs2 as [Hs2 Hb].
    rewrite List.Forall_forall in Ha, Hb.
    cbn [map] in Hnd. inversion Hnd as [|x l Hnotin Hnd']; subst.
    assert (Hab : a = b).
    { assert (Hina : In a (b :: l2))
        by (apply (Permutation_in _ Hp); now left).
      destruct Hina as [Heq | Hina]; [now symmetry|].
      assert (Hinb : In b (a :: l1))
        by (apply (Permutation_in _ (Permutation_sym Hp)); now left).
      destruct Hinb as [Heq | Hinb]; [exact Heq|].
      exfalso. apply Hnotin.
      specialize (Ha b Hinb). specialize (Hb a Hina).
      unfold newest_first in Ha, Hb.
      replace (createdAt a) with (createdAt b) by lia.
      apply list_elem_of_In. now apply in_map. }
    subst b. f_equal. apply IH; auto.
    now apply Permutation_cons_inv in Hp.
Qed.

Lemma getAll_is_page (coll : list Notification.t) (now userId : Z)
    (options : all_options) :
  page coll now userId options (getAll coll now userId options).
Proof.
  exists (sort_newest_first (matching coll now userId (ao_category options))).
  split; [|reflexivity]. split.
  - apply sort_newest_first_perm.
  - apply sort_newest_first_sorted.
Qed.

(** X3. Pages of [getAll] join up when no two of the user's records share
    a [createdAt]: whatever order the database chooses among equal
    timestamps, a page of [k] records from offset [s] followed by a page
    of [k'] records from offset [s + k] is the page of [k + k'] records
    from offset [s].  With two records of the same [createdAt] the
    database may order them differently from one query to the next, and
    the pages need not join. *)
Theorem getAll_pages (coll : list Notification.t) (now userId : Z)
    (category : option string) (s k k' : nat)
    (first second both : list Notification.t) :
  (0 < k)%nat -> (0 < k')%nat ->
  NoDup (map createdAt (matching coll now userId category)) ->
  page coll now userId (AllOptions (Some (Z.of_nat k)) (Some s) category)
       first ->
  page coll now userId
       (AllOptions (Some (Z.of_nat k')) (Some (s + k)%nat) category) second ->
  page coll now userId
       (AllOptions (Some (Z.of_nat (k + k'))) (Some s) category) both ->
  (first ++ second)%list = both
  /\ both = getAll coll now userId
              (AllOptions (Some (Z.of_nat (k + k'))) (Some s) category).
Proof.
  intros Hk Hk' Hnd (l1 & [Hp1 Hs1] & ->) (l2 & [Hp2 Hs2] & ->)
         (l3 & [Hp3 Hs3] & ->).
  cbn [ao_limit ao_skip ao_category default from_option id] in *.
  assert (Hnd1 : NoDup (map createdAt l1)).
  { assert (Hmap : Permutation (map createdAt l1)
                       (map createdAt (matching coll now userId category)))
      by (apply Permutation_map; exact Hp1).
    rewrite Hmap. exact Hnd. }
  assert (H2 : l1 = l2).
  { apply sorted_result_unique; auto.
    apply Permutation_trans with (matching coll now userId category);
      [exact Hp1 | now apply Permutation_sym]. }
  assert (H3 : l1 = l3).
  { apply sorted_result_unique; auto.
    apply Permutation_trans with (matching coll now userId category);
      [exact Hp1 | now apply Permutation_sym]. }
  assert (H4 : l1 = sort_newest_first (matching coll now userId category)).
  { apply sorted_result_unique; auto.
    - apply Permutation_trans with (matching coll now userId category);
        [exact Hp1 | apply Permutation_sym, sort_newest_first_perm].
    - apply sort_newest_first_sorted. }
  subst l2 l3. split.
  - unfold limit.
    replace (Z.of_nat k =? 0) with false by (symmetry; apply Z.eqb_neq; lia).
    replace (Z.of_nat k' =? 0) with false by (symmetry; apply Z.eqb_neq; lia).
    replace (Z.of_nat (k + k') =? 0) with false
      by (symmetry; apply Z.eqb_neq; lia).
    rewrite !Zabs2Nat.id.
    rewrite <- (drop_drop l1 k s). apply take_take_drop.
  - rewrite H4. reflexivity.
Qed.

Lemma getAll_pages_witness :
  (getAll [Examples.like_at_eight; Examples.expired_like] 10 Examples.alice
          (AllOptions (Some 1) (Some 0%nat) None)
   ++ getAll [Examples.like_at_eight; Examples.expired_like] 10 Examples.alice
          (AllOptions (Some 1) (Some 1%nat) None))%list
  = getAll [Examples.like_at_eight; Examples.expired_like] 10 Examples.alice
          (AllOptions (Some 2) (Some 0%nat) None).
Proof.
  apply (getAll_pages [Examples.like_at_eight; Examples.expired_like] 10
           Examples.alice None 0 1 1).
  - lia.
  - lia.
  - apply (bool_decide_unpack _). vm_compute. exact I.
  - apply (getAll_is_page _ _ _ (AllOptions (Some 1) (Some 0%nat) None)).
  - apply (getAll_is_page _ _ _ (AllOptions (Some 1) (Some 1%nat) None)).
  - apply (getAll_is_page _ _ _ (AllOptions (Some 2) (Some 0%nat) None)).
Defined.

(** With two records of the same [createdAt], pages the database may
    answer with need not join: the same record can come first in both. *)
Lemma getAll_pages_ties :
  let twin :=
    Dispatcher.new_notification 3 (8 * 3600000) Examples.alice
      Examples.new_like in
  let coll := [Examples.like_at_eight; twin] in
  exists first second both : list Notification.t,
    page coll 10 Examples.alice (AllOptions (Some 1) (Some 0%nat) None) first
    /\ page coll 10 Examples.alice (AllOptions (Some 1) (Some 1%nat) None)
            second
    /\ page coll 10 Examples.alice (AllOptions (Some 2) (Some 0%nat) None) both
    /\ (first ++ second)%list <> both.
Proof.
  cbv zeta.
  set (twin := Dispatcher.new_notification 3 (8 * 3600000) Examples.alice
                 Examples.new_like).
  assert (Hsorted : forall x y,
            createdAt x = 8 * 3600000 -> createdAt y = 8 * 3600000 ->
            StronglySorted newest_first [x; y]).
  { intros x y Hx Hy. repeat constructor. unfold newest_first. lia. }
  exists [Examples.like_at_eight], [Examples.like_at_eight],
         [Examples.like_at_eight; twin].
  split; [|split; [|split]].
  - exists [Examples.like_at_eight; twin]. split; [|reflexivity].
    split; [apply Permutation_refl | now apply Hsorted].
  - exists [twin; Examples.like_at_eight]. split; [|reflexivity].
    split; [apply perm_swap | now apply Hsorted].
  - exists [Examples.like_at_eight; twin]. split; [|reflexivity].
    split; [apply Permutation_refl | now apply Hsorted].
  - discriminate.
Qed.

Lemma filter_length_le {A : Type} (f g : A -> bool) (l : list A) :
  (forall x, In x l -> f x = true -> g x = true) ->
  (length (List.filter f l) <= length (List.filter g l))%nat.
Proof.
  intros H. induction l as [|x l IH]; [reflexivity|]. cbn.
  assert (IH' := IH (fun y Hy => H y (or_intror Hy))).
  specialize (H x (or_introl eq_refl)).
  destruct (f x); [rewrite (H eq_refl); cbn; lia|].
  destruct (g x); cbn; lia.
Qed.

Lemma length_insert_newest (n : Notification.t) (l : list Notification.t) :
  length (insert_newest n l) = S (length l).
Proof.
  induction l as [|x l IH]; cbn; [reflexivity|].
  destruct (createdAt x <? createdAt n); cbn; [reflexivity | now rewrite IH].
Qed.

Lemma length_sort_newest_first (l : list Notification.t) :
  length (sort_newest_first l) = length l.
Proof.
  unfold sort_newest_first. induction l as [|n l IH]; cbn; [reflexivity|].
  now rewrite length_insert_newest, IH.
Qed.

(** X4. [getUnread] returns unread, unexpired records of the user, of one
    of the requested types when types are given and in the requested
    category when one is given, newest first.  Listed without a limit and
    without a type filter, its length is at most [getUnreadCount], and
    equal to it when no stored record has expired. *)
Theorem getUnread_listing (coll : list Notification.t) (now userId : Z)
    (options : unread_options) :
  let found := getUnread coll now userId options in
  (forall n, In n found ->
     In n coll /\ recipient n = userId /\ read n = false
     /\ not_expired now n = true
     /\ type_matches (uo_types options) n = true
     /\ category_matches (uo_category options) n = true)
  /\ StronglySorted newest_first found
  /\ (forall category : option string,
        let everything :=
          getUnread coll now userId (UnreadOptions (Some 0) None category) in
        (length everything <= getUnreadCount coll userId category)%nat
        /\ ((forall n, In n coll -> not_expired now n = true) ->
            length everything = getUnreadCount coll userId category)).
Proof.
  intros found. subst found. unfold getUnread. split; [|split].
  - intros n Hin.
    apply In_limit, In_sort_newest_first, filter_In in Hin as [Hin Hq].
    rewrite !andb_true_iff, negb_true_iff, Z.eqb_eq in Hq. tauto.
  - apply sorted_limit, sort_newest_first_sorted.
  - intros category. cbn [uo_limit uo_types uo_category default from_option id].
    unfold limit. cbn [Z.eqb]. rewrite length_sort_newest_first.
    rewrite getUnreadCount_filter. split.
    + apply filter_length_le. intros n _ Hq. unfold unread_of.
      rewrite !andb_true_iff in Hq. rewrite !andb_true_iff. tauto.
    + intros Hfresh. f_equal. apply filter_ext_in. intros n Hn.
      unfold unread_of, type_matches. rewrite (Hfresh n Hn).
      now rewrite !andb_true_r.
Qed.

End RecordQueries.

(** ** The record's life *)

Section RecordLife.

Import Notification Reading.

Lemma same_identity_refl (n : Notification.t) : same_identity n n.
Proof. repeat split. Qed.

Lemma same_identity_trans (a b c : Notification.t) :
  same_identity a b -> same_identity b c -> same_identity a c.
Proof. unfold same_identity. intuition congruence. Qed.

Lemma keeps_flags_refl (n : Notification.t) : keeps_flags n n.
Proof. repeat split; auto. Qed.

Lemma keeps_flags_trans (a b c : Notification.t) :
  keeps_flags a b -> keeps_flags b c -> keeps_flags a c.
Proof. unfold keeps_flags. intuition. Qed.

Lemma markChannelDelivered_step (channel : string) (at_ : Z)
    (n : Notification.t) :
  let m := markChannelDelivered channel at_ n in
  same_identity n m /\ keeps_flags n m
  /\ read m = read n /\ clicked m = clicked n
  /\ (status m = status n
      \/ (status n = "pending" /\ status m = "delivered"))
  /\ (status m = "delivered" -> status n = "delivered"
      \/ any_delivered (channels m) = true).
Proof.
  cbv zeta. unfold markChannelDelivered, set_delivered.
  destruct (String.eqb channel "inApp");
    [|destruct (String.eqb channel "push");
      [|destruct (String.eqb channel "email")]];
    try (repeat split; auto; fail);
    match goal with |- context [if ?c then _ else _] => destruct c eqn:Hc end;
    cbn; repeat split; auto;
    try (apply andb_true_iff in Hc as [Hany Hst];
         apply String.eqb_eq in Hst; cbn in Hst, Hany; auto; fail).
Qed.

Lemma apply_step (n : Notification.t) (a : Lifecycle.action) :
  same_identity n (Lifecycle.apply n a)
  /\ keeps_flags n (Lifecycle.apply n a)
  /\ (status n = "read" -> status (Lifecycle.apply n a) = "read")
  /\ (status_sound n -> status_sound (Lifecycle.apply n a)).
Proof.
  destruct a as [at_ | t_click t_read | channel at_ | b | at_];
    cbn [Lifecycle.apply].
  - split; [repeat split|]. split; [repeat split; auto|].
    split; [reflexivity|]. intros _.
    split; [cbn; auto|]. split; [reflexivity | cbn; discriminate].
  - unfold markAsClicked. cbn [assign read negb].
    destruct (read n) eqn:Hr; cbn [negb].
    + split; [repeat split|]. split; [repeat split; cbn; auto|].
      split; [auto|]. intros (H1 & H2 & H3). repeat split; cbn; auto.
    + split; [repeat split|]. split; [repeat split; cbn; auto|].
      split; [auto|]. intros (H1 & H2 & H3). repeat split; cbn; auto.
  - destruct (markChannelDelivered_step channel at_ n)
      as (Hid & Hfl & Hread & Hclk & Hst & Hdel).
    cbv zeta in *. split; [exact Hid|]. split; [exact Hfl|]. split.
    + intros Hr. destruct Hst as [-> | [Hp _]]; congruence.
    + intros (Hval & Hrd & Hdl). split; [|split].
      * destruct Hst as [-> | [_ ->]]; auto.
      * intros Hs. rewrite Hread. destruct Hst as [Hst | [_ Hst]];
          [apply Hrd; congruence | rewrite Hst in Hs; discriminate].
      * intros Hs. destruct (Hdel Hs) as [Hold | Hnew]; [|exact Hnew].
        specialize (Hdl Hold).
        destruct Hfl as (_ & _ & Hi & Hp & He).
        unfold any_delivered in *.
        apply orb_true_iff in Hdl as [Hdl | Hdl];
          [apply orb_true_iff in Hdl as [Hdl | Hdl]|].
        -- now rewrite (Hi Hdl).
        -- rewrite (Hp Hdl). now rewrite orb_true_r.
        -- rewrite (He Hdl). now rewrite orb_true_r.
  - split; [repeat split|]. split; [repeat split; cbn; auto|].
    split; [auto|]. intros (H1 & H2 & H3). repeat split; cbn; auto.
  - split; [repeat split|]. split; [repeat split; cbn; auto|].
    split; [auto|]. intros (H1 & H2 & H3). split; [exact H1|].
    split; [exact H2|]. intros _. unfold any_delivered. cbn.
    apply orb_true_r.
Qed.

(** X5. Whatever is written to a record after its creation (read, click,
    a channel settling, the digest flag, the digest batch update), its
    identity and classification stay as created: id, recipient, sender,
    type, category, title, body, priority, group key, expiry, tenant and
    creation time; and no flag that was set is cleared: read, clicked and
    the three delivered flags never revert. *)
Theorem record_writes_keep (n : Notification.t)
    (actions : list Lifecycle.action) :
  same_identity n (Lifecycle.run n actions)
  /\ keeps_flags n (Lifecycle.run n actions).
Proof.
  revert n. induction actions as [|a actions IH]; intros n.
  - split; [apply same_identity_refl | apply keeps_flags_refl].
  - cbn [Lifecycle.run fold_left].
    destruct (apply_step n a) as (Hid & Hfl & _).
    destruct (IH (Lifecycle.apply n a)) as [IHid IHfl].
    split; [eapply same_identity_trans | eapply keeps_flags_trans]; eauto.
Qed.


End RecordLife.

(** ** More on the dispatcher *)

Section DispatcherEffects.

Import Dispatcher Payloads.

Lemma inferCategory_cases (type : string) :
  In (inferCategory type)
     ["social"; "content"; "messaging"; "events"; "system"].
Proof.
  unfold inferCategory.
  destruct (category_of_type !! type) as [c|] eqn:Hc; cbn [default from_option id].
  - apply elem_of_list_to_map_2, list_elem_of_In in Hc. cbn in Hc.
    repeat (destruct Hc as [Hc | Hc];
            [injection Hc as _ <-; cbn; tauto|]).
    destruct Hc.
  - cbn. tauto.
Qed.

Lemma one_of_spec (l : list string) (s : string) :
  one_of l s = true <-> In s l.
Proof.
  unfold one_of. rewrite existsb_exists. split.
  - intros (x & Hx & Heq). apply String.eqb_eq in Heq. now subst.
  - intros H. exists s. split; [exact H | apply String.eqb_refl].
Qed.

Lemma or_else_cases (a : option string) (b : string) :
  (exists s, a = Some s /\ s <> "" /\ or_else a b = s)
  \/ ((a = None \/ a = Some "") /\ or_else a b = b).
Proof.
  destruct a as [s|]; cbn; [|right; auto].
  destruct (String.eqb_spec s ""); [right; subst; auto | left; eauto].
Qed.

Lemma acceptable_spec (pl : payload) :
  acceptable pl = true <-> well_formed pl.
Proof.
  unfold acceptable, valid, valid_data, well_formed. cbn [new_notification
    Notification.type Notification.category Notification.priority
    Notification.title Notification.body].
  rewrite !andb_true_iff, !one_of_spec, !negb_true_iff, !Nat.leb_le.
  split.
  - intros (((((((Ht & Hc) & Hp) & Ht1) & Ht2) & Hb1) & Hb2) & Hd).
    split; [exact Ht|]. split; [|split; [|split; [|split; [|split; [|split]]]]].
    + intros c Hsome Hne. unfold or_else in Hc. rewrite Hsome in Hc.
      apply String.eqb_neq in Hne. now rewrite Hne in Hc.
    + intros p Hsome Hne. unfold or_else in Hp. rewrite Hsome in Hp.
      apply String.eqb_neq in Hne. now rewrite Hne in Hp.
    + now apply String.eqb_neq.
    + exact Ht2.
    + now apply String.eqb_neq.
    + exact Hb2.
    + intros d e Hsome He. rewrite Hsome, He in Hd. now apply one_of_spec.
  - intros (Ht & Hc & Hp & Ht1 & Ht2 & Hb1 & Hb2 & Hd).
    repeat split; try exact Ht; try exact Ht2; try exact Hb2;
      try (now apply String.eqb_neq).
    + destruct (or_else_cases (p_category pl) (inferCategory (p_type pl)))
        as [(c & Hsome & Hne & ->) | [_ ->]]; [now apply Hc|].
      pose proof (inferCategory_cases (p_type pl)) as Hin. cbn in Hin |- *.
      tauto.
    + destruct (or_else_cases (p_priority pl) "normal")
        as [(p & Hsome & Hne & ->) | [_ ->]]; [now apply Hp|].
      cbn. tauto.
    + destruct (p_data pl) as [d|]; [|reflexivity].
      destruct (entityType d) as [e|] eqn:He; [|reflexivity].
      apply one_of_spec. now apply (Hd d e).
Qed.

(** What step 7 makes of the status. *)
Lemma deliver_email_status (env : environment) (p : Preferences.t)
    (channels : decision) (n : Notification.t) :
  Notification.status (deliver_email env p channels n)
  = if email_at_once p channels n
    then (if String.eqb (Notification.status n) "pending"
          then "delivered" else Notification.status n)
    else Notification.status n.
Proof.
  unfold deliver_email, email_at_once.
  destruct (d_email channels); cbn [andb]; [|reflexivity].
  destruct (String.eqb (Preferences.frequency (Preferences.digest p)) "never"
            || String.eqb (Notification.priority n) "urgent"); [|reflexivity].
  change (Notification.status
            (Notification.set_includeInDigest false
               (Notification.markChannelDelivered "email" (now env) n)))
    with (Notification.status
            (Notification.markChannelDelivered "email" (now env) n)).
  unfold Notification.markChannelDelivered. cbn.
  unfold Notification.any_delivered. cbn. rewrite orb_true_r. cbn [andb].
  destruct (String.eqb (Notification.status n) "pending"); reflexivity.
Qed.
(** One dispatch, by cases on who saves and on the validation. *)
Lemma send_cases (st : store) (env : environment) (recipientId : Z)
    (pl : payload) :
  let prefs := fst (load_preferences st recipientId) in
  let st1 := snd (load_preferences st recipientId) in
  let saving := live prefs env recipientId pl || mailed prefs pl in
  let sent := send st env recipientId pl in
  let n := built st env recipientId pl in
  (Notification.recipient n = recipientId
   /\ Notification.read n = false /\ Notification.clicked n = false
   /\ Notification.createdAt n = now env
   /\ Notification.inApp_delivered (Notification.inApp (Notification.channels n))
      = live prefs env recipientId pl
   /\ Notification.push_delivered (Notification.push (Notification.channels n))
      = false
   /\ Notification.status n = (if saving then "delivered" else "pending"))
  /\ socket_emitted (done_ sent) = live prefs env recipientId pl
  /\ preferences (after sent) = preferences st1
  /\ (acceptable pl = true ->
      saved sent = Some n
      /\ notifications (after sent) = (notifications st ++ [n])%list
      /\ returned sent
         = (if saving then Rejected ParallelSaveError else Resolved n))
  /\ (acceptable pl = false ->
      saved sent = None
      /\ notifications (after sent) = notifications st
      /\ returned sent
         = Rejected (if saving then ParallelSaveError else ValidationError)).
Proof.
  cbv zeta.
  destruct (send_saving st env recipientId pl) as (Hlive & Hmailed & _ & Hsock).
  cbv zeta in Hlive, Hmailed, Hsock.
  rewrite Hsock, Hlive. clear Hsock.
  rewrite send_unfold. cbv zeta. rewrite Hlive, Hmailed.
  unfold built.
  set (prefs := fst (load_preferences st recipientId)) in *.
  set (st1 := snd (load_preferences st recipientId)) in *.
  assert (Hst1 : notifications st1 = notifications st).
  { unfold st1, load_preferences. destruct (List.find _ _); reflexivity. }
  set (n0 := new_notification (next_id st1) (now env) recipientId pl) in *.
  set (channels := quiet_hours_gate prefs (now env) (Notification.priority n0)
                     (decide prefs (Notification.category n0))) in *.
  split.
  - clear Hst1.
    destruct (deliver_email_flags env prefs channels
                (fst (deliver_inApp env recipientId channels n0)))
      as (_ & _ & HinApp & Hpush & Hnow & Hlater).
    cbv zeta in HinApp, Hpush, Hnow, Hlater.
    rewrite Hmailed in Hnow, Hlater.
    assert (Hfirst :
      let n1 := fst (deliver_inApp env recipientId channels n0) in
      Notification.inApp_delivered (Notification.inApp (Notification.channels n1))
      = live prefs env recipientId pl
      /\ Notification.push_delivered (Notification.push (Notification.channels n1))
         = false
      /\ Notification.status n1
         = (if live prefs env recipientId pl then "delivered" else "pending")).
    { cbv zeta. rewrite <- Hlive. unfold deliver_inApp.
      destruct (d_inApp channels), (isUserOnline env recipientId);
        cbn [fst snd]; repeat split. }
    cbv zeta in Hfirst. destruct Hfirst as (H1 & H2 & H3).
    rewrite HinApp, Hpush.
    split; [|split; [|split; [|split; [|split; [exact H1 | split; [exact H2|]]]]]].
    1-4: unfold deliver_email, deliver_inApp;
      repeat match goal with
             | |- context [if ?c then _ else _] => destruct c
             end; cbn [fst];
      rewrite ?(proj1 (proj2 (proj2 (markChannelDelivered_step _ _ _))));
      try reflexivity.
    all: try (unfold Notification.markChannelDelivered; cbn;
              repeat match goal with
                     | |- context [if ?c then _ else _] => destruct c
                     end; reflexivity).
    rewrite deliver_email_status, Hmailed, H3.
    destruct (live prefs env recipientId pl), (mailed prefs pl); reflexivity.
  - split.
    { repeat match goal with |- context [if ?c then _ else _] => destruct c end;
        reflexivity. }
    split.
    { repeat match goal with |- context [if ?c then _ else _] => destruct c end;
        reflexivity. }
    split; intros ->;
      destruct (live prefs env recipientId pl || mailed prefs pl);
      cbn [saved after notifications returned]; rewrite ?Hst1; auto.
Qed.

(** X7. For a type that is not the name of a member every object inherits
    ('constructor', 'toString', ...), [inferCategory] answers with one of
    'social', 'content', 'messaging', 'events' and 'system' (never
    'marketing'), 'system' for every type outside its table.  [send]
    resolves exactly for the payloads that pass the schema (a type of the
    enum, a category, a priority and an entity type of their enums when
    given, a title of 1 to 200 and a body of 1 to 500 code units) and for
    which neither step 5 nor step 7 called [markChannelDelivered]; it
    rejects with a ParallelSaveError exactly when one of them did, and
    with the validation error exactly when none did and the payload does
    not pass. *)
Theorem send_resolves_iff (st : store) (env : environment) (recipientId : Z)
    (pl : payload) :
  ~ In (p_type pl) Object_prototype ->
  let prefs := fst (load_preferences st recipientId) in
  let saving := live prefs env recipientId pl || mailed prefs pl in
  let sent := send st env recipientId pl in
  In (inferCategory (p_type pl))
     ["social"; "content"; "messaging"; "events"; "system"]
  /\ (category_of_type !! p_type pl = None ->
      inferCategory (p_type pl) = "system")
  /\ ((exists n, returned sent = Resolved n)
      <-> well_formed pl /\ saving = false)
  /\ (returned sent = Rejected ParallelSaveError <-> saving = true)
  /\ (returned sent = Rejected ValidationError
      <-> ~ well_formed pl /\ saving = false).
Proof.
  intros _. cbv zeta.
  split; [apply inferCategory_cases|].
  split; [intros H; unfold inferCategory; now rewrite H|].
  rewrite <- acceptable_spec.
  destruct (send_cases st env recipientId pl) as (_ & _ & _ & Hyes & Hno).
  cbv zeta in Hyes, Hno.
  destruct (acceptable pl);
    [destruct (Hyes eq_refl) as (_ & _ & ->)
    | destruct (Hno eq_refl) as (_ & _ & ->)];
    destruct (live _ env recipientId pl || mailed _ pl);
    repeat split; intros;
    repeat match goal with
           | H : _ /\ _ |- _ => destruct H
           | H : exists _, _ |- _ => destruct H
           end;
    try discriminate; try congruence; eauto.
Qed.

Lemma send_resolves_iff_witness :
  (exists n, returned (send Examples.alice_store Examples.noon Examples.alice
                            Examples.new_like) = Resolved n)
  /\ returned (send Examples.alice_store Examples.nobody_online Examples.alice
                    Examples.urgent_alert)
     = Rejected ParallelSaveError.
Proof.
  split.
  - apply (proj1 (proj2 (proj2
             (send_resolves_iff Examples.alice_store Examples.noon
                Examples.alice Examples.new_like
                ltac:(cbn; intuition discriminate))))).
    split; [apply acceptable_spec|]; reflexivity.
  - apply (proj1 (proj2 (proj2 (proj2
             (send_resolves_iff Examples.alice_store Examples.nobody_online
                Examples.alice Examples.urgent_alert
                ltac:(cbn; intuition discriminate)))))).
    reflexivity.
Defined.

(** X8. What a dispatch leaves in the store.  For a payload that passes
    the schema the notification collection is the old one with one record
    appended, for that recipient, unread and unclicked: the record [send]
    resolves with, or, when [send] rejects with a ParallelSaveError, the
    record the save already running inserted.  For any other payload the
    collection is unchanged and [send] rejects.  The recipient's stored
    preferences are never modified: they are found, or the schema
    defaults are appended for that user (also when [send] then rejects);
    afterwards a preference document for the recipient exists. *)
Theorem send_store (st : store) (env : environment) (recipientId : Z)
    (pl : payload) :
  let sent := send st env recipientId pl in
  let found :=
    List.find (fun d => Preferences.user d =? recipientId) (preferences st) in
  (well_formed pl ->
   exists n,
     saved sent = Some n
     /\ notifications (after sent) = (notifications st ++ [n])%list
     /\ (returned sent = Resolved n
         \/ returned sent = Rejected ParallelSaveError)
     /\ Notification.recipient n = recipientId
     /\ Notification.read n = false /\ Notification.clicked n = false
     /\ Notification.createdAt n = now env)
  /\ (~ well_formed pl ->
      saved sent = None
      /\ notifications (after sent) = notifications st
      /\ exists why, returned sent = Rejected why)
  /\ match found with
     | Some p => preferences (after sent) = preferences st
     | None =>
         preferences (after sent)
         = (preferences st ++ [Preferences.defaults (next_id st) recipientId])%list
     end
  /\ exists p, List.find (fun d => Preferences.user d =? recipientId)
                         (preferences (after sent)) = Some p
               /\ Preferences.user p = recipientId.
Proof.
  cbv zeta.
  destruct (send_cases st env recipientId pl)
    as ((Hr & Hread & Hclicked & Hcreated & _) & _ & Hprefs & Hyes & Hno).
  cbv zeta in *. rewrite Hprefs.
  assert (Hload :
    match List.find (fun d => Preferences.user d =? recipientId)
                    (preferences st) with
    | Some p => preferences (snd (load_preferences st recipientId))
                = preferences st
    | None => preferences (snd (load_preferences st recipientId))
              = (preferences st
                 ++ [Preferences.defaults (next_id st) recipientId])%list
    end
    /\ exists p, List.find (fun d => Preferences.user d =? recipientId)
                           (preferences (snd (load_preferences st recipientId)))
                 = Some p
                 /\ Preferences.user p = recipientId).
  { unfold load_preferences.
    destruct (List.find _ (preferences st)) as [p|] eqn:Hfind; cbn [snd].
    - split; [reflexivity|]. exists p.
      split; [exact Hfind|]. apply find_some in Hfind as [_ Hu].
      now apply Z.eqb_eq in Hu.
    - split; [reflexivity|].
      exists (Preferences.defaults (next_id st) recipientId).
      split; [|reflexivity]. cbn [preferences].
      induction (preferences st) as [|d l IH]; cbn in *.
      + now rewrite Z.eqb_refl.
      + destruct (Preferences.user d =? recipientId); [discriminate|].
        now apply IH. }
  destruct Hload as (Hp & Hex).
  split; [|split; [|split; [exact Hp | exact Hex]]].
  - intros Hwf. apply acceptable_spec in Hwf.
    destruct (Hyes Hwf) as (Hs & Hn & Hret).
    exists (built st env recipientId pl).
    split; [exact Hs|]. split; [exact Hn|].
    split; [rewrite Hret; destruct (live _ env recipientId pl || mailed _ pl);
            auto|].
    auto.
  - intros Hwf.
    assert (Hacc : acceptable pl = false).
    { destruct (acceptable pl) eqn:H; [|reflexivity].
      apply acceptable_spec in H. contradiction. }
    destruct (Hno Hacc) as (Hs & Hn & Hret). eauto.
Qed.

(** X9. The record a dispatch persists, for a payload that passes the
    schema.  It is marked delivered in-app exactly when the in-app channel
    is allowed for its category and the recipient is online, which is also
    when the socket event is emitted; push is never marked delivered by
    [send] itself; its status is 'delivered' when the in-app delivery
    happened or the e-mail was sent at once, 'pending' otherwise.  [send]
    resolves with that record exactly when its status is 'pending', and
    rejects with a ParallelSaveError exactly when it is 'delivered'. *)
Theorem send_live_delivery (st : store) (env : environment) (recipientId : Z)
    (pl : payload) :
  well_formed pl ->
  let prefs := fst (load_preferences st recipientId) in
  let sent := send st env recipientId pl in
  exists n : Notification.t,
    saved sent = Some n
    /\ last (notifications (after sent)) = Some n
    /\ (Notification.inApp_delivered
          (Notification.inApp (Notification.channels n)) = true
        <-> Preferences.shouldSend prefs "inApp" (category_for pl) = true
            /\ isUserOnline env recipientId = true)
    /\ socket_emitted (done_ sent)
       = Notification.inApp_delivered
           (Notification.inApp (Notification.channels n))
    /\ Notification.push_delivered
         (Notification.push (Notification.channels n)) = false
    /\ (Notification.status n = "delivered"
        <-> live prefs env recipientId pl || mailed prefs pl = true)
    /\ (Notification.status n = "pending"
        <-> live prefs env recipientId pl || mailed prefs pl = false)
    /\ (returned sent = Resolved n <-> Notification.status n = "pending")
    /\ (returned sent = Rejected ParallelSaveError
        <-> Notification.status n = "delivered").
Proof.
  intros Hwf. apply acceptable_spec in Hwf. cbv zeta.
  destruct (send_cases st env recipientId pl)
    as ((_ & _ & _ & _ & Hin & Hpush & Hstatus) & Hsock & _ & Hyes & _).
  cbv zeta in *. destruct (Hyes Hwf) as (Hs & Hn & Hret).
  exists (built st env recipientId pl).
  split; [exact Hs|]. split; [rewrite Hn; apply last_snoc|].
  split; [rewrite Hin; apply andb_true_iff|].
  split; [now rewrite Hsock, Hin|]. split; [exact Hpush|].
  rewrite Hstatus, Hret.
  destruct (live _ env recipientId pl || mailed _ pl);
    repeat split; intros; try reflexivity; discriminate.
Qed.

Lemma send_live_delivery_witness :
  exists n : Notification.t,
    saved (send Examples.alice_store Examples.late_evening Examples.alice
                Examples.new_like) = Some n
    /\ Notification.inApp_delivered
         (Notification.inApp (Notification.channels n)) = true
    /\ Notification.status n = "delivered"
    /\ returned (send Examples.alice_store Examples.late_evening Examples.alice
                      Examples.new_like)
       = Rejected ParallelSaveError.
Proof.
  assert (Hwf : well_formed Examples.new_like).
  { apply acceptable_spec. reflexivity. }
  destruct (send_live_delivery Examples.alice_store Examples.late_evening
              Examples.alice Examples.new_like Hwf)
    as (n & Hsaved & _ & Hlive & _ & _ & Hdelivered & _ & _ & Hrejected).
  exists n. split; [exact Hsaved|].
  split; [apply Hlive; split; reflexivity|].
  assert (Hst : Notification.status n = "delivered")
    by (apply Hdelivered; reflexivity).
  split; [exact Hst | now apply Hrejected].
Defined.

Lemma sendToUser_success (svc : PushService.service)
    (tr : PushService.transport) (coll : list Preferences.t)
    (p : Preferences.t) :
  PushService.success (PushService.result (PushService.sendToUser svc tr coll p))
    = true
  <-> PushService.configured svc = true
      /\ exists c, In c (PushService.calls p) /\ PushService.accepted tr c = true.
Proof.
  destruct (PushService.configured svc) eqn:Hc.
  - rewrite (sendToUser_unfold svc tr coll p Hc). cbv zeta.
    cbn [PushService.result PushService.success].
    rewrite (proj2 (fan_out_results tr (Preferences.pushSubscriptions p) 0)).
    fold (PushService.calls p). rewrite Nat.ltb_lt. split.
    + intros Hpos. split; [reflexivity|].
      destruct (List.filter (PushService.accepted tr) (PushService.calls p))
        as [|c l] eqn:Hf; [cbn in Hpos; lia|].
      assert (Hin : In c (List.filter (PushService.accepted tr)
                                      (PushService.calls p)))
        by (rewrite Hf; now left).
      apply filter_In in Hin. eauto.
    + intros (_ & c & Hin & Hacc).
      assert (Hin' : In c (List.filter (PushService.accepted tr)
                                       (PushService.calls p)))
        by (apply filter_In; auto).
      destruct (List.filter (PushService.accepted tr) (PushService.calls p));
        [destruct Hin' | cbn; lia].
  - unfold PushService.sendToUser. rewrite Hc. cbn. split; [discriminate|].
    intros [H _]. discriminate.
Qed.

(** X10. Once the push fan-out of a dispatch has completed, for a payload
    that passes the schema: the stored record is marked delivered by push
    exactly when [send] started the fan-out, the push service is
    configured, at least one registered endpoint accepted the
    notification, and the [save()] of the callback was not refused because
    the save of the record was still writing.  When [send] did not start
    the fan-out, no subscription is pruned. *)
Theorem dispatch_push_delivery (svc : PushService.service)
    (tr : PushService.transport) (st : store) (env : environment)
    (when : PushSettle.moment) (settled_at : Z) (recipientId : Z)
    (pl : payload) :
  acceptable pl = true ->
  let sent := send st env recipientId pl in
  let prefs := fst (load_preferences st recipientId) in
  let done :=
    PushSettle.dispatch svc tr st env when settled_at recipientId pl in
  (exists n : Notification.t,
     fst done = Some n
     /\ (Notification.push_delivered
           (Notification.push (Notification.channels n)) = true
         <-> push_started (done_ sent) = true
             /\ PushService.configured svc = true
             /\ (exists c, In c (PushService.calls prefs)
                           /\ PushService.accepted tr c = true)
             /\ when <> PushSettle.DuringSave))
  /\ (push_started (done_ sent) = false ->
      snd done = preferences (after sent)).
Proof.
  intros Hok. cbv zeta.
  destruct (send_cases st env recipientId pl)
    as ((_ & _ & _ & _ & _ & Hpush & _) & _ & _ & Hyes & _).
  cbv zeta in Hpush, Hyes. destruct (Hyes Hok) as (Hs & _ & _).
  unfold PushSettle.dispatch. rewrite Hs.
  set (n := built st env recipientId pl) in *.
  destruct (push_started (done_ (send st env recipientId pl))) eqn:Hstarted.
  - cbn [fst snd]. split; [|discriminate].
    eexists. split; [reflexivity|].
    unfold PushSettle.settled, PushSettle.sendPush.
    destruct when; cbn [PushSettle.reaches_store].
    2: { rewrite Hpush. split; [discriminate|].
         intros (_ & _ & _ & H). now contradiction H. }
    all: destruct (PushService.success _) eqn:Hsuccess;
      [ apply sendToUser_success in Hsuccess as [Hc Hex];
        split; [intros _; repeat split; auto; discriminate|];
        intros _; unfold Notification.markChannelDelivered; cbn;
        match goal with |- context [if ?c then _ else _] => destruct c end;
        reflexivity
      | rewrite Hpush; split; [discriminate|];
        intros (_ & Hc & Hex & _);
        assert (Hyes' := proj2 (sendToUser_success svc tr
                                 (preferences (after (send st env recipientId pl)))
                                 (fst (load_preferences st recipientId)))
                               (conj Hc Hex));
        rewrite Hyes' in Hsuccess; discriminate ].
  - cbn [fst snd]. split; [|reflexivity].
    exists n. split; [reflexivity|]. rewrite Hpush.
    split; [discriminate | intros [H _]; discriminate].
Qed.

Lemma dispatch_push_delivery_witness :
  exists n : Notification.t,
    fst (PushSettle.dispatch (PushService.Service true)
           Examples.all_accepted Examples.alice_store Examples.noon
           PushSettle.AfterSave (12 * 3600000 + 40) Examples.alice
           Examples.new_like) = Some n
    /\ Notification.push_delivered
         (Notification.push (Notification.channels n)) = true.
Proof.
  destruct (dispatch_push_delivery (PushService.Service true)
              Examples.all_accepted Examples.alice_store Examples.noon
              PushSettle.AfterSave (12 * 3600000 + 40) Examples.alice
              Examples.new_like eq_refl)
    as [(n & Hn & Hiff) _].
  exists n. split; [exact Hn|]. apply Hiff.
  split; [reflexivity|]. split; [reflexivity|].
  split; [|discriminate].
  exists (0%nat, Examples.laptop). split; [left; reflexivity | reflexivity].
Defined.

End DispatcherEffects.

(** ** Push subscriptions and preference documents *)

Section SubscriptionHandlers.

Import Preferences Subscriptions.

Lemma find_user_some (coll : list Preferences.t) (userId : Z)
    (p : Preferences.t) :
  List.find (fun d => user d =? userId) coll = Some p ->
  In p coll /\ user p = userId.
Proof.
  intros H. apply find_some in H as [Hin Hu]. now apply Z.eqb_eq in Hu.
Qed.

(** Writing back a document found by user leaves it the one found by
    user. *)
Lemma find_replace_doc (coll : list Preferences.t) (userId : Z)
    (p p' : Preferences.t) :
  List.find (fun d => user d =? userId) coll = Some p ->
  _id p' = _id p -> user p' = userId ->
  List.find (fun d => user d =? userId) (Controller.replace_doc p' coll)
  = Some p'.
Proof.
  intros Hfind Hid Hu. induction coll as [|d coll IH]; [discriminate|].
  cbn in Hfind |- *. destruct (user d =? userId) eqn:Hd.
  - injection Hfind as ->. rewrite Hid, Z.eqb_refl. cbn.
    rewrite Hu, Z.eqb_refl. reflexivity.
  - destruct (_id d =? _id p') eqn:Hsame; cbn.
    + now rewrite Hu, Z.eqb_refl.
    + rewrite Hd. now apply IH.
Qed.

Lemma find_app_new (coll : list Preferences.t) (userId : Z)
    (p : Preferences.t) :
  List.find (fun d => user d =? userId) coll = None ->
  user p = userId ->
  List.find (fun d => user d =? userId) (coll ++ [p]) = Some p.
Proof.
  intros Hnone Hu. induction coll as [|d coll IH]; cbn in *.
  - now rewrite Hu, Z.eqb_refl.
  - destruct (user d =? userId); [discriminate | now apply IH].
Qed.

Lemma existsb_endpoint (e : string) (subs : list push_subscription) :
  existsb (fun s' => String.eqb (endpoint s') e) subs = true
  <-> In e (map endpoint subs).
Proof.
  rewrite existsb_exists, in_map_iff. split.
  - intros (s & Hs & Heq). apply String.eqb_eq in Heq. eauto.
  - intros (s & Heq & Hs). exists s. split; [exact Hs|].
    now apply String.eqb_eq.
Qed.

(** The three ways a well-formed subscription request ends. *)
Lemma subscribePush_cases (coll : list Preferences.t) (fresh userId : Z)
    (e p256dh auth : string) :
  e <> "" ->
  let b := Body (Some e) (Some (p256dh, auth)) in
  let s := PushSubscription e p256dh auth in
  (List.find (fun d => user d =? userId) coll = None
   /\ subscribePush coll fresh userId b
      = ((coll ++ [with_subscriptions (defaults fresh userId) [s]])%list, 200))
  \/ (exists p,
        List.find (fun d => user d =? userId) coll = Some p
        /\ In e (map endpoint (pushSubscriptions p))
        /\ subscribePush coll fresh userId b = (coll, 200))
  \/ (exists p,
        List.find (fun d => user d =? userId) coll = Some p
        /\ ~ In e (map endpoint (pushSubscriptions p))
        /\ ((Controller.valid p = true
             /\ subscribePush coll fresh userId b
                = (Controller.replace_doc
                     (with_subscriptions p (pushSubscriptions p ++ [s])) coll,
                   200))
            \/ (Controller.valid p = false
                /\ subscribePush coll fresh userId b = (coll, 500)))).
Proof.
  intros He. cbv zeta. unfold subscribePush. cbn [b_endpoint b_keys].
  apply String.eqb_neq in He. rewrite He.
  destruct (List.find _ coll) as [p|] eqn:Hfind; [|left; auto].
  right.
  destruct (existsb _ (pushSubscriptions p)) eqn:Hex; cbn [negb].
  - left. exists p. split; [reflexivity|]. split; [|reflexivity].
    now apply existsb_endpoint.
  - right. exists p. split; [reflexivity|]. split.
    + intros Hin. apply existsb_endpoint in Hin. congruence.
    + change (Controller.valid
                (with_subscriptions p
                   (pushSubscriptions p ++ [PushSubscription e p256dh auth])))
        with (Controller.valid p).
      destruct (Controller.valid p); [left | right]; auto.
Qed.

(** X11. A subscription request without an endpoint or without keys is
    answered 400 and stores nothing.  A request answered 200 leaves the
    endpoint registered for the user; every endpoint registered before is
    still registered; and if the user's endpoints were pairwise distinct
    they still are: an endpoint is never stored twice. *)
Theorem subscribePush_registers (coll : list Preferences.t)
    (fresh userId : Z) (b : body) :
  let done := subscribePush coll fresh userId b in
  ((Js.truthy_string (b_endpoint b) = false \/ b_keys b = None) ->
   done = (coll, 400))
  /\ (snd done = 200 ->
      exists e, b_endpoint b = Some e
        /\ In e (endpoints_of (fst done) userId)
        /\ (forall e', In e' (endpoints_of coll userId) ->
                       In e' (endpoints_of (fst done) userId))
        /\ (NoDup (endpoints_of coll userId) ->
            NoDup (endpoints_of (fst done) userId))).
Proof.
  cbv zeta. split.
  - unfold subscribePush, Js.truthy_string.
    destruct (b_endpoint b) as [e|], (b_keys b) as [[k1 k2]|];
      intros [H | H]; try discriminate; try reflexivity.
    apply negb_false_iff in H. now rewrite H.
  - destruct (b_endpoint b) as [e|] eqn:Hbe;
      [|unfold subscribePush; rewrite Hbe; discriminate].
    destruct (b_keys b) as [[p256dh auth]|] eqn:Hbk;
      [|unfold subscribePush; rewrite Hbe, Hbk; discriminate].
    destruct (String.eqb_spec e "") as [-> | Hne];
      [unfold subscribePush; rewrite Hbe, Hbk; discriminate|].
    assert (Hb : b = Body (Some e) (Some (p256dh, auth)))
      by (destruct b; cbn in *; congruence).
    rewrite Hb.
    destruct (subscribePush_cases coll fresh userId e p256dh auth Hne)
      as [[Hnone ->] | [(p & Hfind & Hin & ->)
                       | (p & Hfind & Hnin & [[Hv ->] | [Hv ->]])]];
      cbn [fst snd]; try discriminate; intros _; exists e;
      (split; [reflexivity|]); unfold endpoints_of.
    + rewrite (find_app_new coll userId
                 (with_subscriptions (defaults fresh userId)
                    [PushSubscription e p256dh auth]) Hnone eq_refl), Hnone.
      cbn.
      split; [auto|]. split; [intros ? []|]. intros _.
      apply NoDup_singleton.
    + rewrite Hfind. auto.
    + destruct (find_user_some coll userId p Hfind) as [_ Hu].
      rewrite (find_replace_doc coll userId p
                 (with_subscriptions p
                    (pushSubscriptions p ++ [PushSubscription e p256dh auth]))
                 Hfind eq_refl Hu), Hfind.
      cbn [with_subscriptions pushSubscriptions]. rewrite map_app. cbn [map endpoint].
      split; [apply in_app_iff; right; now left|].
      split; [intros e' He'; apply in_app_iff; now left|].
      intros Hnd. apply NoDup_app. split; [exact Hnd|].
      split; [|apply NoDup_singleton].
      intros x Hx Hx'. apply list_elem_of_In in Hx, Hx'.
      destruct Hx' as [<- | []]. contradiction.
Qed.

Lemma subscribePush_registers_witness :
  exists e, b_endpoint (Body (Some "https://push.example/z") (Some ("k", "a")))
            = Some e
    /\ In e (endpoints_of
               (fst (subscribePush [Examples.alice_preferences] 30
                       Examples.alice
                       (Body (Some "https://push.example/z") (Some ("k", "a")))))
               Examples.alice).
Proof.
  destruct (proj2 (subscribePush_registers [Examples.alice_preferences] 30
                     Examples.alice
                     (Body (Some "https://push.example/z") (Some ("k", "a"))))
                  eq_refl)
    as (e & He & Hin & _).
  exists e. split; [exact He | exact Hin].
Defined.

(** X12. Subscribing is idempotent: after a request answered 200, the same
    request again is answered 200 and changes nothing in the store. *)
Theorem subscribePush_idempotent (coll : list Preferences.t)
    (fresh fresh' userId : Z) (b : body) :
  snd (subscribePush coll fresh userId b) = 200 ->
  subscribePush (fst (subscribePush coll fresh userId b)) fresh' userId b
  = (fst (subscribePush coll fresh userId b), 200).
Proof.
  destruct (b_endpoint b) as [e|] eqn:Hbe;
    [|unfold subscribePush at 1; rewrite Hbe; discriminate].
  destruct (b_keys b) as [[p256dh auth]|] eqn:Hbk;
    [|unfold subscribePush at 1; rewrite Hbe, Hbk; discriminate].
  destruct (String.eqb_spec e "") as [-> | Hne];
    [unfold subscribePush at 1; rewrite Hbe, Hbk; discriminate|].
  assert (Hb : b = Body (Some e) (Some (p256dh, auth)))
    by (destruct b; cbn in *; congruence).
  rewrite Hb. set (s := PushSubscription e p256dh auth).
  assert (Hagain : forall coll' p',
            List.find (fun d => user d =? userId) coll' = Some p' ->
            In e (map endpoint (pushSubscriptions p')) ->
            subscribePush coll' fresh' userId (Body (Some e) (Some (p256dh, auth)))
            = (coll', 200)).
  { intros coll' p' Hfind Hin.
    destruct (subscribePush_cases coll' fresh' userId e p256dh auth Hne)
      as [[Hnone _] | [(p & _ & _ & Heq)
                      | (p & Hfind' & Hnin & _)]];
      [congruence | exact Heq | ].
    rewrite Hfind in Hfind'. injection Hfind' as <-. contradiction. }
  destruct (subscribePush_cases coll fresh userId e p256dh auth Hne)
    as [[Hnone ->] | [(p & Hfind & Hin & ->)
                     | (p & Hfind & Hnin & [[Hv ->] | [Hv ->]])]];
    cbn [fst snd]; try discriminate; intros _.
  - apply (Hagain _ (with_subscriptions (defaults fresh userId) [s])).
    + apply find_app_new; [exact Hnone | reflexivity].
    + cbn. now left.
  - now apply (Hagain coll p).
  - destruct (find_user_some coll userId p Hfind) as [_ Hu].
    apply (Hagain _ (with_subscriptions p (pushSubscriptions p ++ [s]))).
    + apply (find_replace_doc coll userId p); [exact Hfind | reflexivity | exact Hu].
    + cbn [with_subscriptions pushSubscriptions]. rewrite map_app.
      apply in_app_iff. right. now left.
Qed.

Lemma subscribePush_idempotent_witness :
  subscribePush
    (fst (subscribePush [Examples.alice_preferences] 30 Examples.alice
            (Body (Some "https://push.example/z") (Some ("k", "a")))))
    31 Examples.alice
    (Body (Some "https://push.example/z") (Some ("k", "a")))
  = (fst (subscribePush [Examples.alice_preferences] 30 Examples.alice
            (Body (Some "https://push.example/z") (Some ("k", "a")))), 200).
Proof.
  apply (subscribePush_idempotent [Examples.alice_preferences] 30 31
           Examples.alice
           (Body (Some "https://push.example/z") (Some ("k", "a")))).
  reflexivity.
Defined.

Lemma find_updateOne (coll : list Preferences.t) (userId : Z)
    (change : Preferences.t -> Preferences.t) :
  (forall d, user (change d) = user d) ->
  forall other : Z,
    List.find (fun d => user d =? other)
              (PushService.updateOne (fun d => user d =? userId) change coll)
    = if other =? userId
      then option_map change (List.find (fun d => user d =? userId) coll)
      else List.find (fun d => user d =? other) coll.
Proof.
  intros Hch other. induction coll as [|d coll IH]; cbn.
  - now destruct (other =? userId).
  - destruct (user d =? userId) eqn:Hd; cbn.
    + rewrite Hch. apply Z.eqb_eq in Hd. rewrite Hd.
      rewrite (Z.eqb_sym other userId).
      now destruct (userId =? other).
    + rewrite IH. destruct (Z.eqb_spec other userId) as [Heq | Hne].
      * rewrite Heq. now rewrite Hd.
      * reflexivity.
Qed.

Lemma endpoints_pulled (e : string) (subs : list push_subscription) :
  map endpoint
      (List.filter (fun s => negb (existsb (String.eqb (endpoint s)) [e])) subs)
  = List.filter (fun x => negb (String.eqb x e)) (map endpoint subs).
Proof.
  induction subs as [|s subs IH]; [reflexivity|]. cbn.
  rewrite orb_false_r. destruct (String.eqb (endpoint s) e); cbn;
    now rewrite <- IH.
Qed.

(** X13. Unsubscribing removes exactly the given endpoint from the user's
    registered endpoints, keeps the others in order, and leaves every
    other user's endpoints alone.  Subscribing an endpoint that was not
    registered and then unsubscribing it restores the user's endpoints. *)
Theorem unsubscribePush_removes (coll : list Preferences.t) (userId : Z)
    (e : string) :
  endpoints_of (unsubscribePush coll userId e) userId
  = List.filter (fun x => negb (String.eqb x e)) (endpoints_of coll userId)
  /\ ~ In e (endpoints_of (unsubscribePush coll userId e) userId)
  /\ (forall other, other <> userId ->
        endpoints_of (unsubscribePush coll userId e) other
        = endpoints_of coll other)
  /\ (forall (fresh : Z) (p256dh auth : string),
        ~ In e (endpoints_of coll userId) ->
        snd (subscribePush coll fresh userId (Body (Some e) (Some (p256dh, auth))))
          = 200 ->
        endpoints_of
          (unsubscribePush
             (fst (subscribePush coll fresh userId
                     (Body (Some e) (Some (p256dh, auth)))))
             userId e) userId
        = endpoints_of coll userId).
Proof.
  assert (Hmain : forall coll',
    endpoints_of (unsubscribePush coll' userId e) userId
    = List.filter (fun x => negb (String.eqb x e)) (endpoints_of coll' userId)).
  { intros coll'. unfold endpoints_of, unsubscribePush.
    rewrite (find_updateOne coll' userId (PushService.pull_endpoints [e])
               (fun d => eq_refl) userId).
    rewrite Z.eqb_refl.
    destruct (List.find _ coll') as [p|]; cbn [option_map]; [|reflexivity].
    cbn [PushService.pull_endpoints pushSubscriptions].
    apply endpoints_pulled. }
  assert (Hfilter_id : forall l : list string,
            ~ In e l -> List.filter (fun x => negb (String.eqb x e)) l = l).
  { induction l as [|x l IH]; intros Hnin; [reflexivity|]. cbn.
    destruct (String.eqb_spec x e) as [-> | Hne]; cbn.
    - exfalso. apply Hnin. now left.
    - rewrite IH; [reflexivity|]. intros H. apply Hnin. now right. }
  split; [apply Hmain|]. split; [|split].
  - rewrite Hmain. intros Hin. apply filter_In in Hin as [_ Hne].
    now rewrite String.eqb_refl in Hne.
  - intros other Hother. unfold endpoints_of, unsubscribePush.
    rewrite (find_updateOne coll userId (PushService.pull_endpoints [e])
               (fun d => eq_refl) other).
    apply Z.eqb_neq in Hother. now rewrite Hother.
  - intros fresh p256dh auth Hnin Hok. rewrite Hmain.
    destruct (String.eqb_spec e "") as [-> | Hne];
      [unfold subscribePush in Hok; cbn in Hok; discriminate|].
    destruct (subscribePush_cases coll fresh userId e p256dh auth Hne)
      as [[Hnone Heq] | [(p & Hfind & Hin & Heq)
                        | (p & Hfind & _ & [[Hv Heq] | [Hv Heq]])]];
      cbv zeta in Heq; rewrite Heq in Hok |- *; cbn [fst snd] in *;
      try discriminate.
    + unfold endpoints_of.
      rewrite (find_app_new coll userId
                 (with_subscriptions (defaults fresh userId)
                    [PushSubscription e p256dh auth]) Hnone eq_refl), Hnone.
      cbn. now rewrite String.eqb_refl.
    + exfalso. apply Hnin. unfold endpoints_of. now rewrite Hfind.
    + destruct (find_user_some coll userId p Hfind) as [_ Hu].
      unfold endpoints_of in Hnin |- *.
      rewrite (find_replace_doc coll userId p
                 (with_subscriptions p
                    (pushSubscriptions p ++ [PushSubscription e p256dh auth]))
                 Hfind eq_refl Hu).
      rewrite Hfind in Hnin |- *.
      cbn [with_subscriptions pushSubscriptions]. rewrite map_app.
      rewrite List.filter_app. cbn [map endpoint List.filter].
      rewrite String.eqb_refl. cbn [negb].
      rewrite Hfilter_id by exact Hnin. apply app_nil_r.
Qed.

(** X14. Reading preferences is get-or-create: the document returned is
    the user's and is stored afterwards; reading again returns the same
    document and stores nothing more; a user without a document gets the
    schema defaults; no other user's document is affected, and users that
    had at most one document each still have.  The dispatcher loads its
    preferences the same way. *)
Theorem getPreferences_get_or_create (coll : list Preferences.t)
    (fresh fresh' userId : Z) :
  let coll' := fst (getPreferences coll fresh userId) in
  let p := snd (getPreferences coll fresh userId) in
  user p = userId
  /\ List.find (fun d => user d =? userId) coll' = Some p
  /\ getPreferences coll' fresh' userId = (coll', p)
  /\ (List.find (fun d => user d =? userId) coll = None ->
      p = defaults fresh userId /\ coll' = (coll ++ [p])%list)
  /\ (forall d, List.find (fun d => user d =? userId) coll = Some d ->
      p = d /\ coll' = coll)
  /\ (forall other, other <> userId ->
        List.find (fun d => user d =? other) coll'
        = List.find (fun d => user d =? other) coll)
  /\ (NoDup (map user coll) -> NoDup (map user coll'))
  /\ (forall (st : Dispatcher.store) (recipientId : Z),
        fst (Dispatcher.load_preferences st recipientId)
        = snd (getPreferences (Dispatcher.preferences st)
                              (Dispatcher.next_id st) recipientId)
        /\ Dispatcher.preferences (snd (Dispatcher.load_preferences st recipientId))
           = fst (getPreferences (Dispatcher.preferences st)
                                 (Dispatcher.next_id st) recipientId)).
Proof.
  cbv zeta. unfold getPreferences.
  destruct (List.find (fun d => user d =? userId) coll) as [d|] eqn:Hfind;
    cbn [fst snd].
  - destruct (find_user_some coll userId d Hfind) as [Hin Hu].
    split; [exact Hu|]. split; [exact Hfind|]. rewrite Hfind.
    split; [reflexivity|]. split; [discriminate|].
    split; [intros ? [= <-]; auto|]. split; [reflexivity|].
    split; [auto|].
    intros st r. unfold Dispatcher.load_preferences.
    destruct (List.find _ (Dispatcher.preferences st)); split; reflexivity.
  - split; [reflexivity|].
    rewrite (find_app_new coll userId (defaults fresh userId) Hfind eq_refl).
    split; [reflexivity|]. split; [reflexivity|].
    split; [auto|]. split; [discriminate|]. split; [|split].
    + intros other Hother. induction coll as [|x coll IH]; cbn in *.
      * replace (userId =? other) with false; [reflexivity|].
        symmetry. apply Z.eqb_neq. congruence.
      * destruct (user x =? userId) eqn:Hx; [discriminate|].
        destruct (user x =? other); [reflexivity | now apply IH].
    + intros Hnd. rewrite map_app. cbn [map user defaults].
      apply NoDup_app. split; [exact Hnd|].
      split; [|apply NoDup_singleton].
      intros u Hu Hu'. apply list_elem_of_In in Hu, Hu'.
      destruct Hu' as [<- | []].
      apply in_map_iff in Hu as (x & Hxu & Hx).
      assert (Hno := find_none _ _ Hfind x Hx). cbn in Hno.
      apply Z.eqb_neq in Hno. contradiction.
    + intros st r. unfold Dispatcher.load_preferences.
      destruct (List.find _ (Dispatcher.preferences st)); split; reflexivity.
Qed.

End SubscriptionHandlers.

(** ** The handlers on single records *)

Section RecordHandlers.

Import Notification Handlers Listing.

Lemma findOne_some (coll : list Notification.t) (id userId : Z)
    (n : Notification.t) :
  findOne coll id userId = Some n ->
  In n coll /\ _id n = id /\ recipient n = userId.
Proof.
  intros H. apply find_some in H as [Hin Hq].
  apply andb_true_iff in Hq as [Hi Hr].
  apply Z.eqb_eq in Hi, Hr. auto.
Qed.

Lemma unique_id (coll : list Notification.t) (a b : Notification.t) :
  NoDup (map _id coll) -> In a coll -> In b coll -> _id a = _id b -> a = b.
Proof.
  induction coll as [|x coll IH]; intros Hnd Ha Hb Heq; [destruct Ha|].
  cbn in Hnd. apply NoDup_cons in Hnd as [Hx Hnd].
  destruct Ha as [-> | Ha], Hb as [-> | Hb]; auto.
  - exfalso. apply Hx. rewrite Heq. apply list_elem_of_In. now apply in_map.
  - exfalso. apply Hx. rewrite <- Heq. apply list_elem_of_In. now apply in_map.
Qed.

(** With distinct ids, [save] rewrites the record it was loaded from and
    nothing else. *)
Lemma save_split (coll : list Notification.t) (n m : Notification.t) :
  NoDup (map _id coll) -> In n coll -> _id m = _id n ->
  exists before after,
    coll = (before ++ n :: after)%list
    /\ save m coll = (before ++ m :: after)%list.
Proof.
  induction coll as [|x coll IH]; intros Hnd Hin Hid; [destruct Hin|].
  cbn [save]. destruct (Z.eqb_spec (_id x) (_id m)) as [Heq | Hne].
  - assert (x = n) as ->.
    { apply (unique_id (x :: coll)); auto; [now left | congruence]. }
    exists [], coll. split; reflexivity.
  - destruct Hin as [-> | Hin]; [congruence|].
    cbn in Hnd. apply NoDup_cons in Hnd as [_ Hnd].
    destruct (IH Hnd Hin Hid) as (before & after & -> & ->).
    exists (x :: before), after. split; reflexivity.
Qed.

Lemma In_deleteOne (coll : list Notification.t) (id userId : Z)
    (n : Notification.t) :
  In n coll -> ~ (_id n = id /\ recipient n = userId) ->
  In n (deleteOne id userId coll).
Proof.
  induction coll as [|x coll IH]; intros Hin Hnot; [destruct Hin|].
  cbn [deleteOne].
  destruct ((_id x =? id) && (recipient x =? userId)) eqn:Hq.
  - destruct Hin as [-> | Hin]; [|exact Hin].
    exfalso. apply Hnot. apply andb_true_iff in Hq as [H1 H2].
    apply Z.eqb_eq in H1, H2. auto.
  - destruct Hin as [-> | Hin]; [now left | right; now apply IH].
Qed.

Lemma markAllRead_untouched (coll : list Notification.t) (now userId : Z)
    (category : option string) (n : Notification.t) :
  In n coll -> unread_of userId category n = false ->
  In n (Notification.markAllRead coll now userId category).
Proof.
  intros Hin Hq. rewrite markAllRead_map. apply in_map_iff.
  exists n. now rewrite Hq.
Qed.

(** X15. A handler acting for one user never changes another user's
    record: with distinct ids in the collection, a record whose recipient
    is someone else is still stored, unchanged, after that user's
    mark-read, click, delete and mark-all-read, whatever id they name; and
    mark-read of a record that is not the caller's is answered 404 with
    nothing written. *)
Theorem handlers_respect_ownership (coll : list Notification.t)
    (userId : Z) (n : Notification.t) :
  NoDup (map _id coll) ->
  In n coll -> recipient n <> userId ->
  (forall now id, In n (fst (markRead coll now id userId)))
  /\ (forall t_click t_read id, In n (trackClick coll t_click t_read id userId))
  /\ (forall id, In n (deleteNotification coll id userId))
  /\ (forall now category, In n (Handlers.markAllRead coll now userId category))
  /\ (forall now, markRead coll now (_id n) userId = (coll, None)).
Proof.
  intros Hnd Hin Hother.
  assert (Hsave : forall f m, findOne coll (_id m) userId = Some f ->
                              In n (save m coll)).
  { intros f m Hf. destruct (findOne_some coll _ userId f Hf) as (Hfin & Hfid & Hfr).
    destruct (save_split coll f m Hnd Hfin (eq_sym Hfid))
      as (before & after & Hcoll & ->).
    rewrite Hcoll in Hin. apply in_app_iff in Hin as [Hin | [<- | Hin]].
    - apply in_app_iff. now left.
    - congruence.
    - apply in_app_iff. right. now right. }
  split; [|split; [|split; [|split]]].
  - intros now id. unfold markRead.
    destruct (findOne coll id userId) as [f|] eqn:Hf; [|exact Hin].
    cbn [fst]. apply (Hsave f).
    destruct (findOne_some coll id userId f Hf) as (_ & <- & _). exact Hf.
  - intros t_click t_read id. unfold trackClick.
    destruct (findOne coll id userId) as [f|] eqn:Hf; [|exact Hin].
    apply (Hsave f).
    destruct (findOne_some coll id userId f Hf) as (_ & Hid & _).
    replace (_id (markAsClicked t_click t_read f)) with id; [exact Hf|].
    rewrite <- Hid. unfold markAsClicked. cbn. now destruct (read f).
  - intros id. apply In_deleteOne; [exact Hin | tauto].
  - intros now category. apply markAllRead_untouched; [exact Hin|].
    now apply unread_of_other with (userId := recipient n).
  - intros now. unfold markRead.
    destruct (findOne coll (_id n) userId) as [f|] eqn:Hf; [|reflexivity].
    destruct (findOne_some coll _ userId f Hf) as (Hfin & Hfid & Hfr).
    assert (f = n) by (apply (unique_id coll); auto). congruence.
Qed.

Lemma handlers_respect_ownership_witness :
  In Examples.like_at_eight
     (deleteNotification [Examples.like_at_eight; Examples.expired_like] 1 8).
Proof.
  apply (handlers_respect_ownership
           [Examples.like_at_eight; Examples.expired_like] 8
           Examples.like_at_eight).
  - apply (bool_decide_unpack _). vm_compute. exact I.
  - now left.
  - discriminate.
Defined.

Lemma deleteOne_miss (coll : list Notification.t) (id userId : Z) :
  findOne coll id userId = None -> deleteOne id userId coll = coll.
Proof.
  unfold findOne. induction coll as [|x coll IH]; [reflexivity|]. cbn.
  destruct ((_id x =? id) && (recipient x =? userId)); [discriminate|].
  intros H. now rewrite IH.
Qed.

(** X16. Deleting removes the caller's record with the given id and
    nothing else: with distinct ids, when the record exists and is the
    caller's, the collection afterwards is the old one without that id,
    one record shorter, in the same order; otherwise the collection is
    unchanged. *)
Theorem deleteNotification_exact (coll : list Notification.t)
    (id userId : Z) :
  NoDup (map _id coll) ->
  (forall n, findOne coll id userId = Some n ->
     deleteNotification coll id userId
     = List.filter (fun d => negb (_id d =? id)) coll
     /\ S (length (deleteNotification coll id userId)) = length coll
     /\ ~ In n (deleteNotification coll id userId)
     /\ findOne (deleteNotification coll id userId) id userId = None)
  /\ (findOne coll id userId = None ->
      deleteNotification coll id userId = coll).
Proof.
  intros Hnd. split; [|apply deleteOne_miss].
  intros n Hfind. unfold deleteNotification.
  assert (Heq : deleteOne id userId coll
                = List.filter (fun d => negb (_id d =? id)) coll
                /\ S (length (deleteOne id userId coll)) = length coll).
  { revert Hnd Hfind. unfold findOne.
    induction coll as [|x coll IH]; intros Hnd Hfind; [discriminate|].
    cbn in Hnd. apply NoDup_cons in Hnd as [Hx Hnd].
    cbn in Hfind |- *.
    destruct ((_id x =? id) && (recipient x =? userId)) eqn:Hq.
    - apply andb_true_iff in Hq as [Hi _]. rewrite Hi. cbn [negb].
      split; [|reflexivity].
      symmetry. apply forallb_filter_id. apply forallb_forall.
      intros y Hy. apply negb_true_iff, Z.eqb_neq. intros Hyid.
      apply Z.eqb_eq in Hi. apply Hx. rewrite Hi, <- Hyid.
      apply list_elem_of_In. now apply in_map.
    - destruct (IH Hnd Hfind) as [IH1 IH2].
      destruct (findOne_some coll id userId n Hfind) as (Hnin & Hnid & _).
      assert (Hxid : (_id x =? id) = false).
      { apply Z.eqb_neq. intros Hxid. apply Hx. rewrite Hxid, <- Hnid.
        apply list_elem_of_In. now apply in_map. }
      rewrite Hxid. cbn [negb]. rewrite IH1. split; [reflexivity|].
      cbn [length]. rewrite <- IH2, IH1. reflexivity. }
  destruct Heq as [Heq Hlen]. split; [exact Heq|]. split; [exact Hlen|].
  destruct (findOne_some coll id userId n Hfind) as (_ & Hnid & _).
  split.
  - rewrite Heq. intros Hin. apply filter_In in Hin as [_ Hne].
    rewrite Hnid, Z.eqb_refl in Hne. discriminate.
  - rewrite Heq. unfold findOne.
    destruct (List.find _ _) as [y|] eqn:Hy; [|reflexivity].
    apply find_some in Hy as [Hyin Hyq].
    apply filter_In in Hyin as [_ Hne].
    apply andb_true_iff in Hyq as [Hyi _]. rewrite Hyi in Hne. discriminate.
Qed.

Lemma deleteNotification_exact_witness :
  deleteNotification [Examples.like_at_eight; Examples.expired_like] 2
                     Examples.alice
  = [Examples.like_at_eight].
Proof.
  assert (Hnd : NoDup (map _id [Examples.like_at_eight; Examples.expired_like])).
  { apply (bool_decide_unpack _). vm_compute. exact I. }
  exact (proj1 (proj1 (deleteNotification_exact
                         [Examples.like_at_eight; Examples.expired_like] 2
                         Examples.alice Hnd)
                      Examples.expired_like eq_refl)).
Defined.

Lemma unread_count_app (a b : list Notification.t) (userId : Z)
    (category : option string) :
  getUnreadCount (a ++ b) userId category
  = (getUnreadCount a userId category + getUnreadCount b userId category)%nat.
Proof.
  rewrite !getUnreadCount_filter, List.filter_app. apply length_app.
Qed.

(** X17. Marking the caller's record read writes read = true, readAt and
    status 'read' to that record only, returns it, and a later lookup
    finds the written record; the caller's unread count drops by one when
    the record was unread and is unchanged when it was already read. *)
Theorem markRead_updates_count (coll : list Notification.t) (now id userId : Z)
    (n : Notification.t) :
  NoDup (map _id coll) ->
  findOne coll id userId = Some n ->
  let coll' := fst (markRead coll now id userId) in
  snd (markRead coll now id userId) = Some (markAsRead now n)
  /\ read (markAsRead now n) = true
  /\ readAt (markAsRead now n) = Some now
  /\ status (markAsRead now n) = "read"
  /\ findOne coll' id userId = Some (markAsRead now n)
  /\ (exists before after,
        coll = (before ++ n :: after)%list
        /\ coll' = (before ++ markAsRead now n :: after)%list)
  /\ (read n = false ->
      getUnreadCount coll userId None = S (getUnreadCount coll' userId None))
  /\ (read n = true ->
      getUnreadCount coll' userId None = getUnreadCount coll userId None).
Proof.
  intros Hnd Hfind. cbv zeta. unfold markRead. rewrite Hfind. cbn [fst snd].
  destruct (findOne_some coll id userId n Hfind) as (Hin & Hid & Hr).
  destruct (save_split coll n (markAsRead now n) Hnd Hin eq_refl)
    as (before & after & Hcoll & Hsave).
  rewrite Hsave.
  split; [reflexivity|]. split; [reflexivity|]. split; [reflexivity|].
  split; [reflexivity|]. split; [|split; [|split]].
  - rewrite Hcoll in Hfind, Hnd. unfold findOne in *.
    clear Hsave Hcoll Hin.
    induction before as [|x before IH]; cbn in *.
    + rewrite Hid, Hr, !Z.eqb_refl. reflexivity.
    + apply NoDup_cons in Hnd as [Hx Hnd].
      destruct ((_id x =? id) && (recipient x =? userId)) eqn:Hq.
      * exfalso. apply andb_true_iff in Hq as [Hi _]. apply Z.eqb_eq in Hi.
        apply Hx. rewrite Hi, <- Hid. apply list_elem_of_In.
        rewrite map_app. apply in_app_iff. right. now left.
      * now apply IH.
  - exists before, after. auto.
  - intros Hunread. rewrite Hcoll, !unread_count_app.
    assert (Hn : getUnreadCount (n :: after) userId None
                 = S (getUnreadCount (markAsRead now n :: after) userId None)).
    { rewrite !getUnreadCount_filter. cbn [List.filter].
      unfold markAsRead at 1. rewrite unread_of_marked.
      unfold unread_of at 1. rewrite Hr, Z.eqb_refl, Hunread. reflexivity. }
    rewrite Hn. lia.
  - intros Hread. rewrite Hcoll, !unread_count_app. f_equal.
    rewrite !getUnreadCount_filter. cbn [List.filter].
    unfold markAsRead at 1. rewrite unread_of_marked.
    unfold unread_of at 2. rewrite Hread. cbn [negb].
    now rewrite andb_false_r.
Qed.

Lemma markRead_updates_count_witness :
  getUnreadCount [Examples.like_at_eight; Examples.expired_like]
                 Examples.alice None
  = S (getUnreadCount
         (fst (markRead [Examples.like_at_eight; Examples.expired_like] 500 1
                        Examples.alice))
         Examples.alice None).
Proof.
  assert (Hnd : NoDup (map _id [Examples.like_at_eight; Examples.expired_like])).
  { apply (bool_decide_unpack _). vm_compute. exact I. }
  destruct (markRead_updates_count
              [Examples.like_at_eight; Examples.expired_like] 500 1
              Examples.alice Examples.like_at_eight Hnd eq_refl)
    as (_ & _ & _ & _ & _ & _ & Hdrop & _).
  apply Hdrop. reflexivity.
Defined.

End RecordHandlers.

(** ** Digest grouping and the hourly scans *)

Section DigestScans.

Import Notification DigestScheduler DigestGroups.

Lemma groupNotifications_filters (l : list Notification.t) (g : groups) :
  fold_left place l g
  = Groups
      (social g ++ List.filter (fun n => includes social_types (type n)) l)
      (content g
       ++ List.filter (fun n => negb (includes social_types (type n))
                                && includes content_types (type n)) l)
      (system g
       ++ List.filter (fun n => negb (includes social_types (type n))
                                && negb (includes content_types (type n))) l).
Proof.
  revert g. induction l as [|n l IH]; intros g.
  - cbn. rewrite !app_nil_r. now destruct g.
  - cbn [fold_left List.filter]. rewrite IH. unfold place.
    destruct (includes social_types (type n)); cbn [negb andb social content system].
    + now rewrite <- app_assoc.
    + destruct (includes content_types (type n));
        cbn [negb social content system]; now rewrite <- app_assoc.
Qed.

(** X18. [groupNotifications] splits the digest's records into three
    groups, each in the order of the input: 'like', 'comment', 'follow',
    'mention' and 'reply' are social; 'post', 'content' and 'video' are
    content; everything else, 'share' included, is in the third group.
    Every record is in exactly one group, so the three groups together are
    a rearrangement of the input. *)
Theorem groupNotifications_partition (l : list Notification.t) :
  let g := groupNotifications l in
  social g = List.filter (fun n => includes social_types (type n)) l
  /\ content g
     = List.filter (fun n => negb (includes social_types (type n))
                             && includes content_types (type n)) l
  /\ system g
     = List.filter (fun n => negb (includes social_types (type n))
                             && negb (includes content_types (type n))) l
  /\ Permutation l (social g ++ content g ++ system g)
  /\ (forall n, In n l -> type n = "share" -> In n (system g))
  /\ (forall n, In n (social g) -> ~ In n (content g) /\ ~ In n (system g))
  /\ (forall n, In n (content g) -> ~ In n (system g)).
Proof.
  cbv zeta. unfold groupNotifications. rewrite groupNotifications_filters.
  cbn [social content system app].
  split; [reflexivity|]. split; [reflexivity|]. split; [reflexivity|].
  split; [|split; [|split]].
  - induction l as [|n l IH]; [constructor|]. cbn [List.filter].
    destruct (includes social_types (type n)); cbn [negb andb].
    + cbn. now constructor.
    + destruct (includes content_types (type n)); cbn [negb].
      * apply Permutation_cons_app. exact IH.
      * rewrite app_assoc. apply Permutation_cons_app.
        rewrite <- app_assoc. exact IH.
  - intros n Hin Hty. apply filter_In. split; [exact Hin|].
    now rewrite Hty.
  - intros n Hin. apply filter_In in Hin as [_ Hs].
    split; intros Hin'; apply filter_In in Hin' as [_ Hq];
      rewrite Hs in Hq; discriminate.
  - intros n Hin. apply filter_In in Hin as [_ Hc].
    apply andb_true_iff in Hc as [_ Hc].
    intros Hin'. apply filter_In in Hin' as [_ Hq].
    rewrite Hc in Hq. cbn in Hq. now rewrite andb_false_r in Hq.
Qed.

(** *** Hour buckets *)

Lemma prefix_app_iff (p t : string) :
  String.prefix p t = true <-> exists rest, t = (p ++ rest)%string.
Proof.
  revert t. induction p as [|c p IH]; intros t.
  - split; [intros _; exists t; reflexivity | intros _; now destruct t].
  - destruct t as [|c' t]; cbn.
    + split; [discriminate | intros (rest & H); discriminate].
    + destruct (Ascii.ascii_dec c c') as [<- | Hne].
      * rewrite IH. split; intros (rest & H); exists rest.
        -- change (String c t = String c (p ++ rest)%string). congruence.
        -- change (String c t = String c (p ++ rest)%string) in H. congruence.
      * split; [discriminate|]. intros (rest & H).
        change (String c' t = String c (p ++ rest)%string) in H. congruence.
Qed.

Lemma digit_value_digit_char (d : Z) :
  0 <= d <= 9 -> Js.digit_value (digit_char d) = Some d.
Proof.
  intros Hd. unfold Js.digit_value, digit_char.
  rewrite nat_ascii_embedding by lia.
  replace (Z.of_nat (48 + Z.to_nat d)) with (48 + d) by lia.
  replace ((48 <=? 48 + d) && (48 + d <=? 57)) with true.
  - f_equal. lia.
  - symmetry. apply andb_true_iff. split; apply Z.leb_le; lia.
Qed.

(** What the scheduler pads, [Number] reads back. *)
Lemma Number_pad2 (h : Z) : 0 <= h < 100 -> Js.Number (pad2 h) = Js.Num h.
Proof.
  intros Hh. unfold Js.Number, pad2. cbn [Js.digits_value].
  rewrite (digit_value_digit_char (h / 10)) by
    (split; [apply Z.div_pos; lia | apply Z.lt_succ_r, Z.div_lt_upper_bound; lia]).
  rewrite (digit_value_digit_char (h mod 10)) by
    (pose proof (Z.mod_pos_bound h 10 ltac:(lia)); lia).
  f_equal. pose proof (Z.div_mod h 10 ltac:(lia)). lia.
Qed.

(** X19. The hourly scans match a stored digest time by its hour: a time
    that starts with the zero-padded hour and a colon is matched by every
    tick of that hour; a time matched by a tick starts with that tick's
    two-digit hour and a colon, so a time without the leading zero is never
    matched; and no time is matched in two different hours of the day. *)
Theorem digest_hour_bucket :
  (forall at_ : Z, 0 <= Js.getUTCHours at_ < 24)
  /\ (forall (h : Z) (rest : string),
        time_in_hour h (pad2 h ++ ":" ++ rest) = true)
  /\ (forall (h : Z) (t : string),
        time_in_hour h t = true ->
        exists rest, t = (pad2 h ++ ":" ++ rest)%string)
  /\ (forall (h h' : Z) (t : string),
        0 <= h < 24 -> 0 <= h' < 24 ->
        time_in_hour h t = true -> time_in_hour h' t = true -> h = h')
  /\ (forall (at_ at_' : Z) (t : string),
        time_in_hour (Js.getUTCHours at_) t = true ->
        time_in_hour (Js.getUTCHours at_') t = true ->
        Js.getUTCHours at_ = Js.getUTCHours at_').
Proof.
  assert (Hrange : forall at_ : Z, 0 <= Js.getUTCHours at_ < 24).
  { intros at_. unfold Js.getUTCHours. apply Z.mod_pos_bound. lia. }
  assert (Hshape : forall (h : Z) (t : string),
            time_in_hour h t = true ->
            exists rest, t = (pad2 h ++ ":" ++ rest)%string).
  { intros h t H. unfold time_in_hour in H.
    apply prefix_app_iff in H as (rest & ->). exists rest.
    unfold pad2. reflexivity. }
  assert (Hinj : forall (h h' : Z) (t : string),
            0 <= h < 24 -> 0 <= h' < 24 ->
            time_in_hour h t = true -> time_in_hour h' t = true -> h = h').
  { intros h h' t Hh Hh' H H'.
    destruct (Hshape h t H) as (rest & ->).
    destruct (Hshape h' _ H') as (rest' & Heq).
    assert (Hpad : pad2 h = pad2 h').
    { unfold pad2 in Heq |- *.
      change (String (digit_char (h / 10))
                (String (digit_char (h mod 10)) (String ":"%char rest))
              = String (digit_char (h' / 10))
                  (String (digit_char (h' mod 10)) (String ":"%char rest')))
        in Heq.
      congruence. }
    assert (Hn : Js.Num h = Js.Num h').
    { rewrite <- (Number_pad2 h), <- (Number_pad2 h') by lia. now rewrite Hpad. }
    now injection Hn. }
  split; [exact Hrange|]. split; [|split; [exact Hshape|split; [exact Hinj|]]].
  - intros h rest. unfold time_in_hour. apply prefix_app_iff. exists rest.
    unfold pad2. reflexivity.
  - intros at_ at_' t. apply Hinj; apply Hrange.
Qed.

(** *** What a scan sends *)

Lemma ids_mark_delivered (ids : list Z) (at_ : Z) (coll : list Notification.t) :
  map _id (mark_delivered ids at_ coll) = map _id coll.
Proof.
  unfold mark_delivered. rewrite map_map. apply map_ext. intros n.
  now destruct (existsb _ ids).
Qed.

Lemma sendDigestForUser_ids (tr : mailer) (coll : list Notification.t)
    (at_ marked_at : Z) (user : option account) (frequency : string) :
  map _id (fst (sendDigestForUser tr coll at_ marked_at user frequency))
  = map _id coll.
Proof.
  destruct (sendDigestForUser_cases tr coll at_ marked_at user frequency)
    as [[-> _] | (u & m & _ & _ & _ & _ & [[_ ->] | [_ ->]])];
    cbn [fst]; auto using ids_mark_delivered.
Qed.

Lemma sendDigestForUser_sent (tr : mailer) (coll : list Notification.t)
    (at_ marked_at : Z) (user : option account) (frequency : string)
    (m : mail) (ok : bool) :
  snd (sendDigestForUser tr coll at_ marked_at user frequency) = Some (m, ok) ->
  exists a, user = Some a /\ acc_email a = Some (to m) /\ to m <> ""
    /\ subject m = ("Your " ++ frequency ++ " update on College Media")%string
    /\ items m = getDigestNotifications coll (acc_id a) (window frequency at_)
    /\ items m <> [] /\ tr m = ok.
Proof.
  unfold sendDigestForUser.
  destruct user as [a|]; [|discriminate].
  destruct (acc_email a) as [address|] eqn:Hmail; [|discriminate].
  destruct (String.eqb_spec address "") as [-> | Hne]; [discriminate|].
  fold (window frequency at_).
  destruct (getDigestNotifications coll (acc_id a) (window frequency at_))
    as [|n rest] eqn:Hsel; [discriminate|].
  cbn [length Nat.ltb Nat.leb sendDigest].
  set (m0 := Mail address _ (n :: rest)).
  destruct (tr m0) eqn:Htr; cbn [snd]; intros [= <- <-]; exists a;
    repeat split; auto; discriminate.
Qed.

Lemma run_batch_sound (tr : mailer) (at_ : Z) (frequency : string)
    (users : list (option account)) (coll : list Notification.t) :
  (length (snd (run_batch tr at_ frequency users coll)) <= length users)%nat
  /\ map _id (fst (run_batch tr at_ frequency users coll)) = map _id coll
  /\ forall m ok,
       In (m, ok) (snd (run_batch tr at_ frequency users coll)) ->
       exists a, In (Some a) users /\ acc_email a = Some (to m) /\ to m <> ""
         /\ subject m
            = ("Your " ++ frequency ++ " update on College Media")%string
         /\ items m <> [] /\ tr m = ok
         /\ forall n, In n (items m) ->
              recipient n = acc_id a
              /\ includeInDigest (email (channels n)) = true
              /\ email_delivered (email (channels n)) = false
              /\ window frequency at_ <= createdAt n
              /\ In (_id n) (map _id coll).
Proof.
  revert coll. induction users as [|u users IH]; intros coll.
  - cbn. split; [lia|]. split; [reflexivity | intros ? ? []].
  - cbn [run_batch].
    pose proof (sendDigestForUser_ids tr coll at_ at_ u frequency) as Hids.
    pose proof (sendDigestForUser_sent tr coll at_ at_ u frequency) as Hsent.
    destruct (sendDigestForUser tr coll at_ at_ u frequency) as [coll1 sent].
    cbn [fst snd] in Hids, Hsent.
    destruct (IH coll1) as (IHlen & IHids & IHsound).
    destruct (run_batch tr at_ frequency users coll1) as [coll2 more].
    cbn [fst snd] in *.
    split; [destruct sent; cbn [length]; lia|].
    split; [congruence|].
    assert (Hlater : forall m ok, In (m, ok) more ->
              exists a, In (Some a) (u :: users) /\ acc_email a = Some (to m)
                /\ to m <> ""
                /\ subject m
                   = ("Your " ++ frequency ++ " update on College Media")%string
                /\ items m <> [] /\ tr m = ok
                /\ forall n, In n (items m) ->
                     recipient n = acc_id a
                     /\ includeInDigest (email (channels n)) = true
                     /\ email_delivered (email (channels n)) = false
                     /\ window frequency at_ <= createdAt n
                     /\ In (_id n) (map _id coll)).
    { intros m ok Hin.
      destruct (IHsound m ok Hin) as (a & Ha & H1 & H2 & H3 & H4 & H5 & H6).
      exists a. split; [now right|]. repeat (split; [assumption|]).
      intros n Hn. rewrite <- Hids. now apply H6. }
    intros m ok Hin. destruct sent as [[m0 ok0]|]; [|now apply Hlater].
    destruct Hin as [[= <- <-] | Hin]; [|now apply Hlater].
    destruct (Hsent m0 ok0 eq_refl) as (a & -> & H1 & H2 & H3 & H4 & H5 & H6).
    exists a. split; [now left|]. repeat (split; [assumption|]).
    intros n Hn. rewrite H4 in Hn.
    apply getDigestNotifications_In in Hn as (Hc & Hr & Hi & Hd & Hw).
    repeat split; auto. now apply in_map.
Qed.

Lemma populated (accounts : list account) (p : Preferences.t) (a : account) :
  populate accounts p = Some a -> In a accounts /\ acc_id a = Preferences.user p.
Proof.
  unfold populate. intros H. apply find_some in H as [Hin Hq].
  now apply Z.eqb_eq in Hq.
Qed.

(** X20. An hourly tick of the daily scan hands over at most 100 digests,
    and each of them goes to the account of a stored preference set to
    'daily' whose digest time lies in the tick's UTC hour: it is addressed
    to that account's non-empty e-mail, is not empty, and holds only that
    user's records flagged for the digest, not yet delivered by e-mail and
    created within the last day.  A tick neither adds nor removes a
    record. *)
Theorem daily_scan (tr : mailer) (prefs : list Preferences.t)
    (accounts : list account) (coll : list Notification.t) (at_ : Z) :
  let out := processDailyDigests tr prefs accounts coll at_ in
  (length (snd out) <= 100)%nat
  /\ map _id (fst out) = map _id coll
  /\ forall m ok,
       In (m, ok) (snd out) ->
       exists p a,
         In p prefs
         /\ Preferences.frequency (Preferences.digest p) = "daily"
         /\ time_in_hour (Js.getUTCHours at_)
                         (Preferences.time (Preferences.digest p)) = true
         /\ In a accounts /\ acc_id a = Preferences.user p
         /\ acc_email a = Some (to m) /\ to m <> ""
         /\ subject m = "Your daily update on College Media"
         /\ items m <> [] /\ tr m = ok
         /\ forall n, In n (items m) ->
              recipient n = Preferences.user p
              /\ includeInDigest (email (channels n)) = true
              /\ email_delivered (email (channels n)) = false
              /\ at_ - day_ms <= createdAt n
              /\ In (_id n) (map _id coll).
Proof.
  cbv zeta. unfold processDailyDigests.
  set (matched := List.filter _ prefs).
  destruct (run_batch_sound tr at_ "daily"
              (map (populate accounts) (take batchSize matched)) coll)
    as (Hlen & Hids & Hsound).
  split; [|split; [exact Hids|]].
  - rewrite length_map, length_take in Hlen. unfold batchSize in *. lia.
  - intros m ok Hin.
    destruct (Hsound m ok Hin) as (a & Ha & H1 & H2 & H3 & H4 & H5 & H6).
    apply in_map_iff in Ha as (p & Hpop & Hp).
    apply list_elem_of_In in Hp.
    pose proof (elem_of_sublist _ _ _ Hp (sublist_take matched batchSize)) as Hp'.
    apply list_elem_of_In in Hp'. subst matched.
    apply filter_In in Hp' as [Hpin Hq].
    apply andb_true_iff in Hq as [Hf Ht]. apply String.eqb_eq in Hf.
    destruct (populated accounts p a Hpop) as [Hain Haid].
    exists p, a. split; [exact Hpin|]. split; [exact Hf|]. split; [exact Ht|].
    split; [exact Hain|]. split; [exact Haid|]. split; [exact H1|].
    split; [exact H2|]. split; [exact H3|]. split; [exact H4|].
    split; [exact H5|].
    intros n Hn. destruct (H6 n Hn) as (Hr & Hi & Hd & Hw & Hid).
    split; [congruence|]. split; [exact Hi|]. split; [exact Hd|].
    split; [|exact Hid].
    unfold window, days_before in Hw. cbn in Hw. lia.
Qed.

(** X21. An hourly tick of the weekly scan likewise hands over at most 100
    digests, each to the account of a preference set to 'weekly' whose day
    of the week is the tick's UTC weekday (always one of 0 to 6, Sunday
    being 0, and the same seven days later) and whose digest time lies in
    the tick's hour, with only that user's flagged, undelivered records of
    the last seven days. *)
Theorem weekly_scan (tr : mailer) (prefs : list Preferences.t)
    (accounts : list account) (coll : list Notification.t) (at_ : Z) :
  let out := processWeeklyDigests tr prefs accounts coll at_ in
  0 <= getUTCDay at_ < 7
  /\ getUTCDay (at_ + 7 * day_ms) = getUTCDay at_
  /\ getUTCDay (3 * day_ms) = 0
  /\ (length (snd out) <= 100)%nat
  /\ map _id (fst out) = map _id coll
  /\ forall m ok,
       In (m, ok) (snd out) ->
       exists p a,
         In p prefs
         /\ Preferences.frequency (Preferences.digest p) = "weekly"
         /\ Preferences.dayOfWeek (Preferences.digest p) = getUTCDay at_
         /\ time_in_hour (Js.getUTCHours at_)
                         (Preferences.time (Preferences.digest p)) = true
         /\ In a accounts /\ acc_id a = Preferences.user p
         /\ acc_email a = Some (to m) /\ to m <> ""
         /\ subject m = "Your weekly update on College Media"
         /\ items m <> [] /\ tr m = ok
         /\ forall n, In n (items m) ->
              recipient n = Preferences.user p
              /\ includeInDigest (email (channels n)) = true
              /\ email_delivered (email (channels n)) = false
              /\ at_ - 7 * day_ms <= createdAt n
              /\ In (_id n) (map _id coll).
Proof.
  cbv zeta. split; [unfold getUTCDay; apply Z.mod_pos_bound; lia|].
  split.
  { unfold getUTCDay, day_ms.
    replace ((at_ + 7 * 86400000) / 86400000 + 4)
      with ((at_ / 86400000 + 4) + 1 * 7)
      by (rewrite (Z.add_comm at_), Z.div_add_l by lia; lia).
    apply Z.mod_add. lia. }
  split; [reflexivity|].
  unfold processWeeklyDigests.
  set (matched := List.filter _ prefs).
  destruct (run_batch_sound tr at_ "weekly"
              (map (populate accounts) (take batchSize matched)) coll)
    as (Hlen & Hids & Hsound).
  split; [|split; [exact Hids|]].
  - rewrite length_map, length_take in Hlen. unfold batchSize in *. lia.
  - intros m ok Hin.
    destruct (Hsound m ok Hin) as (a & Ha & H1 & H2 & H3 & H4 & H5 & H6).
    apply in_map_iff in Ha as (p & Hpop & Hp).
    apply list_elem_of_In in Hp.
    pose proof (elem_of_sublist _ _ _ Hp (sublist_take matched batchSize)) as Hp'.
    apply list_elem_of_In in Hp'. subst matched.
    apply filter_In in Hp' as [Hpin Hq].
    apply andb_true_iff in Hq as [Hq Ht].
    apply andb_true_iff in Hq as [Hf Hd]. apply String.eqb_eq in Hf.
    apply Z.eqb_eq in Hd.
    destruct (populated accounts p a Hpop) as [Hain Haid].
    exists p, a. split; [exact Hpin|]. split; [exact Hf|]. split; [exact Hd|].
    split; [exact Ht|].
    split; [exact Hain|]. split; [exact Haid|]. split; [exact H1|].
    split; [exact H2|]. split; [exact H3|]. split; [exact H4|].
    split; [exact H5|].
    intros n Hn. destruct (H6 n Hn) as (Hr & Hi & Hdl & Hw & Hid).
    split; [congruence|]. split; [exact Hi|]. split; [exact Hdl|].
    split; [|exact Hid].
    unfold window, days_before in Hw. cbn in Hw. lia.
Qed.

End DigestScans.

(** ** Circuit breaker *)

Section Breaker.

Import CircuitBreaker.

(** [execute] by cases: the request is refused by an open breaker still in
    its cool-down, or it runs on the breaker [b1] the permission check
    leaves. *)
Lemma execute_cases (r : request) (b : t) :
  let m := stats b in
  let b0 :=
    with_stats b (Metrics (totalRequests m + 1) (failedRequests m)
                          (successfulRequests m) (shortCircuitedRequests m)) in
  (state b = OPEN /\ after_cooldown (t_check r) b = false
   /\ execute r b
      = Executed
          (with_stats b (Metrics (totalRequests m + 1) (failedRequests m)
                                 (successfulRequests m)
                                 (shortCircuitedRequests m + 1)))
          (or_throw (fb r) (CircuitOpen (serviceName b))) false)
  \/ (exists b1,
        ((state b <> OPEN /\ b1 = b0)
         \/ (state b = OPEN /\ after_cooldown (t_check r) b = true
             /\ b1 = _transitionToHalfOpen b0))
        /\ execute r b
           = match _executeWithTimeout b1 (action r) with
             | inl v => Executed (_handleSuccess b1) (Return v) true
             | inr err =>
                 Executed (_handleFailure (t_fail r) (t_open r) err b1)
                          (or_throw (fb r) err) true
             end).
Proof.
  cbv zeta. unfold execute, _canRequestProceed.
  cbn [with_stats state].
  destruct (state b) eqn:Hs.
  - right. eexists. split; [left; split; [discriminate | reflexivity]|].
    reflexivity.
  - change (after_cooldown (t_check r)
              (with_stats b
                 (Metrics (totalRequests (stats b) + 1)
                    (failedRequests (stats b)) (successfulRequests (stats b))
                    (shortCircuitedRequests (stats b)))))
      with (after_cooldown (t_check r) b).
    destruct (after_cooldown (t_check r) b) eqn:Hc.
    + right. eexists. split; [right; split; [reflexivity|split; reflexivity]|].
      reflexivity.
    + left. split; [reflexivity|]. split; [reflexivity|]. reflexivity.
  - right. eexists. split; [left; split; [discriminate | reflexivity]|].
    reflexivity.
Qed.

Lemma handleFailure_keeps (t_fail t_open : Z) (e : error) (b : t) :
  let b' := _handleFailure t_fail t_open e b in
  cfg b' = cfg b /\ serviceName b' = serviceName b
  /\ stats b' = Metrics (totalRequests (stats b)) (failedRequests (stats b) + 1)
                        (successfulRequests (stats b))
                        (shortCircuitedRequests (stats b))
  /\ failureCount b' = failureCount b + 1
  /\ lastFailureTime b' = Some t_fail
  /\ (is_HALF_OPEN (state b)
      || (failureThreshold (cfg b) <=? failureCount b + 1) = true ->
      state b' = OPEN
      /\ nextAttemptTime b' = Some (t_open + cooldownPeriod (cfg b)))
  /\ (is_HALF_OPEN (state b)
      || (failureThreshold (cfg b) <=? failureCount b + 1) = false ->
      state b' = state b /\ nextAttemptTime b' = nextAttemptTime b).
Proof.
  cbv zeta. unfold _handleFailure. cbn [state cfg failureCount].
  destruct (is_HALF_OPEN (state b)
            || (failureThreshold (cfg b) <=? failureCount b + 1));
    cbn; repeat split; auto; discriminate.
Qed.

Lemma handleSuccess_keeps (b : t) :
  let b' := _handleSuccess b in
  cfg b' = cfg b /\ serviceName b' = serviceName b
  /\ stats b' = Metrics (totalRequests (stats b)) (failedRequests (stats b))
                        (successfulRequests (stats b) + 1)
                        (shortCircuitedRequests (stats b))
  /\ nextAttemptTime b' = nextAttemptTime b
  /\ (state b = CLOSED -> state b' = CLOSED /\ failureCount b' = 0)
  /\ (state b = HALF_OPEN ->
      (successThreshold (cfg b) <= successCount b + 1 ->
       state b' = CLOSED /\ failureCount b' = 0 /\ successCount b' = 0)
      /\ (successCount b + 1 < successThreshold (cfg b) ->
          state b' = HALF_OPEN /\ successCount b' = successCount b + 1
          /\ failureCount b' = failureCount b)).
Proof.
  cbv zeta. unfold _handleSuccess. cbn [state with_stats cfg successCount].
  destruct (state b) eqn:Hs; cbn [is_HALF_OPEN];
    try (cbn; repeat split; auto; discriminate).
  cbn [cfg successCount].
  destruct (Z.leb_spec (successThreshold (cfg b)) (successCount b + 1));
    cbn; repeat split; auto; try discriminate; intros; lia.
Qed.

Lemma execute_keeps_config (r : request) (b : t) :
  cfg (breaker (execute r b)) = cfg b
  /\ serviceName (breaker (execute r b)) = serviceName b.
Proof.
  destruct (execute_cases r b) as [(_ & _ & ->) | (b1 & Hb1 & ->)];
    [split; reflexivity|].
  assert (H1 : cfg b1 = cfg b /\ serviceName b1 = serviceName b).
  { destruct Hb1 as [[_ ->] | (_ & _ & ->)]; split; reflexivity. }
  destruct H1 as [Hc Hn].
  destruct (_executeWithTimeout b1 (action r)) as [v | err]; cbn [breaker].
  - destruct (handleSuccess_keeps b1) as (H1 & H2 & _). split; congruence.
  - destruct (handleFailure_keeps (t_fail r) (t_open r) err b1)
      as (H1 & H2 & _). split; congruence.
Qed.

Lemma execute_counts (r : request) (b : t) :
  totalRequests (stats (breaker (execute r b))) = totalRequests (stats b) + 1
  /\ (balanced (stats b) -> balanced (stats (breaker (execute r b)))).
Proof.
  unfold balanced.
  destruct (execute_cases r b) as [(_ & _ & ->) | (b1 & Hb1 & ->)];
    [cbn; split; [reflexivity | lia]|].
  assert (H1 : stats b1
               = Metrics (totalRequests (stats b) + 1) (failedRequests (stats b))
                         (successfulRequests (stats b))
                         (shortCircuitedRequests (stats b))).
  { destruct Hb1 as [[_ ->] | (_ & _ & ->)]; reflexivity. }
  destruct (_executeWithTimeout b1 (action r)) as [v | err]; cbn [breaker].
  - destruct (handleSuccess_keeps b1) as (_ & _ & -> & _).
    rewrite H1. cbn. split; [reflexivity | lia].
  - destruct (handleFailure_keeps (t_fail r) (t_open r) err b1)
      as (_ & _ & -> & _).
    rewrite H1. cbn. split; [reflexivity | lia].
Qed.

(** X22. The metrics of a breaker always add up.  With requests that run
    one after the other, and resets of the metrics timer between them,
    the total number of requests is at any time the number of failed
    plus successful plus short-circuited ones, from the creation of the
    breaker on; and every request counts once in the total. *)
Theorem breaker_metrics_add_up (service : string) (o : overrides)
    (steps : list step) :
  balanced (stats (run (create service o) steps))
  /\ balanced (s_metrics (getState (run (create service o) steps)))
  /\ (forall (b : t) (r : request),
        totalRequests (stats (breaker (execute r b)))
        = totalRequests (stats b) + 1).
Proof.
  assert (Hrun : forall b, balanced (stats b) -> balanced (stats (run b steps))).
  { induction steps as [|s steps IH]; intros b Hb; [exact Hb|].
    cbn [run fold_left]. apply IH. destruct s as [r|]; cbn [apply].
    - now apply execute_counts.
    - reflexivity. }
  split; [apply Hrun; reflexivity|]. split; [apply Hrun; reflexivity|].
  intros b r. apply execute_counts.
Qed.

Lemma fails_timeout (b : t) (r : request) :
  fails r = true -> exists err, _executeWithTimeout b (action r) = inr err.
Proof.
  unfold fails. destruct (action r); [discriminate | |]; cbn; eauto.
Qed.

Lemma succeeds_timeout (b : t) (r : request) :
  fails r = false -> exists v, _executeWithTimeout b (action r) = inl v
                               /\ action r = Resolves v.
Proof.
  unfold fails. destruct (action r); try discriminate. cbn. eauto.
Qed.

(** One failed request on a closed breaker. *)
Lemma closed_failure (r : request) (b : t) :
  state b = CLOSED -> fails r = true ->
  let b' := breaker (execute r b) in
  ran (execute r b) = true
  /\ failureCount b' = failureCount b + 1
  /\ shortCircuitedRequests (stats b') = shortCircuitedRequests (stats b)
  /\ (failureCount b + 1 < failureThreshold (cfg b) ->
      state b' = CLOSED /\ nextAttemptTime b' = nextAttemptTime b)
  /\ (failureThreshold (cfg b) <= failureCount b + 1 ->
      state b' = OPEN
      /\ nextAttemptTime b' = Some (t_open r + cooldownPeriod (cfg b))).
Proof.
  intros Hs Hf. cbv zeta.
  destruct (execute_cases r b) as [(Ho & _) | (b1 & Hb1 & ->)]; [congruence|].
  destruct Hb1 as [[_ ->] | (Ho & _)]; [|congruence].
  match goal with
  | |- context [_executeWithTimeout ?b1 _] =>
      destruct (fails_timeout b1 r Hf) as (err & ->)
  end.
  cbn [ran breaker].
  destruct (handleFailure_keeps (t_fail r) (t_open r) err
              (with_stats b
                 (Metrics (totalRequests (stats b) + 1)
                    (failedRequests (stats b)) (successfulRequests (stats b))
                    (shortCircuitedRequests (stats b)))))
    as (_ & _ & Hst & Hcount & _ & Hopen & Hstay).
  cbv zeta in *. cbn [with_stats state cfg failureCount nextAttemptTime stats]
    in Hopen, Hstay, Hcount, Hst.
  rewrite Hs in Hopen, Hstay. cbn [is_HALF_OPEN orb] in Hopen, Hstay.
  split; [reflexivity|]. split; [exact Hcount|]. split; [now rewrite Hst|].
  split; intros H.
  - apply Hstay. apply Z.leb_gt. lia.
  - apply Hopen. apply Z.leb_le. lia.
Qed.

Lemma closed_success (r : request) (b : t) :
  state b = CLOSED -> fails r = false ->
  let b' := breaker (execute r b) in
  ran (execute r b) = true
  /\ state b' = CLOSED /\ failureCount b' = 0
  /\ shortCircuitedRequests (stats b') = shortCircuitedRequests (stats b).
Proof.
  intros Hs Hf. cbv zeta.
  destruct (execute_cases r b) as [(Ho & _) | (b1 & Hb1 & ->)]; [congruence|].
  destruct Hb1 as [[_ ->] | (Ho & _)]; [|congruence].
  match goal with
  | |- context [_executeWithTimeout ?b1 _] =>
      destruct (succeeds_timeout b1 r Hf) as (v & -> & _)
  end.
  cbn [ran breaker].
  destruct (handleSuccess_keeps
              (with_stats b
                 (Metrics (totalRequests (stats b) + 1)
                    (failedRequests (stats b)) (successfulRequests (stats b))
                    (shortCircuitedRequests (stats b)))))
    as (_ & _ & Hst & _ & Hclosed & _).
  cbv zeta in *. destruct (Hclosed Hs) as [H1 H2].
  split; [reflexivity|]. split; [exact H1|]. split; [exact H2|].
  now rewrite Hst.
Qed.

(** X23. A closed breaker opens on the failure that brings the count of
    consecutive failures to the threshold, not before: after fewer
    failures than the threshold it is still closed and has counted them;
    with the failure that reaches the threshold it is open and its
    cool-down ends [cooldownPeriod] after that failure.  Rejections and
    timeouts both count as failures. *)
Theorem breaker_opens_at_threshold (b : t) (failures : list request)
    (last : request) :
  state b = CLOSED -> failureCount b = 0 ->
  Forall (fun r => fails r = true) failures -> fails last = true ->
  Z.of_nat (length failures) + 1 = failureThreshold (cfg b) ->
  let before := run b (map Call failures) in
  let tripped := breaker (execute last before) in
  state before = CLOSED
  /\ failureCount before = Z.of_nat (length failures)
  /\ ran (execute last before) = true
  /\ state tripped = OPEN
  /\ nextAttemptTime tripped = Some (t_open last + cooldownPeriod (cfg b)).
Proof.
  intros Hs Hc Hall Hlast Hk. cbv zeta.
  assert (Hbefore : forall (l : list request) (b0 : t),
            state b0 = CLOSED -> cfg b0 = cfg b ->
            Forall (fun r => fails r = true) l ->
            failureCount b0 + Z.of_nat (length l) < failureThreshold (cfg b) ->
            state (run b0 (map Call l)) = CLOSED
            /\ failureCount (run b0 (map Call l))
               = failureCount b0 + Z.of_nat (length l)
            /\ cfg (run b0 (map Call l)) = cfg b).
  { induction l as [|r l IH]; intros b0 Hs0 Hcfg Hl Hlt.
    - cbn. split; [exact Hs0|]. split; [lia | exact Hcfg].
    - apply Forall_cons in Hl as [Hr Hl]. cbn [map run fold_left apply].
      destruct (closed_failure r b0 Hs0 Hr) as (_ & Hcount & _ & Hstay & _).
      cbv zeta in *. rewrite Hcfg in Hstay.
      cbn [length] in Hlt. destruct Hstay as [Hs1 _]; [lia|].
      destruct (IH (breaker (execute r b0)) Hs1
                  (eq_trans (proj1 (execute_keeps_config r b0)) Hcfg) Hl)
        as (H1 & H2 & H3); [lia|].
      split; [exact H1|]. split; [|exact H3].
      unfold run in H2 |- *. rewrite H2, Hcount. cbn [length]. lia. }
  destruct (Hbefore failures b Hs eq_refl Hall) as (H1 & H2 & H3); [lia|].
  split; [exact H1|]. split; [lia|].
  destruct (closed_failure last _ H1 Hlast) as (Hran & _ & _ & _ & Hopen).
  cbv zeta in Hopen. rewrite H3 in Hopen.
  destruct Hopen as [Ho Hn]; [lia|]. auto.
Qed.

Lemma breaker_opens_at_threshold_witness :
  state (breaker
           (execute (Request 50 51 52 Outlasts None)
              (run (create "USER_SERVICE"
                      (Overrides (Some 2) None None None None))
                   (map Call [Request 10 11 12 (Rejects "boom") None]))))
  = OPEN.
Proof.
  refine (proj1 (proj2 (proj2 (proj2
            (breaker_opens_at_threshold
               (create "USER_SERVICE" (Overrides (Some 2) None None None None))
               [Request 10 11 12 (Rejects "boom") None]
               (Request 50 51 52 Outlasts None)
               eq_refl eq_refl _ eq_refl eq_refl))))).
  repeat constructor.
Defined.

(** X24. Failures have to be consecutive: a closed breaker stays closed,
    and lets every request through, for as long as no run of failures
    reaches the threshold, because every success sets the failure count
    back to 0. *)
Theorem breaker_stays_closed (b : t) (requests : list request) :
  state b = CLOSED -> 0 <= failureCount b ->
  no_streak (failureThreshold (cfg b)) (failureCount b) requests = true ->
  state (run b (map Call requests)) = CLOSED
  /\ shortCircuitedRequests (stats (run b (map Call requests)))
     = shortCircuitedRequests (stats b)
  /\ forall (before : list request) (r : request) (after : list request),
       requests = (before ++ r :: after)%list ->
       ran (execute r (run b (map Call before))) = true.
Proof.
  revert b. induction requests as [|r requests IH]; intros b Hs Hc Hno.
  - cbn. split; [exact Hs|]. split; [reflexivity|].
    intros [|? ?] ? ? H; discriminate.
  - cbn [no_streak] in Hno. cbn [map run fold_left apply].
    assert (Hstep : state (breaker (execute r b)) = CLOSED
                    /\ 0 <= failureCount (breaker (execute r b))
                    /\ ran (execute r b) = true
                    /\ shortCircuitedRequests (stats (breaker (execute r b)))
                       = shortCircuitedRequests (stats b)
                    /\ no_streak (failureThreshold (cfg (breaker (execute r b))))
                         (failureCount (breaker (execute r b))) requests = true).
    { rewrite (proj1 (execute_keeps_config r b)).
      destruct (fails r) eqn:Hf.
      - apply andb_true_iff in Hno as [Hlt Hno]. apply Z.ltb_lt in Hlt.
        destruct (closed_failure r b Hs Hf) as (Hran & Hcount & Hsc & Hstay & _).
        cbv zeta in *. destruct (Hstay Hlt) as [Hs1 _].
        rewrite Hcount. repeat split; auto; lia.
      - destruct (closed_success r b Hs Hf) as (Hran & Hs1 & Hcount & Hsc).
        cbv zeta in *. rewrite Hcount. repeat split; auto; lia. }
    destruct Hstep as (Hs1 & Hc1 & Hran & Hsc & Hno1).
    destruct (IH _ Hs1 Hc1 Hno1) as (H1 & H2 & H3).
    split; [exact H1|]. split; [unfold run in *; congruence|].
    intros [|x before] r' after Heq.
    + injection Heq as <- _. exact Hran.
    + injection Heq as <- Heq. cbn [map run fold_left apply].
      now apply (H3 before r' after).
Qed.

Lemma breaker_stays_closed_witness :
  state (run (create "USER_SERVICE" no_overrides)
             (map Call [Request 1 2 3 (Rejects "a") None;
                        Request 4 5 6 (Resolves "ok") None;
                        Request 7 8 9 Outlasts None]))
  = CLOSED.
Proof.
  apply (breaker_stays_closed (create "USER_SERVICE" no_overrides));
    [reflexivity | cbn; lia | reflexivity].
Defined.

(** X25. An open breaker refuses every request until its cool-down has
    passed: the action is not run, the caller gets the fallback's answer
    for the 'circuit open' error (or that error thrown), and nothing
    changes but the counters of total and short-circuited requests.  The
    first request after the cool-down is let through as a probe: if it
    fails the breaker is open again with a new cool-down, if it succeeds
    the breaker is half-open, or closed at once when one success is
    enough. *)
Theorem breaker_open_and_probe (b : t) (r : request) (until : Z) :
  state b = OPEN -> nextAttemptTime b = Some until ->
  let out := execute r b in
  (t_check r <= until ->
   ran out = false
   /\ answer out = or_throw (fb r) (CircuitOpen (serviceName b))
   /\ state (breaker out) = OPEN
   /\ nextAttemptTime (breaker out) = Some until
   /\ failureCount (breaker out) = failureCount b
   /\ emitted (breaker out) = emitted b
   /\ shortCircuitedRequests (stats (breaker out))
      = shortCircuitedRequests (stats b) + 1)
  /\ (until < t_check r ->
      ran out = true
      /\ (fails r = true ->
          state (breaker out) = OPEN
          /\ nextAttemptTime (breaker out)
             = Some (t_open r + cooldownPeriod (cfg b)))
      /\ (forall v, action r = Resolves v ->
            answer out = Return v
            /\ (successThreshold (cfg b) <= 1 ->
                state (breaker out) = CLOSED
                /\ failureCount (breaker out) = 0)
            /\ (1 < successThreshold (cfg b) ->
                state (breaker out) = HALF_OPEN
                /\ successCount (breaker out) = 1))).
Proof.
  intros Hs Hn. cbv zeta.
  assert (Hcool : after_cooldown (t_check r) b = (until <? t_check r)).
  { unfold after_cooldown. now rewrite Hn. }
  split; intros Ht.
  - destruct (execute_cases r b) as [(_ & _ & ->) | (b1 & Hb1 & _)].
    + cbn. repeat split; auto.
    + exfalso. destruct Hb1 as [[Hno _] | (_ & Hc & _)]; [congruence|].
      rewrite Hcool in Hc. apply Z.ltb_lt in Hc. lia.
  - destruct (execute_cases r b) as [(_ & Hc & _) | (b1 & Hb1 & ->)].
    + exfalso. rewrite Hcool in Hc. apply Z.ltb_ge in Hc. lia.
    + destruct Hb1 as [[Hno _] | (_ & _ & ->)]; [congruence|].
      set (b1 := _transitionToHalfOpen _).
      assert (Hb1 : state b1 = HALF_OPEN /\ successCount b1 = 0
                    /\ cfg b1 = cfg b) by (repeat split).
      destruct Hb1 as (Hh & Hsc & Hcfg).
      split; [destruct (_executeWithTimeout b1 (action r)); reflexivity|].
      split.
      * intros Hf. destruct (fails_timeout b1 r Hf) as (err & ->).
        cbn [breaker].
        destruct (handleFailure_keeps (t_fail r) (t_open r) err b1)
          as (_ & _ & _ & _ & _ & Hopen & _).
        cbv zeta in Hopen. rewrite Hh, Hcfg in Hopen. now apply Hopen.
      * intros v Hv. rewrite Hv. cbn [_executeWithTimeout breaker answer].
        split; [reflexivity|].
        destruct (handleSuccess_keeps b1) as (_ & _ & _ & _ & _ & Hhalf).
        cbv zeta in Hhalf. destruct (Hhalf Hh) as [Hclose Hstay].
        rewrite Hsc, Hcfg in Hclose, Hstay. split; intros Hk.
        -- destruct Hclose as (H1 & H2 & _); [lia|]. auto.
        -- destruct Hstay as (H1 & H2 & _); [lia|]. split; [exact H1 | lia].
Qed.

Lemma breaker_open_and_probe_witness :
  ran (execute (Request 100 101 102 (Resolves "ok") None)
         (breaker
            (execute (Request 50 51 52 Outlasts None)
               (create "USER_SERVICE"
                  (Overrides (Some 1) None None None None)))))
  = false.
Proof.
  refine (proj1 (proj1 (breaker_open_and_probe
            (breaker
               (execute (Request 50 51 52 Outlasts None)
                  (create "USER_SERVICE"
                     (Overrides (Some 1) None None None None))))
            (Request 100 101 102 (Resolves "ok") None) 10052
            eq_refl eq_refl) _)).
  cbn. lia.
Defined.

(** X26. A half-open breaker closes after [successThreshold] successes in
    a row, with its failure and success counts back at 0, and is still
    half-open before that; a single failure while half-open opens it
    again, whatever the failure count. *)
Theorem breaker_half_open (b : t) (successes : list request) :
  state b = HALF_OPEN -> successCount b = 0 ->
  Forall (fun r => fails r = false) successes ->
  (Z.of_nat (length successes) < successThreshold (cfg b) ->
   state (run b (map Call successes)) = HALF_OPEN
   /\ successCount (run b (map Call successes))
      = Z.of_nat (length successes))
  /\ (0 < Z.of_nat (length successes) ->
      Z.of_nat (length successes) = successThreshold (cfg b) ->
      state (run b (map Call successes)) = CLOSED
      /\ failureCount (run b (map Call successes)) = 0
      /\ successCount (run b (map Call successes)) = 0)
  /\ (forall r, fails r = true ->
        ran (execute r b) = true
        /\ state (breaker (execute r b)) = OPEN
        /\ nextAttemptTime (breaker (execute r b))
           = Some (t_open r + cooldownPeriod (cfg b))).
Proof.
  intros Hs Hc Hall.
  assert (Hone : forall r b0, state b0 = HALF_OPEN -> fails r = false ->
            cfg (breaker (execute r b0)) = cfg b0
            /\ (successThreshold (cfg b0) <= successCount b0 + 1 ->
                state (breaker (execute r b0)) = CLOSED
                /\ failureCount (breaker (execute r b0)) = 0
                /\ successCount (breaker (execute r b0)) = 0)
            /\ (successCount b0 + 1 < successThreshold (cfg b0) ->
                state (breaker (execute r b0)) = HALF_OPEN
                /\ successCount (breaker (execute r b0)) = successCount b0 + 1)).
  { intros r b0 Hs0 Hf. split; [apply execute_keeps_config|].
    destruct (execute_cases r b0) as [(Ho & _) | (b1 & Hb1 & ->)]; [congruence|].
    destruct Hb1 as [[_ ->] | (Ho & _)]; [|congruence].
    destruct (succeeds_timeout
                (with_stats b0
                   (Metrics (totalRequests (stats b0) + 1)
                      (failedRequests (stats b0)) (successfulRequests (stats b0))
                      (shortCircuitedRequests (stats b0)))) r Hf)
      as (v & -> & _).
    cbn [breaker].
    destruct (handleSuccess_keeps
                (with_stats b0
                   (Metrics (totalRequests (stats b0) + 1)
                      (failedRequests (stats b0)) (successfulRequests (stats b0))
                      (shortCircuitedRequests (stats b0)))))
      as (_ & _ & _ & _ & _ & Hhalf).
    cbv zeta in Hhalf. destruct (Hhalf Hs0) as [Hclose Hstay].
    split; [exact Hclose|]. intros H. destruct (Hstay H) as (H1 & H2 & _). auto. }
  assert (Hrun : forall (l : list request) (b0 : t),
            state b0 = HALF_OPEN -> cfg b0 = cfg b ->
            Forall (fun r => fails r = false) l ->
            successCount b0 + Z.of_nat (length l) < successThreshold (cfg b) ->
            state (run b0 (map Call l)) = HALF_OPEN
            /\ successCount (run b0 (map Call l))
               = successCount b0 + Z.of_nat (length l)
            /\ cfg (run b0 (map Call l)) = cfg b).
  { induction l as [|r l IH]; intros b0 Hs0 Hcfg Hl Hlt.
    - cbn. split; [exact Hs0|]. split; [lia | exact Hcfg].
    - apply Forall_cons in Hl as [Hr Hl]. cbn [map run fold_left apply].
      destruct (Hone r b0 Hs0 Hr) as (Hcfg1 & _ & Hstay).
      rewrite Hcfg in Hstay. cbn [length] in Hlt.
      destruct Hstay as [Hs1 Hc1]; [lia|].
      destruct (IH (breaker (execute r b0)) Hs1 (eq_trans Hcfg1 Hcfg) Hl)
        as (H1 & H2 & H3); [lia|].
      split; [exact H1|]. split; [|exact H3].
      unfold run in H2 |- *. rewrite H2, Hc1. cbn [length]. lia. }
  split; [|split].
  - intros Hlt. destruct (Hrun successes b Hs eq_refl Hall) as (H1 & H2 & _);
      [lia|]. split; [exact H1 | lia].
  - intros Hpos Hk.
    destruct (exists_last (l := successes)) as (l & r & ->);
      [intros ->; cbn in Hpos; lia|].
    rewrite length_app in Hk. cbn [length] in Hk.
    apply Forall_app in Hall as [Hl Hr]. apply Forall_cons in Hr as [Hr _].
    destruct (Hrun l b Hs eq_refl Hl) as (H1 & H2 & H3); [lia|].
    rewrite map_app. unfold run. rewrite fold_left_app.
    cbn [map fold_left apply]. fold (run b (map Call l)).
    destruct (Hone r _ H1 Hr) as (_ & Hclose & _).
    rewrite H3 in Hclose. apply Hclose. lia.
  - intros r Hf.
    destruct (execute_cases r b) as [(Ho & _) | (b1 & Hb1 & ->)]; [congruence|].
    destruct Hb1 as [[_ ->] | (Ho & _)]; [|congruence].
    destruct (fails_timeout
                (with_stats b
                   (Metrics (totalRequests (stats b) + 1)
                      (failedRequests (stats b)) (successfulRequests (stats b))
                      (shortCircuitedRequests (stats b)))) r Hf)
      as (err & ->).
    cbn [ran breaker]. split; [reflexivity|].
    destruct (handleFailure_keeps (t_fail r) (t_open r) err
                (with_stats b
                   (Metrics (totalRequests (stats b) + 1)
                      (failedRequests (stats b)) (successfulRequests (stats b))
                      (shortCircuitedRequests (stats b)))))
      as (_ & _ & _ & _ & _ & Hopen & _).
    cbv zeta in Hopen. cbn [with_stats state cfg] in Hopen.
    rewrite Hs in Hopen. now apply Hopen.
Qed.

Lemma breaker_half_open_witness :
  state (run (_transitionToHalfOpen (create "USER_SERVICE" no_overrides))
             (map Call [Request 1 2 3 (Resolves "a") None;
                        Request 4 5 6 (Resolves "b") None]))
  = CLOSED.
Proof.
  refine (proj1 (proj1 (proj2
            (breaker_half_open
               (_transitionToHalfOpen (create "USER_SERVICE" no_overrides))
               [Request 1 2 3 (Resolves "a") None;
                Request 4 5 6 (Resolves "b") None]
               eq_refl eq_refl _)) _ _)).
  - repeat constructor.
  - cbn. lia.
  - reflexivity.
Defined.

(** The fallback [callService] passes on, which rethrows when the caller
    gave none, changes nothing. *)
Lemma execute_default_fallback (r : request) (b : t) :
  execute (Request (t_check r) (t_fail r) (t_open r) (action r)
                   (Some (default Throw (fb r)))) b
  = execute r b.
Proof.
  unfold execute. cbn [t_check t_fail t_open action fb].
  destruct (_canRequestProceed (t_check r)
              (with_stats b
                 (Metrics (totalRequests (stats b) + 1)
                    (failedRequests (stats b)) (successfulRequests (stats b))
                    (shortCircuitedRequests (stats b))))) as [b1 [|]];
    cbn [negb].
  - destruct (_executeWithTimeout b1 (action r)); [reflexivity|].
    destruct (fb r); reflexivity.
  - destruct (fb r); reflexivity.
Qed.

(** X27. The registry holds one breaker per service name.  [getCircuit]
    creates the breaker on the first call for a name and from then on
    returns that breaker, whatever configuration later calls pass.
    [callService] runs the request on it exactly as [execute] with the
    caller's fallback would, stores the breaker under its own name, with
    its configuration unchanged, and leaves the breakers of other
    services alone. *)
Theorem callService_registry (registry : gmap string t) (name : string)
    (o : overrides) (r : request) :
  let circuit := default (create name o) (registry !! name) in
  let out := callService registry name o r in
  (getCircuit registry name o).2 = circuit
  /\ (forall o' : overrides,
        getCircuit (getCircuit registry name o).1 name o'
        = ((getCircuit registry name o).1, circuit))
  /\ out.2 = answer (execute r circuit)
  /\ out.1 !! name = Some (breaker (execute r circuit))
  /\ cfg (breaker (execute r circuit)) = cfg circuit
  /\ (forall other : string, other <> name ->
        out.1 !! other = registry !! other)
  /\ ((forall k b, registry !! k = Some b -> serviceName b = k) ->
      forall k b, out.1 !! k = Some b -> serviceName b = k).
Proof.
  cbv zeta. unfold callService, getCircuit.
  destruct (registry !! name) as [b|] eqn:Hreg;
    cbn [default from_option id fst snd];
    rewrite execute_default_fallback.
  - split; [reflexivity|]. split; [intros o'; now rewrite Hreg|].
    split; [reflexivity|]. split; [apply lookup_insert_eq|].
    split; [apply execute_keeps_config|].
    split; [intros other Hne; now apply lookup_insert_ne|].
    intros Hkeys k b' Hk.
    destruct (decide (k = name)) as [->|Hne].
    + rewrite lookup_insert_eq in Hk. injection Hk as <-.
      rewrite (proj2 (execute_keeps_config r b)). now apply Hkeys.
    + rewrite lookup_insert_ne in Hk by congruence. now apply Hkeys.
  - split; [reflexivity|].
    split; [intros o'; now rewrite lookup_insert_eq|].
    split; [reflexivity|]. split; [apply lookup_insert_eq|].
    split; [apply execute_keeps_config|].
    split; [intros other Hne;
            now rewrite !lookup_insert_ne by congruence|].
    intros Hkeys k b' Hk.
    destruct (decide (k = name)) as [->|Hne].
    + rewrite lookup_insert_eq in Hk. injection Hk as <-.
      rewrite (proj2 (execute_keeps_config r (create name o))). reflexivity.
    + rewrite !lookup_insert_ne in Hk by congruence. now apply Hkeys.
Qed.

End Breaker.

(** ** Two-factor authentication *)

Section TwoFactor.

Import MFA.

Lemma findById_update (id : Z) (change : user -> user) (db : list user)
    (u : user) :
  findById db id = Some u -> _id (change u) = id ->
  findById (findByIdAndUpdate id change db) id = Some (change u).
Proof.
  unfold findById. intros Hfind Hid.
  induction db as [|x db IH]; [discriminate|].
  cbn [find findByIdAndUpdate] in *.
  destruct (_id x =? id) eqn:Hx.
  - injection Hfind as ->. cbn [find]. rewrite Hid, Z.eqb_refl. reflexivity.
  - cbn [find]. rewrite Hx. now apply IH.
Qed.

Lemma findById_update_other (id other : Z) (change : user -> user)
    (db : list user) :
  (forall u, _id (change u) = _id u) -> other <> id ->
  findById (findByIdAndUpdate id change db) other = findById db other.
Proof.
  unfold findById. intros Hkeep Hne.
  induction db as [|x db IH]; [reflexivity|].
  cbn [find findByIdAndUpdate].
  destruct (_id x =? id) eqn:Hx.
  - cbn [find]. rewrite Hkeep.
    apply Z.eqb_eq in Hx. rewrite Hx.
    destruct (id =? other) eqn:Ho; [apply Z.eqb_eq in Ho; congruence|].
    reflexivity.
  - cbn [find]. destruct (_id x =? other); [reflexivity | exact IH].
Qed.

Lemma findById_update_none (id : Z) (change : user -> user) (db : list user) :
  findById db id = None -> findByIdAndUpdate id change db = db.
Proof.
  unfold findById. induction db as [|x db IH]; [reflexivity|].
  cbn [find findByIdAndUpdate].
  destruct (_id x =? id); [discriminate|].
  intros H. now rewrite IH.
Qed.

Lemma existsb_token (token : string) (codes : list string) :
  existsb (String.eqb token) codes = true <-> In token codes.
Proof.
  rewrite existsb_exists. split.
  - intros (c & Hin & Heq). apply String.eqb_eq in Heq. now subst.
  - intros Hin. exists token. split; [exact Hin | apply String.eqb_refl].
Qed.

Lemma existsb_pulled (token : string) (codes : list string) :
  existsb (String.eqb token)
          (List.filter (fun c => negb (String.eqb c token)) codes)
  = false.
Proof.
  destruct (existsb _ _) eqn:H; [|reflexivity].
  apply existsb_token in H. apply filter_In in H as [_ H].
  now rewrite String.eqb_refl in H.
Qed.

(** X28. A backup code works once.  For an account with two-factor
    authentication on, a token that is not a valid one-time password but
    is one of the account's backup codes is accepted, and the account in
    the database loses that code and nothing else; other accounts are
    untouched.  Presented again with the account loaded afresh, the same
    token is refused.  The check reads the codes of the document it is
    handed, though: the document loaded before the first call would be
    accepted a second time. *)
Theorem backup_code_single_use (verify1 verify2 : verifier) (db : list user)
    (u : user) (secret token : string) (codes : list string) :
  findById db (_id u) = Some u ->
  twoFactorEnabled u = true -> twoFactorSecret u = Some secret ->
  secret <> "" -> backupCodes u = Some codes -> In token codes ->
  verify1 token secret = false -> verify2 token secret = false ->
  let first := authenticate verify1 db u token in
  let u' := User (_id u) true (Some secret)
                 (Some (List.filter (fun c => negb (String.eqb c token))
                                    codes)) in
  first.2 = true
  /\ findById first.1 (_id u) = Some u'
  /\ (forall id, id <> _id u -> findById first.1 id = findById db id)
  /\ authenticate verify2 first.1 u' token = (first.1, false)
  /\ (authenticate verify2 first.1 u token).2 = true.
Proof.
  intros Hfind Hon Hsecret Hne Hcodes Hin Hv1 Hv2. cbv zeta.
  assert (Hempty : String.eqb secret "" = false).
  { destruct (String.eqb_spec secret ""); congruence. }
  assert (Hex : existsb (String.eqb token) codes = true)
    by now apply existsb_token.
  unfold authenticate at 1 2 3.
  rewrite Hon, Hsecret, Hempty, Hv1, Hcodes, Hex. cbn [fst snd].
  split; [reflexivity|]. split.
  - rewrite (findById_update (_id u) (pull_code token) db u Hfind eq_refl).
    unfold pull_code. now rewrite Hon, Hsecret, Hcodes.
  - split; [intros id Hid; now apply findById_update_other|].
    split.
    + unfold authenticate. cbn [twoFactorEnabled twoFactorSecret backupCodes].
      now rewrite Hempty, Hv2, existsb_pulled.
    + unfold authenticate. now rewrite Hon, Hsecret, Hempty, Hv2, Hcodes, Hex.
Qed.

Lemma backup_code_single_use_witness :
  let u := User 7 true (Some "JBSWY3DP") (Some ["A1B2C3D4"; "0F0F0F0F"]) in
  let db := [User 3 false None None; u] in
  (authenticate (fun _ _ => false) db u "A1B2C3D4").2 = true.
Proof.
  cbv zeta.
  refine (proj1 (backup_code_single_use (fun _ _ => false) (fun _ _ => false)
                   [User 3 false None None;
                    User 7 true (Some "JBSWY3DP")
                         (Some ["A1B2C3D4"; "0F0F0F0F"])]
                   (User 7 true (Some "JBSWY3DP")
                         (Some ["A1B2C3D4"; "0F0F0F0F"]))
                   "JBSWY3DP" "A1B2C3D4" ["A1B2C3D4"; "0F0F0F0F"]
                   eq_refl eq_refl eq_refl _ eq_refl _ eq_refl eq_refl)).
  - discriminate.
  - left. reflexivity.
Defined.

(** X29. [authenticate] lets a token through in exactly four cases:
    two-factor authentication is off, the account has no secret, the
    token is a valid one-time password for the secret, or the token is
    one of the account's backup codes.  Only in the last case is the
    database written. *)
Theorem authenticate_accepts (verify : verifier) (db : list user) (u : user)
    (token : string) :
  let out := authenticate verify db u token in
  (out.2 = true <->
     twoFactorEnabled u = false
     \/ twoFactorSecret u = None \/ twoFactorSecret u = Some ""
     \/ (exists secret, twoFactorSecret u = Some secret
                        /\ verify token secret = true)
     \/ (exists codes, backupCodes u = Some codes /\ In token codes))
  /\ (out.1 <> db ->
      exists secret codes,
        twoFactorEnabled u = true /\ twoFactorSecret u = Some secret
        /\ secret <> "" /\ verify token secret = false
        /\ backupCodes u = Some codes /\ In token codes).
Proof.
  cbv zeta. unfold authenticate.
  destruct (twoFactorEnabled u) eqn:Hon;
    [|split; [split; auto | intros H; now contradiction H]].
  destruct (twoFactorSecret u) as [secret|] eqn:Hsecret;
    [|split; [split; auto | intros H; now contradiction H]].
  destruct (String.eqb_spec secret "") as [->|Hne];
    [split; [split; auto | intros H; now contradiction H]|].
  destruct (verify token secret) eqn:Hv.
  { split; [|intros H; now contradiction H].
    split; [|reflexivity]. intros _. right. right. right. left. eauto. }
  destruct (backupCodes u) as [codes|] eqn:Hcodes.
  - destruct (existsb (String.eqb token) codes) eqn:Hex; cbn [fst snd].
    + apply existsb_token in Hex. split.
      * split; [|reflexivity]. intros _. do 4 right. eauto.
      * intros _. exists secret, codes. auto 10.
    + split; [|intros H; now contradiction H].
      split; [discriminate|].
      intros [H | [H | [H | [(s & Hs & Hvs) | (c & Hc & Hin)]]]];
        try discriminate.
      * congruence.
      * congruence.
      * injection Hc as <-. apply existsb_token in Hin. congruence.
  - cbn [fst snd]. split; [|intros H; now contradiction H].
    split; [discriminate|].
    intros [H | [H | [H | [(s & Hs & Hvs) | (c & Hc & Hin)]]]];
      try discriminate; congruence.
Qed.

Lemma hex_byte_format (b : Byte.byte) :
  String.length (hex_byte b) = 2%nat
  /\ forallb upper_hex (list_ascii_of_string (hex_byte b)) = true.
Proof. destruct b; split; reflexivity. Qed.

Lemma list_ascii_of_string_app (s1 s2 : string) :
  list_ascii_of_string (s1 ++ s2)
  = (list_ascii_of_string s1 ++ list_ascii_of_string s2)%list.
Proof.
  induction s1 as [|c s1 IH]; [reflexivity|].
  change (String c s1 ++ s2)%string with (String c (s1 ++ s2)%string).
  cbn [list_ascii_of_string]. now rewrite IH.
Qed.

Lemma length_string_app (s1 s2 : string) :
  String.length (s1 ++ s2) = (String.length s1 + String.length s2)%nat.
Proof.
  induction s1 as [|c s1 IH]; [reflexivity|].
  change (String c s1 ++ s2)%string with (String c (s1 ++ s2)%string).
  cbn [String.length]. now rewrite IH.
Qed.

Lemma code_of_format (bytes : Byte.byte * Byte.byte * Byte.byte * Byte.byte) :
  eight_hex (code_of bytes) = true.
Proof.
  destruct bytes as [[[b0 b1] b2] b3]. unfold eight_hex, code_of.
  destruct (hex_byte_format b0) as [L0 H0], (hex_byte_format b1) as [L1 H1],
           (hex_byte_format b2) as [L2 H2], (hex_byte_format b3) as [L3 H3].
  rewrite !length_string_app, !list_ascii_of_string_app, !forallb_app.
  rewrite L0, L1, L2, L3, H0, H1, H2, H3. reflexivity.
Qed.

Lemma codes_from_format (rnd : random) (count i : nat) :
  length (codes_from rnd i count) = count
  /\ Forall (fun c => eight_hex c = true) (codes_from rnd i count).
Proof.
  revert i. induction count as [|k IH]; intros i; cbn [codes_from length].
  - split; [reflexivity | constructor].
  - destruct (IH (S i)) as [Hl Hf]. split; [now rewrite Hl|].
    constructor; [apply code_of_format | exact Hf].
Qed.

(** X30. [generateBackupCodes] returns as many codes as asked for (none
    for a negative count), each of eight characters of [0-9A-F],
    whatever the random bytes.  [enableMFA] with a token that does not
    verify against the secret throws and writes nothing; with one that
    does, it returns ten such codes and the account, when it exists, has
    two-factor authentication on with that secret and exactly the
    returned codes, while no other account changes. *)
Theorem enableMFA_cases (verify : verifier) (rnd : random) (db : list user)
    (userId : Z) (secret token : string) :
  let out := enableMFA verify rnd db userId secret token in
  (forall count : Z,
     length (generateBackupCodes rnd count) = Z.to_nat count
     /\ Forall (fun c => eight_hex c = true) (generateBackupCodes rnd count))
  /\ (verify token secret = false -> out = (db, None))
  /\ (verify token secret = true ->
      exists codes,
        out.2 = Some codes /\ length codes = 10%nat
        /\ Forall (fun c => eight_hex c = true) codes
        /\ (forall u, findById db userId = Some u ->
              findById out.1 userId
              = Some (User userId true (Some secret) (Some codes)))
        /\ (findById db userId = None -> out.1 = db)
        /\ (forall id, id <> userId ->
              findById out.1 id = findById db id)).
Proof.
  cbv zeta. split; [intros count; apply codes_from_format|].
  unfold enableMFA. split; intros Hv; rewrite Hv; cbn [negb];
    [reflexivity|].
  exists (generateBackupCodes rnd 10). cbn [fst snd].
  split; [reflexivity|].
  split; [apply (codes_from_format rnd 10 0)|].
  split; [apply (codes_from_format rnd 10 0)|].
  split.
  - intros u Hu.
    rewrite (findById_update userId
               (fun u0 => User (_id u0) true (Some secret)
                               (Some (generateBackupCodes rnd 10))) db u Hu).
    + f_equal. f_equal. unfold findById in Hu.
      apply find_some in Hu as [_ Hu]. now apply Z.eqb_eq in Hu.
    + cbn. unfold findById in Hu.
      apply find_some in Hu as [_ Hu]. now apply Z.eqb_eq in Hu.
  - split.
    + intros Hnone. now apply findById_update_none.
    + intros id Hid. now apply findById_update_other.
Qed.

End TwoFactor.

(** ** The client's list and counter *)

Section ClientState.

Import Client.

Lemma apply_counter (s : state) (e : event) :
  count_ok e = true -> 0 <= unreadCount s -> 0 <= unreadCount (apply s e).
Proof.
  destruct e; cbn; intros He Hs; lia.
Qed.

(** The unread counter of the provider never goes below 0, whatever the
    order of socket messages, fetches and user actions, as long as the
    server's counts are not negative; and marking all as read leaves
    every listed notification read, in the same order, with the counter
    at 0. *)
Lemma client_counter (events : list event) :
  Forall (fun e => count_ok e = true) events ->
  0 <= unreadCount (run initial events)
  /\ (let s := markAllAsRead (run initial events) in
      unreadCount s = 0
      /\ Forall (fun n => Notification.read n = true) (notifications s)
      /\ map Notification._id (notifications s)
         = map Notification._id (notifications (run initial events))).
Proof.
  intros Hok. split.
  - assert (H : forall s, 0 <= unreadCount s -> 0 <= unreadCount (run s events)).
    { induction Hok as [|e events He _ IH]; intros s Hs; [exact Hs|].
      cbn [run fold_left]. apply IH. now apply apply_counter. }
    apply H. cbn. lia.
  - cbv zeta. cbn [markAllAsRead unreadCount notifications].
    split; [reflexivity|]. split.
    + apply List.Forall_forall. intros n Hn. apply in_map_iff in Hn as (m & <- & _).
      reflexivity.
    + rewrite map_map. reflexivity.
Qed.

End ClientState.
